(** * hipages-poller: the change-detection and notification engine

    A shallow embedding of the polling half of [lead-detector.js]
    (class [LeadDetector]): the snapshot diff ([detectLeadChanges] and the
    functions under it), the notification deduplicator
    ([shouldSendNotification]), the webhook delivery
    ([sendWebhookNotification]), the backoff computation
    ([getBackoffDelay]) and one cycle of the poll loop ([pollLeadsData]).

    Browser automation, login and cookie persistence are outside the
    embedding; what they leave behind ([cookies], [isRunning]) is part of the
    detector state. *)

From Stdlib Require Import List String Ascii ZArith QArith Bool Arith Lia Lqa.
From Stdlib Require Import DecimalString.
From Stdlib Require Qcanon.
Import ListNotations.

Local Close Scope Q_scope.
Local Open Scope string_scope.
Local Open Scope list_scope.

(** ** JavaScript values

    The values the detector handles are those [JSON.parse] returns, plus
    [undefined] for a missing property.

    - A number is kept as its canonical rendering ([Number.prototype.toString],
      which prints both zeros as ["0"]).  The program never computes with the
      numbers of a snapshot: it tests them for truthiness, compares them with
      [===] and joins them into strings.  Two numbers other than [NaN] are
      [===] exactly when their renderings agree.
    - Arrays and objects carry the identity of the heap object ([ref]), which
      is what [===] and [Set.prototype.has] compare.
    - The properties of an object are listed in the order [Object.keys]
      enumerates them, with pairwise distinct keys.
    - A character of a string is one UTF-16 code unit; the strings of the
      embedding are those whose code units are below 256.
    - The objects of a snapshot are data: in the definitions of this module
      the methods the program calls on them ([hasOwnProperty], and [toString]
      under [join]) are those of [Object.prototype].  An object with an own
      property of either name shadows the method with a value that is no
      function; the calls on such an object are in [Full], below. *)
Module JS.

#[local] Set Warnings "-register-all".

Inductive value : Type :=
| VUndefined
| VNull
| VBool (b : bool)
| VNum (repr : string)
| VStr (s : string)
| VArr (ref : nat) (items : list value)
| VObj (ref : nat) (props : list (string * value)).

(** The own enumerable properties of an object, as spread syntax and
    [Object.keys] see them. *)
Definition object := list (string * value).

(** ToBoolean. *)
Definition truthy (v : value) : bool :=
  match v with
  | VUndefined | VNull => false
  | VBool b => b
  | VNum r => negb (String.eqb r "0" || String.eqb r "NaN")
  | VStr s => negb (String.eqb s "")
  | VArr _ _ | VObj _ _ => true
  end.

(** [a === b]. *)
Definition strict_eq (a b : value) : bool :=
  match a, b with
  | VUndefined, VUndefined => true
  | VNull, VNull => true
  | VBool x, VBool y => Bool.eqb x y
  | VNum x, VNum y => String.eqb x y && negb (String.eqb x "NaN")
  | VStr x, VStr y => String.eqb x y
  | VArr r1 _, VArr r2 _ => Nat.eqb r1 r2
  | VObj r1 _, VObj r2 _ => Nat.eqb r1 r2
  | _, _ => false
  end.

(** SameValueZero, the equality of [Set.prototype.has] and
    [Array.prototype.includes]: [===], except that [NaN] is itself. *)
Definition same_value_zero (a b : value) : bool :=
  match a, b with
  | VNum x, VNum y => String.eqb x y
  | _, _ => strict_eq a b
  end.

(** [typeof v === 'object']; true of [null] as well. *)
Definition typeof_object (v : value) : bool :=
  match v with
  | VNull | VArr _ _ | VObj _ _ => true
  | _ => false
  end.

Definition isArray (v : value) : bool :=
  match v with
  | VArr _ _ => true
  | _ => false
  end.

Fixpoint lookup (k : string) (o : object) : option value :=
  match o with
  | [] => None
  | (k', v) :: rest => if String.eqb k' k then Some v else lookup k rest
  end.

(** [o[k]] and [o.k] on an object: [undefined] when the key is missing.  The
    keys the program reads ([id], [uniqueKey] and the names of the lead
    fields) are not inherited from [Object.prototype]. *)
Definition get (o : object) (k : string) : value :=
  match lookup k o with
  | Some v => v
  | None => VUndefined
  end.

(** [o.hasOwnProperty(k)] as [Object.prototype.hasOwnProperty] answers it:
    whether [k] is an own property.  ([Full.hasOwnProperty] is the call on an
    object that may shadow the method.) *)
Definition hasOwnProperty (o : object) (k : string) : bool :=
  match lookup k o with
  | Some _ => true
  | None => false
  end.

(** [{ ...o, k: v }]: an existing key keeps its place, a new one goes last. *)
Fixpoint set_prop (k : string) (v : value) (o : object) : object :=
  match o with
  | [] => [(k, v)]
  | (k', v') :: rest =>
      if String.eqb k' k then (k', v) :: rest
      else (k', v') :: set_prop k v rest
  end.

Definition keys (o : object) : list string := map fst o.
Definition values (o : object) : list value := map snd o.

Definition index_key (i : nat) : string :=
  NilEmpty.string_of_uint (Nat.to_uint i).

Definition indexed (l : list value) : object :=
  combine (map index_key (seq 0 (List.length l))) l.

Definition chars (s : string) : list value :=
  map (fun c => VStr (String c "")) (list_ascii_of_string s).

(** The own enumerable properties of any value that has some: the entries of
    an object, the elements of an array and the characters (code units) of a
    string under their indices, nothing for a number or a boolean. *)
Definition own_props (v : value) : object :=
  match v with
  | VObj _ ps => ps
  | VArr _ items => indexed items
  | VStr s => indexed (chars s)
  | _ => []
  end.

(** Reading a property of [null] or [undefined] throws a [TypeError]; every
    other value answers from its own properties. *)
Definition to_object (v : value) : option object :=
  match v with
  | VUndefined | VNull => None
  | _ => Some (own_props v)
  end.

(** [parts.join(sep)] on strings. *)
Fixpoint join (sep : string) (parts : list string) : string :=
  match parts with
  | [] => ""
  | p :: rest =>
      match rest with
      | [] => p
      | _ :: _ => String.append p (String.append sep (join sep rest))
      end
  end.

(** ToString, as [Array.prototype.join] applies it to the elements of an
    array: an array prints its elements joined by commas, with [null] and
    [undefined] elements printed as the empty string, and an object prints
    as [Object.prototype.toString] prints it.  ([Full.to_string] is the
    conversion of a value that may hold an object with an own [toString].) *)
Fixpoint to_string (v : value) : string :=
  match v with
  | VUndefined => "undefined"
  | VNull => "null"
  | VBool true => "true"
  | VBool false => "false"
  | VNum r => r
  | VStr s => s
  | VArr _ items =>
      join ","
        (map (fun x => match x with
                       | VUndefined | VNull => ""
                       | _ => to_string x
                       end) items)
  | VObj _ _ => "[object Object]"
  end.

Definition join_values (sep : string) (l : list value) : string :=
  join sep (map (fun x => match x with
                          | VUndefined | VNull => ""
                          | _ => to_string x
                          end) l).

(** [s.includes(sub)]. *)
Fixpoint includes (s sub : string) : bool :=
  if String.prefix sub s then true
  else match s with
       | EmptyString => false
       | String _ s' => includes s' sub
       end.

End JS.
Import JS.

(** ** Exceptions *)

Inductive exn : Type :=
| TypeError
| HttpError (status : Z)
| TransportError.

Inductive result (A : Type) : Type :=
| Ok (a : A)
| Throw (e : exn).
Arguments Ok {A} a.
Arguments Throw {A} e.

Definition rbind {A B : Type} (r : result A) (k : A -> result B) : result B :=
  match r with
  | Ok a => k a
  | Throw e => Throw e
  end.

(** [l.map(f)] where [f] may throw: the first exception ends the loop. *)
Fixpoint map_throwing {A B : Type} (f : A -> result B) (l : list A)
  : result (list B) :=
  match l with
  | [] => Ok []
  | x :: rest =>
      rbind (f x) (fun y =>
      rbind (map_throwing f rest) (fun ys => Ok (y :: ys)))
  end.

(** ** Leads and their comparison *)

(** A lead is an object of the snapshot, or a copy of one with a [uniqueKey]
    added.  The program never compares leads by identity, so a lead is its
    properties. *)
Definition lead := object.

Definition keyFields : list string :=
  ["name"; "title"; "location"; "address"; "job"; "type"; "category"].

(** [createUniqueKey(lead)]: the truthy ones of the seven key fields, in
    order, joined by ["|"]. *)
Definition createUniqueKey (l : lead) : string :=
  let keyParts := filter truthy (map (get l) keyFields) in
  join_values "|" keyParts.

(** [areLeadsEqual(lead1, lead2)]. *)
Definition areLeadsEqual (lead1 lead2 : lead) : bool :=
  if truthy (get lead1 "id") && truthy (get lead2 "id") then
    strict_eq (get lead1 "id") (get lead2 "id")
  else if truthy (get lead1 "uniqueKey") && truthy (get lead2 "uniqueKey") then
    strict_eq (get lead1 "uniqueKey") (get lead2 "uniqueKey")
  else
    let fieldsToCompare := keyFields in
    forallb (fun field =>
               if negb (hasOwnProperty lead1 field)
                  || negb (hasOwnProperty lead2 field)
               then true
               else strict_eq (get lead1 field) (get lead2 field))
            fieldsToCompare.

(** [isLikelyLeadObject(obj)]. *)
Definition leadProperties : list string :=
  ["id"; "name"; "title"; "description"; "location"; "address"; "job";
   "type"; "category"].

Definition isLikelyLeadObject (obj : object) : bool :=
  let hasLeadProperties := existsb (hasOwnProperty obj) leadProperties in
  let objKeys := keys obj in
  let hasLeadLikeKeys :=
    existsb (fun key => includes key "lead" || includes key "job"
                        || includes key "customer" || includes key "client")
            objKeys in
  hasLeadProperties || hasLeadLikeKeys.

(** The body shared by the two branches of [extractLeadObjects]: an item
    without a truthy [id] is copied with its derived [uniqueKey], an item with
    one is taken as it is. *)
Definition withUniqueKey (item : object) : lead :=
  if negb (truthy (get item "id")) then
    let uniqueKey := createUniqueKey item in
    set_prop "uniqueKey" (VStr uniqueKey) item
  else item.

(** [processItem] of [extractLeadObjects]: the lead-like objects of a nested
    structure, the enclosing one before the enclosed ones. *)
Fixpoint processItem (item : value) : list lead :=
  match item with
  | VArr _ items =>
      (if isLikelyLeadObject (own_props item)
       then [withUniqueKey (own_props item)] else [])
      ++ flat_map processItem items
  | VObj _ ps =>
      (if isLikelyLeadObject ps then [withUniqueKey ps] else [])
      ++ flat_map (fun kv => processItem (snd kv)) ps
  | _ => []
  end.

(** [extractLeadObjects(array)].  It is called on arrays only
    ([detectLeadChanges] checks [Array.isArray]); [item.id] throws on a
    [null] element of an array whose first element is an object. *)
Definition extractLeadObjects (array : value) : result (list lead) :=
  let items :=
    match array with
    | VArr _ items => items
    | _ => []
    end in
  let holdsObjects :=
    match items with
    | first :: _ => typeof_object first && negb (strict_eq first VNull)
    | [] => false
    end in
  if holdsObjects then
    map_throwing (fun item =>
                    match to_object item with
                    | None => Throw TypeError
                    | Some o => Ok (withUniqueKey o)
                    end) items
  else Ok (processItem array).

(** What a diff returns: [{ hasChanges, newLeads }]. *)
Record changes : Type := mkChanges {
  hasChanges : bool;
  newLeads : list lead
}.

(** [detectLeadChangesFromArrays(previousArray, currentArray)]. *)
Definition detectLeadChangesFromArrays (previousArray currentArray : value)
  : result changes :=
  rbind (extractLeadObjects previousArray) (fun previousLeads =>
  rbind (extractLeadObjects currentArray) (fun currentLeads =>
    let newLeads :=
      filter (fun currentLead =>
                negb (existsb (fun prevLead => areLeadsEqual prevLead currentLead)
                              previousLeads))
             currentLeads in
    Ok (mkChanges (0 <? List.length newLeads)%nat newLeads))).

(** ** The method calls on the records of a snapshot

    The definitions above read [hasOwnProperty] and [toString] off
    [Object.prototype].  A record of a snapshot can have an own property of
    either name, and [JSON.parse] never makes it a function: the call
    [lead1.hasOwnProperty(field)] then throws a [TypeError], and so does
    [join] when it prints an object with an own [toString] (the method
    inherited under [valueOf] returns the object, which is no primitive).
    [Full] is the array diff with these calls as the program makes them, in
    the order it makes them.  Whenever it returns, the definitions above
    return the same. *)

(** [l.every(f)], [l.some(f)] and [l.filter(f)] where [f] may throw: [every]
    stops at the first [false], [some] at the first [true], and the first
    exception ends each of them. *)
Fixpoint every_throwing {A : Type} (f : A -> result bool) (l : list A)
  : result bool :=
  match l with
  | [] => Ok true
  | x :: rest =>
      rbind (f x) (fun b => if b then every_throwing f rest else Ok false)
  end.

Fixpoint some_throwing {A : Type} (f : A -> result bool) (l : list A)
  : result bool :=
  match l with
  | [] => Ok false
  | x :: rest =>
      rbind (f x) (fun b => if b then Ok true else some_throwing f rest)
  end.

Fixpoint filter_throwing {A : Type} (f : A -> result bool) (l : list A)
  : result (list A) :=
  match l with
  | [] => Ok []
  | x :: rest =>
      rbind (f x) (fun b =>
      rbind (filter_throwing f rest) (fun kept =>
        Ok (if b then x :: kept else kept)))
  end.

Module Full.

(** [o.hasOwnProperty(k)]: the call of what [o.hasOwnProperty] is. *)
Definition hasOwnProperty (o : object) (k : string) : result bool :=
  if JS.hasOwnProperty o "hasOwnProperty" then Throw TypeError
  else Ok (JS.hasOwnProperty o k).

(** ToString, as [Array.prototype.join] applies it to an element. *)
Fixpoint to_string (v : value) : result string :=
  match v with
  | VArr _ items =>
      rbind (map_throwing (fun x => match x with
                                    | VUndefined | VNull => Ok ""
                                    | _ => to_string x
                                    end) items)
            (fun parts => Ok (join "," parts))
  | VObj _ ps =>
      if JS.hasOwnProperty ps "toString" then Throw TypeError
      else Ok "[object Object]"
  | _ => Ok (JS.to_string v)
  end.

Definition join_values (sep : string) (l : list value) : result string :=
  rbind (map_throwing (fun x => match x with
                                | VUndefined | VNull => Ok ""
                                | _ => to_string x
                                end) l)
        (fun parts => Ok (join sep parts)).

(** [createUniqueKey(lead)]. *)
Definition createUniqueKey (l : lead) : result string :=
  let keyParts := filter truthy (map (get l) keyFields) in
  join_values "|" keyParts.

(** [areLeadsEqual(lead1, lead2)]. *)
Definition areLeadsEqual (lead1 lead2 : lead) : result bool :=
  if truthy (get lead1 "id") && truthy (get lead2 "id") then
    Ok (strict_eq (get lead1 "id") (get lead2 "id"))
  else if truthy (get lead1 "uniqueKey") && truthy (get lead2 "uniqueKey") then
    Ok (strict_eq (get lead1 "uniqueKey") (get lead2 "uniqueKey"))
  else
    let fieldsToCompare := keyFields in
    every_throwing
      (fun field =>
         rbind (hasOwnProperty lead1 field) (fun has1 =>
           if negb has1 then Ok true
           else
             rbind (hasOwnProperty lead2 field) (fun has2 =>
               if negb has2 then Ok true
               else Ok (strict_eq (get lead1 field) (get lead2 field)))))
      fieldsToCompare.

(** [isLikelyLeadObject(obj)]. *)
Definition isLikelyLeadObject (obj : object) : result bool :=
  rbind (some_throwing (hasOwnProperty obj) leadProperties)
        (fun hasLeadProperties =>
  let objKeys := keys obj in
  let hasLeadLikeKeys :=
    existsb (fun key => includes key "lead" || includes key "job"
                        || includes key "customer" || includes key "client")
            objKeys in
  Ok (hasLeadProperties || hasLeadLikeKeys)).

Definition withUniqueKey (item : object) : result lead :=
  if negb (truthy (get item "id")) then
    rbind (createUniqueKey item) (fun uniqueKey =>
      Ok (set_prop "uniqueKey" (VStr uniqueKey) item))
  else Ok item.

(** [processItem] of [extractLeadObjects]: an exception leaves the search
    and [extractLeadObjects] with it. *)
Fixpoint processItem (item : value) : result (list lead) :=
  let self (obj : object) : result (list lead) :=
    rbind (isLikelyLeadObject obj) (fun likely =>
      if likely then rbind (withUniqueKey obj) (fun l => Ok [l])
      else Ok []) in
  match item with
  | VArr _ items =>
      rbind (self (own_props item)) (fun here =>
      rbind (map_throwing processItem items) (fun below =>
        Ok (here ++ List.concat below)))
  | VObj _ ps =>
      rbind (self ps) (fun here =>
      rbind (map_throwing (fun kv => processItem (snd kv)) ps) (fun below =>
        Ok (here ++ List.concat below)))
  | _ => Ok []
  end.

(** [extractLeadObjects(array)]. *)
Definition extractLeadObjects (array : value) : result (list lead) :=
  let items :=
    match array with
    | VArr _ items => items
    | _ => []
    end in
  let holdsObjects :=
    match items with
    | first :: _ => typeof_object first && negb (strict_eq first VNull)
    | [] => false
    end in
  if holdsObjects then
    map_throwing (fun item =>
                    match to_object item with
                    | None => Throw TypeError
                    | Some o => withUniqueKey o
                    end) items
  else processItem array.

(** [detectLeadChangesFromArrays(previousArray, currentArray)]. *)
Definition detectLeadChangesFromArrays (previousArray currentArray : value)
  : result changes :=
  rbind (extractLeadObjects previousArray) (fun previousLeads =>
  rbind (extractLeadObjects currentArray) (fun currentLeads =>
  rbind (filter_throwing
           (fun currentLead =>
              rbind (some_throwing
                       (fun prevLead => areLeadsEqual prevLead currentLead)
                       previousLeads)
                    (fun known => Ok (negb known)))
           currentLeads) (fun newLeads =>
    Ok (mkChanges (0 <? List.length newLeads)%nat newLeads)))).

End Full.

(** ** Regular expressions of the text fallback

    The patterns of [removeDynamicContent] and [extractLeadIdentifiers] are
    sequences of character classes under a quantifier.  [match_here] is the
    backtracking matcher for such a sequence: every quantifier is greedy and
    gives characters back one at a time. *)
Module Regex.

Record atom : Type := mkAtom {
  cls : ascii -> bool;
  rmin : nat;
  rmax : option nat
}.

Definition regex := list atom.

Definition code (c : ascii) : nat := nat_of_ascii c.

(** [\d] *)
Definition digit (c : ascii) : bool :=
  (48 <=? code c)%nat && (code c <=? 57)%nat.

Definition upper (c : ascii) : bool :=
  (65 <=? code c)%nat && (code c <=? 90)%nat.

Definition lower (c : ascii) : bool :=
  (97 <=? code c)%nat && (code c <=? 122)%nat.

(** [\w] *)
Definition word (c : ascii) : bool :=
  digit c || upper c || lower c || Ascii.eqb c "_".

(** [["']] and [[^"']] *)
Definition quote (c : ascii) : bool :=
  (code c =? 34)%nat || (code c =? 39)%nat.

Definition not_quote (c : ascii) : bool := negb (quote c).

Definition to_lower (c : ascii) : ascii :=
  if upper c then ascii_of_nat (code c + 32) else c.

(** One literal character, and one literal character under the [i] flag. *)
Definition lit (x : ascii) : atom := mkAtom (Ascii.eqb x) 1 (Some 1).
Definition lit_i (x : ascii) : atom :=
  mkAtom (fun c => Ascii.eqb (to_lower c) (to_lower x)) 1 (Some 1).

Definition text (s : string) : regex := map lit (list_ascii_of_string s).
Definition text_i (s : string) : regex := map lit_i (list_ascii_of_string s).

(** [c{n}], [c{m,n}] and [c+]. *)
Definition times (c : ascii -> bool) (n : nat) : atom := mkAtom c n (Some n).
Definition between (c : ascii -> bool) (m n : nat) : atom := mkAtom c m (Some n).
Definition plus (c : ascii -> bool) : atom := mkAtom c 1 None.

(** How many leading characters of [s] are in the class, up to the bound. *)
Fixpoint span (c : ascii -> bool) (limit : option nat) (s : string) : nat :=
  match s with
  | EmptyString => 0
  | String x s' =>
      if c x then
        match limit with
        | Some 0 => 0
        | Some (S k) => S (span c (Some k) s')
        | None => S (span c None s')
        end
      else 0
  end.

Fixpoint drop (n : nat) (s : string) : string :=
  match n, s with
  | S k, String _ s' => drop k s'
  | _, _ => s
  end.

Fixpoint take (n : nat) (s : string) : string :=
  match n, s with
  | S k, String x s' => String x (take k s')
  | _, _ => EmptyString
  end.

(** The length of the match of [r] at the start of [s], if there is one. *)
Fixpoint match_here (r : regex) (s : string) : option nat :=
  match r with
  | [] => Some 0
  | a :: r' =>
      (fix give_back (n : nat) : option nat :=
         match (if (rmin a <=? n)%nat then match_here r' (drop n s) else None) with
         | Some m => Some (n + m)
         | None =>
             match n with
             | 0 => None
             | S n' => give_back n'
             end
         end) (span (cls a) (rmax a) s)
  end.

(** [s.replace(/r/g, by)]: the matches are found left to right and do not
    overlap; [skip] counts the characters of the current match still to be
    passed over. *)
Fixpoint replace_from (r : regex) (by_ : string) (skip : nat) (s : string)
  : string :=
  match skip with
  | S k =>
      match s with
      | EmptyString => EmptyString
      | String _ s' => replace_from r by_ k s'
      end
  | 0 =>
      match match_here r s, s with
      | Some (S n), String _ s' => String.append by_ (replace_from r by_ n s')
      | Some 0, String x s' =>
          String.append by_ (String x (replace_from r by_ 0 s'))
      | Some _, EmptyString => by_
      | None, String x s' => String x (replace_from r by_ 0 s')
      | None, EmptyString => EmptyString
      end
  end.

Definition replace (r : regex) (by_ : string) (s : string) : string :=
  replace_from r by_ 0 s.

(** [s.match(/r/g) || []]: the matched substrings, left to right. *)
Fixpoint match_from (r : regex) (skip : nat) (s : string) : list string :=
  match skip with
  | S k =>
      match s with
      | EmptyString => []
      | String _ s' => match_from r k s'
      end
  | 0 =>
      match match_here r s, s with
      | Some (S n), String _ s' => take (S n) s :: match_from r n s'
      | Some 0, String _ s' => EmptyString :: match_from r 0 s'
      | Some _, EmptyString => [EmptyString]
      | None, String _ s' => match_from r 0 s'
      | None, EmptyString => []
      end
  end.

Definition match_all (r : regex) (s : string) : list string :=
  match_from r 0 s.

End Regex.

(** ** The text fallback of the diff *)

(** [/\d{2}:\d{2}:\d{2}/g] *)
Definition timestampRegex : Regex.regex :=
  [Regex.times Regex.digit 2; Regex.lit ":"; Regex.times Regex.digit 2;
   Regex.lit ":"; Regex.times Regex.digit 2].

(** [/\d{1,2}\/\d{1,2}\/\d{2,4}/g] *)
Definition slashDateRegex : Regex.regex :=
  [Regex.between Regex.digit 1 2; Regex.lit "/"; Regex.between Regex.digit 1 2;
   Regex.lit "/"; Regex.between Regex.digit 2 4].

(** [/\d{4}-\d{2}-\d{2}/g] *)
Definition isoDateRegex : Regex.regex :=
  [Regex.times Regex.digit 4; Regex.lit "-"; Regex.times Regex.digit 2;
   Regex.lit "-"; Regex.times Regex.digit 2].

(** [/csrf[^"']+["'][^"']+["']/gi] *)
Definition csrfRegex : Regex.regex :=
  Regex.text_i "csrf"
  ++ [Regex.plus Regex.not_quote; Regex.mkAtom Regex.quote 1 (Some 1);
      Regex.plus Regex.not_quote; Regex.mkAtom Regex.quote 1 (Some 1)].

(** [/session[^"']+["'][^"']+["']/gi] *)
Definition sessionRegex : Regex.regex :=
  Regex.text_i "session"
  ++ [Regex.plus Regex.not_quote; Regex.mkAtom Regex.quote 1 (Some 1);
      Regex.plus Regex.not_quote; Regex.mkAtom Regex.quote 1 (Some 1)].

(** [/lead-\w+/g] *)
Definition leadIdRegex : Regex.regex :=
  Regex.text "lead-" ++ [Regex.plus Regex.word].

(** [removeDynamicContent(data)]. *)
Definition removeDynamicContent (data : string) : string :=
  let cleanData := data in
  let cleanData := Regex.replace timestampRegex "TIMESTAMP" cleanData in
  let cleanData := Regex.replace slashDateRegex "DATE" cleanData in
  let cleanData := Regex.replace isoDateRegex "DATE" cleanData in
  let cleanData := Regex.replace csrfRegex "CSRF_TOKEN" cleanData in
  let cleanData := Regex.replace sessionRegex "SESSION_ID" cleanData in
  cleanData.

(** [extractLeadIdentifiers(data)]. *)
Definition extractLeadIdentifiers (data : string) : list string :=
  Regex.match_all leadIdRegex data.

(** [l.map((x, i) => f(i, x))] *)
Fixpoint mapi_from {A B : Type} (i : nat) (f : nat -> A -> B) (l : list A)
  : list B :=
  match l with
  | [] => []
  | x :: rest => f i x :: mapi_from (S i) f rest
  end.

(** [detectLeadChangesFromStrings(previousData, currentData)].  Every new
    lead is stamped with [new Date().toISOString()]; [clock i] is the reading
    taken for the lead at index [i]. *)
Definition detectLeadChangesFromStrings (clock : nat -> string)
  (previousData currentData : string) : changes :=
  let cleanPrevData := removeDynamicContent previousData in
  let cleanCurrData := removeDynamicContent currentData in
  let hasChanges := negb (String.eqb cleanPrevData cleanCurrData) in
  let prevLeadIds := extractLeadIdentifiers previousData in
  let currLeadIds := extractLeadIdentifiers currentData in
  let newLeadIds :=
    filter (fun id => negb (existsb (String.eqb id) prevLeadIds)) currLeadIds in
  let newLeads :=
    mapi_from 0 (fun i id => [("id", VStr id); ("detectedAt", VStr (clock i))])
              newLeadIds in
  mkChanges (hasChanges && (0 <? List.length newLeads)%nat) newLeads.

(** [detectLeadChanges(previousData, currentData, previousArray,
    currentArray)]. *)
Definition detectLeadChanges (clock : nat -> string)
  (previousData currentData : string) (previousArray currentArray : value)
  : result changes :=
  if isArray previousArray && isArray currentArray then
    detectLeadChangesFromArrays previousArray currentArray
  else
    Ok (detectLeadChangesFromStrings clock previousData currentData).

(** ** Configuration and detector state *)

(** The options of [CONFIG] the polling core reads, and [ignoreFields] and
    [onlyNotifyNewLeads], which it declares next to them.  Times are in
    milliseconds. *)
Record config : Type := mkConfig {
  pollingInterval : Z;
  baseBackoffDelay : Z;
  maxBackoffDelay : Z;
  ignoreFields : list string;
  onlyNotifyNewLeads : bool;
  minNewLeadsToNotify : Z;
  deduplicationWindow : Z
}.

Definition CONFIG : config := {|
  pollingInterval := 1000;
  baseBackoffDelay := 1000;
  maxBackoffDelay := 30000;
  ignoreFields :=
    ["timestamp"; "csrf"; "session"; "time"; "date"; "updated_at";
     "created_at"];
  onlyNotifyNewLeads := true;
  minNewLeadsToNotify := 1;
  deduplicationWindow := 5000
|}.

(** The fields of a [LeadDetector] the poll loop reads or writes.
    [previousLeadsArray] is [null] until a snapshot parses;
    [lastNotifiedLeadIds] is a [Set], kept in insertion order. *)
Record detector : Type := mkDetector {
  previousLeadsData : option string;
  previousLeadsArray : value;
  retryCount : nat;
  loginRetryCount : nat;
  cookies : option (list (string * string));
  isRunning : bool;
  lastNotificationTime : Z;
  lastNotifiedLeadIds : list value
}.

(** The state the constructor leaves. *)
Definition new_detector : detector := {|
  previousLeadsData := None;
  previousLeadsArray := VNull;
  retryCount := 0;
  loginRetryCount := 0;
  cookies := None;
  isRunning := false;
  lastNotificationTime := 0;
  lastNotifiedLeadIds := []
|}.

Definition set_baseline (data : string) (array : value) (d : detector)
  : detector :=
  {| previousLeadsData := Some data;
     previousLeadsArray := array;
     retryCount := retryCount d;
     loginRetryCount := loginRetryCount d;
     cookies := cookies d;
     isRunning := isRunning d;
     lastNotificationTime := lastNotificationTime d;
     lastNotifiedLeadIds := lastNotifiedLeadIds d |}.

Definition set_retryCount (n : nat) (d : detector) : detector :=
  {| previousLeadsData := previousLeadsData d;
     previousLeadsArray := previousLeadsArray d;
     retryCount := n;
     loginRetryCount := loginRetryCount d;
     cookies := cookies d;
     isRunning := isRunning d;
     lastNotificationTime := lastNotificationTime d;
     lastNotifiedLeadIds := lastNotifiedLeadIds d |}.

Definition set_loginRetryCount (n : nat) (d : detector) : detector :=
  {| previousLeadsData := previousLeadsData d;
     previousLeadsArray := previousLeadsArray d;
     retryCount := retryCount d;
     loginRetryCount := n;
     cookies := cookies d;
     isRunning := isRunning d;
     lastNotificationTime := lastNotificationTime d;
     lastNotifiedLeadIds := lastNotifiedLeadIds d |}.

Definition set_notified (time : Z) (ids : list value) (d : detector)
  : detector :=
  {| previousLeadsData := previousLeadsData d;
     previousLeadsArray := previousLeadsArray d;
     retryCount := retryCount d;
     loginRetryCount := loginRetryCount d;
     cookies := cookies d;
     isRunning := isRunning d;
     lastNotificationTime := time;
     lastNotifiedLeadIds := ids |}.

(** ** The notification deduplicator *)

(** [set.has(id)] and [set.add(id)]. *)
Definition set_has (set : list value) (id : value) : bool :=
  existsb (same_value_zero id) set.

Definition set_add (set : list value) (id : value) : list value :=
  if set_has set id then set else set ++ [id].

(** [shouldSendNotification(leadIds)], with [now] the reading of
    [Date.now()]: the answer and the detector afterwards. *)
Definition shouldSendNotification (cfg : config) (now : Z)
  (leadIds : list value) (d : detector) : bool * detector :=
  let remember (d : detector) :=
    set_notified now (fold_left set_add leadIds (lastNotifiedLeadIds d)) d in
  if (now - lastNotificationTime d <? deduplicationWindow cfg)%Z then
    let hasOverlap := existsb (set_has (lastNotifiedLeadIds d)) leadIds in
    if hasOverlap then (false, d)
    else (true, remember d)
  else
    let d := set_notified (lastNotificationTime d) [] d in
    (true, remember d).

(** ** Backoff *)

(** The backoff computes with IEEE 754 doubles.  A double is kept as the
    rational number it denotes, and [round] is the rounding of [+] and [*]:
    to the nearest double, ties to the even significand, with the subnormal
    range below 2^-1022.  Magnitudes from 2^1024 on, which the program
    rounds to an infinity, are rounded here as if the exponent had no
    bound. *)
Module Double.

(** [q / 2^e] as a fraction of integers. *)
Definition scale (e : Z) (q : Q) : Z * Z :=
  if (0 <=? e)%Z then (Qnum q, Zpos (Qden q) * 2 ^ e)%Z
  else (Qnum q * 2 ^ (- e), Zpos (Qden q))%Z.

(** [m * 2^e]. *)
Definition unscale (e : Z) (m : Z) : Q :=
  if (0 <=? e)%Z then inject_Z (m * 2 ^ e) else m # Z.to_pos (2 ^ (- e)).

(** The integer nearest to [N / D], for a positive [D]; of two equally near
    ones the even one. *)
Definition nearest_even (N D : Z) : Z :=
  let f := (N / D)%Z in
  match (2 * (N mod D) ?= D)%Z with
  | Lt => f
  | Gt => (f + 1)%Z
  | Eq => if Z.even f then f else (f + 1)%Z
  end.

(** The binary exponent of a positive [q]: [2^e <= q < 2^(e+1)]. *)
Definition exponent (q : Q) : Z :=
  let e0 := (Z.log2 (Qnum q) - Z.log2 (Zpos (Qden q)))%Z in
  let (N, D) := scale e0 q in
  if (N <? D)%Z then (e0 - 1)%Z else e0.

(** A positive [q] keeps 53 significant bits, fewer below 2^-1022. *)
Definition round_pos (q : Q) : Q :=
  let e := Z.max (exponent q - 52) (-1074) in
  let (N, D) := scale e q in
  unscale e (nearest_even N D).

Definition round (q : Q) : Q :=
  let q := Qred q in
  match Qnum q with
  | Z0 => 0%Q
  | Zpos _ => round_pos q
  | Zneg _ => Qopp (round_pos (Qopp q))
  end.

End Double.

(** The jitter, [Math.random() * 1000], with [random] the reading of
    [Math.random()]. *)
Definition jitter (random : Q) : Q := Double.round (random * 1000).

(** [getBackoffDelay(retryCount)].  The delay before the jitter is computed
    on integers: for a positive base delay in whole milliseconds the doubles
    of the source hold the same integers until the product overflows, and
    there [Math.min] returns the cap as it does here.  (With a base delay
    that is not positive the source turns to [-Infinity] or [NaN] from retry
    count 1024 on, where [Math.pow] overflows; the definition does not.)  The
    sum is rounded as the source rounds it, and can reach [delay + 1000]. *)
Definition getBackoffDelay (cfg : config) (retryCount : nat) (random : Q) : Q :=
  let delay :=
    Z.min (baseBackoffDelay cfg * 2 ^ Z.of_nat retryCount)
          (maxBackoffDelay cfg) in
  Double.round (inject_Z delay + jitter random).

(** ** One cycle of the poll loop *)

(** What the world answers during one cycle.  A request of a world settles:
    it is answered, or it fails with an error of the transport.  The program
    sets no timeout on its requests; a request that never settles leaves the
    cycle waiting at its [await], with no timer set, and is no outcome
    here. *)
Inductive get_outcome : Type :=
| GetResponse (statusCode : Z) (location : option string) (body : string)
| GetError.

Inductive post_outcome : Type :=
| PostResponse (statusCode : Z)
| PostError.

Record world : Type := mkWorld {
  leads_response : get_outcome;
  JSON_parse : string -> option value;
  Date_now : Z;
  Date_toISOString : nat -> string;
  payload_timestamp : string;
  webhook_response : post_outcome;
  Math_random : Q
}.

(** The body of a notification. *)
Record payload : Type := mkPayload {
  event : string;
  method : string;
  leads : list lead;
  timestamp : string
}.

(** What a cycle does to the world, in order.  [SetTimeout] is a timer that
    runs [pollLeadsData] again; [Relogin] is the call of [handleRelogin],
    with all that the login does behind it. *)
Inductive effect : Type :=
| HttpGet (cookie : string)
| Relogin
| HttpPost (data : payload)
| SetTimeout (delay : Q).

(** A step of the cycle runs on the detector, may throw, and leaves its
    effects and its writes to the detector behind also when it throws. *)
Definition step (A : Type) : Type :=
  detector -> result A * detector * list effect.

Definition ret {A : Type} (a : A) : step A := fun d => (Ok a, d, []).

Definition bind {A B : Type} (m : step A) (k : A -> step B) : step B :=
  fun d =>
    match m d with
    | (Ok a, d1, e1) =>
        match k a d1 with
        | (r, d2, e2) => (r, d2, e1 ++ e2)
        end
    | (Throw x, d1, e1) => (Throw x, d1, e1)
    end.

Definition throw {A : Type} (x : exn) : step A := fun d => (Throw x, d, []).

Definition try_catch {A : Type} (m : step A) (handler : exn -> step A)
  : step A :=
  fun d =>
    match m d with
    | (Ok a, d1, e1) => (Ok a, d1, e1)
    | (Throw x, d1, e1) =>
        match handler x d1 with
        | (r, d2, e2) => (r, d2, e1 ++ e2)
        end
    end.

Definition read : step detector := fun d => (Ok d, d, []).
Definition write (f : detector -> detector) : step unit :=
  fun d => (Ok tt, f d, []).
Definition emit (e : effect) : step unit := fun d => (Ok tt, d, [e]).
Definition lift {A : Type} (r : result A) : step A := fun d => (r, d, []).

Declare Scope step_scope.
Delimit Scope step_scope with step.
Notation "x <- m ;; k" := (bind m (fun x => k))
  (at level 61, m at next level, right associativity) : step_scope.
Notation "m ;; k" := (bind m (fun _ => k))
  (at level 61, right associativity) : step_scope.
Local Open Scope step_scope.

(** [handleRelogin()], as far as the poll loop is concerned: the call counts
    the attempt and starts the browser login, which nobody awaits.  From the
    fourth attempt on the login begins by waiting [loginRetryDelay] on a
    timer of its own; that timer, like the rest of the login, is behind
    [Relogin] and is no [SetTimeout] of the cycle. *)
Definition handleRelogin : step unit :=
  d <- read ;;
  write (set_loginRetryCount (S (loginRetryCount d))) ;;
  emit Relogin.

(** The [Cookie] header of the request. *)
Definition cookieString (cs : list (string * string)) : string :=
  join "; " (map (fun c => String.append (fst c) (String.append "=" (snd c)))
                 cs).

(** The test of [fetchLeadsData] for an expired session:
    [statusCode === 401 || statusCode === 403 ||
     headers.location && headers.location.includes('/login')]. *)
Definition needsRelogin (statusCode : Z) (location : option string) : bool :=
  (statusCode =? 401)%Z || (statusCode =? 403)%Z
  || match location with
     | Some l => negb (String.eqb l "") && includes l "/login"
     | None => false
     end.

(** [fetchLeadsData()]: the body of the response, [null] when the session has
    expired or the cookies are missing, a rejection on any other failure. *)
Definition fetchLeadsData (w : world) : step (option string) :=
  d <- read ;;
  match cookies d with
  | None => ret None
  | Some cs =>
      emit (HttpGet (cookieString cs)) ;;
      match leads_response w with
      | GetError => throw TransportError
      | GetResponse statusCode location data =>
          if needsRelogin statusCode location then
            handleRelogin ;; ret None
          else if (statusCode <? 200)%Z || (300 <=? statusCode)%Z then
            throw (HttpError statusCode)
          else ret (Some data)
      end
  end.

(** [sendWebhookNotification(data)]: one request; the promise it returns
    resolves to whether the status is a 2xx and rejects when the request
    fails.  The [try] block of the source only builds and returns that
    promise, so its [catch] clause never sees the rejection. *)
Definition sendWebhookNotification (w : world) (data : payload) : step bool :=
  emit (HttpPost data) ;;
  match webhook_response w with
  | PostResponse statusCode =>
      ret ((200 <=? statusCode)%Z && (statusCode <? 300)%Z)
  | PostError => throw TransportError
  end.

Definition leadIdentity (l : lead) : value :=
  if truthy (get l "id") then get l "id" else get l "uniqueKey".

(** The [try] block of [pollLeadsData()]. *)
Definition pollLeadsData_try (cfg : config) (w : world) : step unit :=
  leadsData <- fetchLeadsData w ;;
  match leadsData with
  | None | Some EmptyString =>
      d <- read ;;
      write (set_retryCount (S (retryCount d))) ;;
      d <- read ;;
      let backoffDelay := getBackoffDelay cfg (retryCount d) (Math_random w) in
      emit (SetTimeout backoffDelay)
  | Some leadsData =>
      let currentLeadsArray :=
        match JSON_parse w leadsData with
        | Some parsed => parsed
        | None => VNull
        end in
      d <- read ;;
      match previousLeadsData d with
      | None =>
          write (set_baseline leadsData currentLeadsArray) ;;
          emit (SetTimeout (inject_Z (pollingInterval cfg)))
      | Some previousData =>
          found <- lift (detectLeadChanges (Date_toISOString w)
                           previousData leadsData
                           (previousLeadsArray d) currentLeadsArray) ;;
          (if hasChanges found
              && (minNewLeadsToNotify cfg
                  <=? Z.of_nat (List.length (newLeads found)))%Z
           then
             allowed <- (fun d =>
                           let (b, d') :=
                             shouldSendNotification cfg (Date_now w)
                               (map leadIdentity (newLeads found)) d in
                           (Ok b, d', [])) ;;
             (if allowed : bool then
                _ <- sendWebhookNotification w
                       {| event := "new_leads_detected";
                          method := "polling";
                          leads := newLeads found;
                          timestamp := payload_timestamp w |} ;;
                ret tt
              else ret tt) ;;
             write (set_baseline leadsData currentLeadsArray)
           else if hasChanges found then
             write (set_baseline leadsData currentLeadsArray)
           else ret tt) ;;
          write (set_retryCount 0) ;;
          emit (SetTimeout (inject_Z (pollingInterval cfg)))
      end
  end.

(** The [catch] block of [pollLeadsData()]. *)
Definition pollLeadsData_catch (cfg : config) (w : world) (error : exn)
  : step unit :=
  d <- read ;;
  write (set_retryCount (S (retryCount d))) ;;
  d <- read ;;
  let backoffDelay := getBackoffDelay cfg (retryCount d) (Math_random w) in
  emit (SetTimeout backoffDelay).

(** [pollLeadsData()]: one cycle, up to the timer it sets for the next. *)
Definition pollLeadsData (cfg : config) (w : world) : step unit :=
  d <- read ;;
  if negb (isRunning d) then ret tt
  else try_catch (pollLeadsData_try cfg w) (pollLeadsData_catch cfg w).

(** ** The DOM-mutation path *)

(** [detectNewLeads(currentLeads)] of the script injected into the page, with
    [previousLeads] the value of [window.previousLeads] ([undefined] until the
    script has stored the leads it first saw). *)
Definition detectNewLeads (previousLeads : option (list lead))
  (currentLeads : list lead) : list lead :=
  match previousLeads with
  | None => []
  | Some previousLeads =>
      filter (fun currentLead =>
                if truthy (get currentLead "id") then
                  negb (existsb (fun prevLead =>
                                   strict_eq (get prevLead "id")
                                             (get currentLead "id"))
                                previousLeads)
                else
                  negb (existsb (fun prevLead =>
                                   strict_eq (get prevLead "name")
                                             (get currentLead "name")
                                   && strict_eq (get prevLead "location")
                                                (get currentLead "location")
                                   && strict_eq (get prevLead "jobType")
                                                (get currentLead "jobType"))
                                previousLeads))
             currentLeads
  end.

(** The callback of the [MutationObserver]: [currentLeads] is what
    [getCurrentLeads()] reads off the page when nodes were added.  It returns
    [window.previousLeads] afterwards and the detail of the
    [newLeadsDetected] event it dispatches, if it dispatches one. *)
Definition onMutations (hasAddedNodes : bool) (currentLeads : list lead)
  (previousLeads : option (list lead))
  : option (list lead) * option (list lead) :=
  if hasAddedNodes then
    let newLeads := detectNewLeads previousLeads currentLeads in
    if (0 <? List.length newLeads)%nat then (Some currentLeads, Some newLeads)
    else (previousLeads, None)
  else (previousLeads, None).

Definition domIdentity (l : lead) : value :=
  if truthy (get l "id") then get l "id" else get l "name".

(** The function [startDomMutationObserver] exposes to the page under the
    name [sendWebhookNotification]; the page calls it with the detail of every
    [newLeadsDetected] event. *)
Definition onNewLeadsDetected (cfg : config) (w : world) (newLeads : list lead)
  : step unit :=
  allowed <- (fun d =>
                let (b, d') :=
                  shouldSendNotification cfg (Date_now w)
                    (map domIdentity newLeads) d in
                (Ok b, d', [])) ;;
  if allowed : bool then
    _ <- sendWebhookNotification w
           {| event := "new_leads_detected";
              method := "dom_mutation";
              leads := newLeads;
              timestamp := payload_timestamp w |} ;;
    ret tt
  else ret tt.

(** ** Shutdown *)

Definition set_isRunning (b : bool) (d : detector) : detector :=
  {| previousLeadsData := previousLeadsData d;
     previousLeadsArray := previousLeadsArray d;
     retryCount := retryCount d;
     loginRetryCount := loginRetryCount d;
     cookies := cookies d;
     isRunning := b;
     lastNotificationTime := lastNotificationTime d;
     lastNotifiedLeadIds := lastNotifiedLeadIds d |}.

(** [stop()], on the fields of the detector: it clears [isRunning];
    [cleanup()] then closes the browser, which is outside the embedding. *)
Definition stop (d : detector) : detector := set_isRunning false d.

(** ** The poll loop *)

(** The cycles that follow one another as the timers fire, each in the world
    it meets: the detector after the last of them and everything they did. *)
Fixpoint pollLoop (cfg : config) (ws : list world) (d : detector)
  : detector * list effect :=
  match ws with
  | [] => (d, [])
  | w :: rest =>
      match pollLeadsData cfg w d with
      | (_, d1, e1) =>
          match pollLoop cfg rest d1 with
          | (d2, e2) => (d2, e1 ++ e2)
          end
      end
  end.

(** ** The vocabulary of the properties *)

(** [null] or [undefined]. *)
Definition nullish (v : value) : bool :=
  match v with
  | VUndefined | VNull => true
  | _ => false
  end.

(** An object with a truthy [id]. *)
Definition identified (v : value) : bool :=
  match v with
  | VObj _ ps => truthy (get ps "id")
  | _ => false
  end.

(** [NaN], the one value that is not [===] to itself. *)
Definition isNaN (v : value) : bool :=
  match v with
  | VNum r => String.eqb r "NaN"
  | _ => false
  end.

(** A lead whose [name], [location] and [jobType] are none of them [NaN],
    as every lead the page script builds from text is. *)
Definition plainFields (l : lead) : Prop :=
  isNaN (get l "name") = false
  /\ isNaN (get l "location") = false
  /\ isNaN (get l "jobType") = false.

(** The values [join] can print: those without an object that has an own
    property [toString], at any depth of arrays. *)
Fixpoint prints (v : value) : bool :=
  match v with
  | VArr _ items => forallb prints items
  | VObj _ ps => negb (hasOwnProperty ps "toString")
  | _ => true
  end.

(** The records [extractLeadObjects] can turn into a lead: those with a
    truthy [id], which are taken as they are, and those whose truthy key
    fields [join] can print. *)
Definition keyPrints (o : object) : bool :=
  truthy (get o "id")
  || forallb prints (filter truthy (map (get o) keyFields)).

(** [inside v w]: the value [v] occurs in [w], as [w] itself, as an element
    of an array in it or as the value of a property of an object in it. *)
Inductive inside (v : value) : value -> Prop :=
| inside_here : inside v v
| inside_item (r : nat) (items : list value) (x : value) :
    In x items -> inside v x -> inside v (VArr r items)
| inside_prop (r : nat) (props : object) (k : string) (x : value) :
    In (k, x) props -> inside v x -> inside v (VObj r props).

Definition isGet (e : effect) : bool :=
  match e with HttpGet _ => true | _ => false end.

Definition isPost (e : effect) : bool :=
  match e with HttpPost _ => true | _ => false end.

Definition isTimer (e : effect) : bool :=
  match e with SetTimeout _ => true | _ => false end.

Definition isRelogin (e : effect) : bool :=
  match e with Relogin => true | _ => false end.

(** The deduplication algorithm in the words of the specification: if the
    window has fully elapsed since the last notification, the set of recently
    notified identities is cleared; then, if the window is still active and
    some incoming identity is in the set, the call is suppressed; a call that
    is not suppressed records [now] and adds every incoming identity. *)
Definition ShouldNotify (cfg : config) (now : Z) (identities : list value)
  (st : detector) : bool * detector :=
  let elapsed := (deduplicationWindow cfg <=? now - lastNotificationTime st)%Z in
  let st := if elapsed then set_notified (lastNotificationTime st) [] st
            else st in
  let active := negb elapsed in
  let known id := set_has (lastNotifiedLeadIds st) id in
  if active && existsb known identities then (false, st)
  else
    (true,
     set_notified now (fold_left set_add identities (lastNotifiedLeadIds st)) st).

(** The identifiers a text diff reports as new. *)
Definition newLeadIds (previousData currentData : string) : list string :=
  filter (fun id =>
            negb (existsb (String.eqb id) (extractLeadIdentifiers previousData)))
         (extractLeadIdentifiers currentData).

(** The keys [areLeadsEqual] reads. *)
Definition comparedFields : list string := "id" :: "uniqueKey" :: keyFields.

(** What C5 asks of a configuration: writing a field it lists under
    [ignoreFields] never turns equal leads into different ones. *)
Definition ignoresConfiguredFields (cfg : config) : Prop :=
  forall (field : string) (v : value) (lead1 lead2 : lead),
    In field (ignoreFields cfg) ->
    areLeadsEqual lead1 lead2 = true ->
    areLeadsEqual lead1 (set_prop field v lead2) = true.

(** A configuration that asks for [name] to be ignored. *)
Definition ignoring_name : config := {|
  pollingInterval := pollingInterval CONFIG;
  baseBackoffDelay := baseBackoffDelay CONFIG;
  maxBackoffDelay := maxBackoffDelay CONFIG;
  ignoreFields := ["name"];
  onlyNotifyNewLeads := onlyNotifyNewLeads CONFIG;
  minNewLeadsToNotify := minNewLeadsToNotify CONFIG;
  deduplicationWindow := deduplicationWindow CONFIG
|}.

(** A configuration with a negative base delay. *)
Definition negative_base : config := {|
  pollingInterval := pollingInterval CONFIG;
  baseBackoffDelay := -1000;
  maxBackoffDelay := maxBackoffDelay CONFIG;
  ignoreFields := ignoreFields CONFIG;
  onlyNotifyNewLeads := onlyNotifyNewLeads CONFIG;
  minNewLeadsToNotify := minNewLeadsToNotify CONFIG;
  deduplicationWindow := deduplicationWindow CONFIG
|}.

(** The whole numbers that are doubles: the delays of a configuration are
    such numbers. *)
Definition isDouble (z : Z) : Prop :=
  (Z.abs z < 2 ^ 1024)%Z /\ (Double.round (inject_Z z) == inject_Z z)%Q.

(** The largest double below 1, which bounds every reading of
    [Math.random()]: 1 - 2^-53. *)
Definition belowOne : Q := (1 - (1 # Z.to_pos (2 ^ 53)))%Q.

(** A record without a usable [id] (missing, or falsy as [!item.id] tests it)
    and without any of the seven key fields. *)
Definition lacksKeys (o : object) : Prop :=
  truthy (get o "id") = false
  /\ forall field, In field keyFields -> hasOwnProperty o field = false.

(** The request of a cycle: none when the cookies are missing. *)
Definition request_of (d : detector) : list effect :=
  match cookies d with
  | None => []
  | Some cs => [HttpGet (cookieString cs)]
  end.

(** A fetch that fails for another reason than an expired session: the
    cookies are missing, the request fails, or the status is neither a 2xx
    nor one that asks for a new login. *)
Definition fetchFails (w : world) (d : detector) : Prop :=
  cookies d = None
  \/ leads_response w = GetError
  \/ exists statusCode location body,
       leads_response w = GetResponse statusCode location body
       /\ needsRelogin statusCode location = false
       /\ ~ (200 <= statusCode < 300)%Z.

(** The timers of a run of failed fetches: one request and one timer a
    cycle, the timer of each cycle set to the backoff delay of the retry count
    it has reached. *)
Definition backoffSchedule (cfg : config) (d : detector) (ws : list world)
  : list effect :=
  List.concat
    (mapi_from (S (retryCount d))
       (fun n w =>
          request_of d ++ [SetTimeout (getBackoffDelay cfg n (Math_random w))])
       ws).

(** ** Scenarios

    The snapshots of the end-to-end scenarios of the specification, and a
    detector and a world to run them in. *)

Definition dquote : string := String "034"%char EmptyString.

Definition quoted (s : string) : string :=
  String.append dquote (String.append s dquote).

(** The JSON text of [[{id: l}, ...]]. *)
Definition snapshot_text (ids : list string) : string :=
  String.append "["
    (String.append
       (join ","
          (map (fun l => String.append "{"
                           (String.append (quoted "id")
                              (String.append ":"
                                 (String.append (quoted l) "}")))) ids))
       "]").

(** What [JSON.parse] makes of it, with its objects allocated from [heap]
    on. *)
Definition snapshot_value (heap : nat) (ids : list string) : value :=
  VArr heap
    (mapi_from (S heap) (fun r l => VObj r [("id", VStr l)]) ids).

Definition parse_snapshots (heap : nat) (text : string) : option value :=
  if String.eqb text (snapshot_text ["L1"]) then
    Some (snapshot_value heap ["L1"])
  else if String.eqb text (snapshot_text ["L1"; "L2"]) then
    Some (snapshot_value heap ["L1"; "L2"])
  else None.

Definition scenario_world (heap : nat) (response : get_outcome)
  (delivery : post_outcome) : world := {|
  leads_response := response;
  JSON_parse := parse_snapshots heap;
  Date_now := 1700000000000;
  Date_toISOString := fun _ => "2023-11-14T22:13:20.000Z";
  payload_timestamp := "2023-11-14T22:13:20.001Z";
  webhook_response := delivery;
  Math_random := 1 # 2
|}.

Definition session_cookies : list (string * string) := [("session", "s1")].

(** The detector after login, before its first poll. *)
Definition started : detector := {|
  previousLeadsData := None;
  previousLeadsArray := VNull;
  retryCount := 0;
  loginRetryCount := 0;
  cookies := Some session_cookies;
  isRunning := true;
  lastNotificationTime := 0;
  lastNotifiedLeadIds := []
|}.

(** The detector after a first poll that saw [[{id: "L1"}]]. *)
Definition polled_once : detector :=
  set_baseline (snapshot_text ["L1"]) (snapshot_value 1 ["L1"]) started.

(** A world whose snapshot is the text [[{},null]]. *)
Definition world_with_null : world := {|
  leads_response := GetResponse 200 None "[{},null]";
  JSON_parse := fun _ => Some (VArr 20 [VObj 21 []; VNull]);
  Date_now := 1700000000000;
  Date_toISOString := fun _ => "2023-11-14T22:13:20.000Z";
  payload_timestamp := "2023-11-14T22:13:20.001Z";
  webhook_response := PostResponse 200;
  Math_random := 1 # 2
|}.

(** A world whose snapshot is the empty array. *)
Definition world_with_nothing : world := {|
  leads_response := GetResponse 200 None "[]";
  JSON_parse := fun _ => Some (VArr 20 []);
  Date_now := 1700000000000;
  Date_toISOString := fun _ => "2023-11-14T22:13:20.000Z";
  payload_timestamp := "2023-11-14T22:13:20.001Z";
  webhook_response := PostResponse 200;
  Math_random := 1 # 2
|}.

(** A configuration that notifies from two new leads on. *)
Definition from_two_leads : config := {|
  pollingInterval := pollingInterval CONFIG;
  baseBackoffDelay := baseBackoffDelay CONFIG;
  maxBackoffDelay := maxBackoffDelay CONFIG;
  ignoreFields := ignoreFields CONFIG;
  onlyNotifyNewLeads := onlyNotifyNewLeads CONFIG;
  minNewLeadsToNotify := 2;
  deduplicationWindow := deduplicationWindow CONFIG
|}.

(** A world in which the session has expired. *)
Definition world_unauthorized : world :=
  scenario_world 10 (GetResponse 401 None "") PostError.

(** [scenario_world], with the clock set. *)
Definition scenario_world_at (now : Z) (heap : nat) (response : get_outcome)
  (delivery : post_outcome) : world := {|
  leads_response := response;
  JSON_parse := parse_snapshots heap;
  Date_now := now;
  Date_toISOString := fun _ => "2023-11-14T22:13:20.000Z";
  payload_timestamp := "2023-11-14T22:13:20.001Z";
  webhook_response := delivery;
  Math_random := 1 # 2
|}.

(** * Properties *)

(** ** The model on the scenarios of the specification *)

Example removeDynamicContent_example :
  removeDynamicContent
    "seen 12:34:56 on 1/2/2024, due 2024-01-02; CSRF-token='abc' sessionId='xyz' end"
  = "seen TIMESTAMP on DATE, due DATE; CSRF_TOKEN SESSION_ID end".
Proof. reflexivity. Qed.

Example slashDate_backtracks :
  removeDynamicContent "123/45/678901" = "1DATE01".
Proof. reflexivity. Qed.

Example extractLeadIdentifiers_example :
  extractLeadIdentifiers "a lead-12, lead- and lead-ab_c-lead-9"
  = ["lead-12"; "lead-ab_c"; "lead-9"].
Proof. reflexivity. Qed.

(** An array that starts with an object is mapped element by element, and a
    [null] further on throws; any other array is searched for lead-like
    objects at every depth. *)
Example extractLeadObjects_direct :
  extractLeadObjects
    (VArr 1 [VObj 2 [("id", VStr "a")];
             VObj 3 [("name", VStr "Bob"); ("title", VNum "0");
                     ("location", VArr 4 [VStr "X"; VNull; VNum "3"])];
             VNum "5"])
  = Ok [[("id", VStr "a")];
        [("name", VStr "Bob"); ("title", VNum "0");
         ("location", VArr 4 [VStr "X"; VNull; VNum "3"]);
         ("uniqueKey", VStr "Bob|X,,3")];
        [("uniqueKey", VStr "")]].
Proof. reflexivity. Qed.

Example extractLeadObjects_null_item :
  extractLeadObjects (VArr 1 [VObj 2 [("id", VStr "a")]; VNull])
  = Throw TypeError.
Proof. reflexivity. Qed.

Example extractLeadObjects_nested :
  extractLeadObjects
    (VArr 1 [VNum "1";
             VObj 2 [("id", VStr "a");
                     ("customer", VObj 3 [("name", VStr "n")])];
             VArr 4 [VObj 5 [("title", VStr "t")]; VObj 6 [("price", VNum "9")]];
             VNull])
  = Ok [[("id", VStr "a"); ("customer", VObj 3 [("name", VStr "n")])];
        [("name", VStr "n"); ("uniqueKey", VStr "n")];
        [("title", VStr "t"); ("uniqueKey", VStr "t")]].
Proof. reflexivity. Qed.

(** Scenario 1: baseline [[{id: "L1"}]], current [[{id: "L1"}, {id: "L2"}]]. *)
Example scenario1_batch :
  detectLeadChanges (fun _ => "") (snapshot_text ["L1"])
    (snapshot_text ["L1"; "L2"]) (snapshot_value 1 ["L1"])
    (snapshot_value 10 ["L1"; "L2"])
  = Ok {| hasChanges := true; newLeads := [[("id", VStr "L2")]] |}.
Proof. reflexivity. Qed.

(** Scenario 3: with [minNewLeadsToNotify] at 2 a batch of one lead is not
    delivered, and the baseline advances. *)
Example scenario3_small_batch :
  pollLeadsData
    {| pollingInterval := 1000; baseBackoffDelay := 1000;
       maxBackoffDelay := 30000; ignoreFields := [];
       onlyNotifyNewLeads := true; minNewLeadsToNotify := 2;
       deduplicationWindow := 5000 |}
    (scenario_world 10 (GetResponse 200 None (snapshot_text ["L1"; "L2"]))
       (PostResponse 200))
    polled_once
  = (Ok tt,
     set_baseline (snapshot_text ["L1"; "L2"]) (snapshot_value 10 ["L1"; "L2"])
       polled_once,
     [HttpGet "session=s1"; SetTimeout (inject_Z 1000)]).
Proof. reflexivity. Qed.

(** In the text fallback a new identifier inside a masked token is no change:
    the two signals are ANDed. *)
Example masked_identifier_is_no_change :
  detectLeadChangesFromStrings (fun _ => "now")
    "csrf-token='lead-1'" "csrf-token='lead-2'"
  = {| hasChanges := false;
       newLeads := [[("id", VStr "lead-2"); ("detectedAt", VStr "now")]] |}.
Proof. reflexivity. Qed.

(** ** The deduplicator (C2) *)

Lemma same_value_zero_refl (v : value) : same_value_zero v v = true.
Proof.
  destruct v as [| |b|r|s|r l|r l]; simpl;
    auto using String.eqb_refl, Nat.eqb_refl, Bool.eqb_reflx.
Qed.

Lemma set_has_app (set more : list value) (id : value) :
  set_has (set ++ more) id = set_has set id || set_has more id.
Proof. unfold set_has. apply existsb_app. Qed.

Lemma set_add_keeps (set : list value) (x id : value) :
  set_has set id = true -> set_has (set_add set x) id = true.
Proof.
  intros H. unfold set_add. destruct (set_has set x); [exact H|].
  rewrite set_has_app, H. reflexivity.
Qed.

Lemma set_add_has (set : list value) (x : value) :
  set_has (set_add set x) x = true.
Proof.
  unfold set_add. destruct (set_has set x) eqn:E; [exact E|].
  rewrite set_has_app. simpl. rewrite same_value_zero_refl.
  apply orb_true_iff. right. reflexivity.
Qed.

Lemma fold_set_add_keeps (ids set : list value) (id : value) :
  set_has set id = true -> set_has (fold_left set_add ids set) id = true.
Proof.
  revert set. induction ids as [|x ids IH]; intros set H; simpl; [exact H|].
  apply IH, set_add_keeps, H.
Qed.

Lemma fold_set_add_has (ids set : list value) (id : value) :
  In id ids -> set_has (fold_left set_add ids set) id = true.
Proof.
  revert set. induction ids as [|x ids IH]; intros set H; simpl in *; [easy|].
  destruct H as [->|H].
  - apply fold_set_add_keeps, set_add_has.
  - apply IH, H.
Qed.

Lemma shouldSendNotification_refines (cfg : config) (now : Z)
  (ids : list value) (d : detector) :
  shouldSendNotification cfg now ids d = ShouldNotify cfg now ids d.
Proof.
  unfold shouldSendNotification, ShouldNotify.
  rewrite Z.leb_antisym.
  destruct (now - lastNotificationTime d <? deduplicationWindow cfg)%Z; simpl.
  - destruct (existsb (set_has (lastNotifiedLeadIds d)) ids); reflexivity.
  - reflexivity.
Qed.

(** C2.  [shouldSendNotification] is the specified deduplication algorithm:
    it agrees with [ShouldNotify] on every input; once the window has elapsed
    the set holds the incoming identities only; inside the window one known
    identity suppresses the whole batch and leaves the state alone; every
    allowed call records [now] and every incoming identity.  With the window
    at 5000 ms, a call for ["A"] and a second one 100 ms later answer true and
    false; with the second one 6000 ms later both answer true. *)
Theorem shouldSendNotification_dedup :
  (forall cfg now ids d,
      shouldSendNotification cfg now ids d = ShouldNotify cfg now ids d)
  /\ (forall cfg now ids d,
         (deduplicationWindow cfg <= now - lastNotificationTime d)%Z ->
         shouldSendNotification cfg now ids d
         = (true, set_notified now (fold_left set_add ids []) d))
  /\ (forall cfg now ids d id,
         (now - lastNotificationTime d < deduplicationWindow cfg)%Z ->
         In id ids -> set_has (lastNotifiedLeadIds d) id = true ->
         shouldSendNotification cfg now ids d = (false, d))
  /\ (forall cfg now ids d,
         fst (shouldSendNotification cfg now ids d) = true ->
         let d' := snd (shouldSendNotification cfg now ids d) in
         lastNotificationTime d' = now
         /\ forall id, In id ids -> set_has (lastNotifiedLeadIds d') id = true)
  /\ (forall t,
         let first := shouldSendNotification CONFIG t [VStr "A"] new_detector in
         deduplicationWindow CONFIG = 5000%Z
         /\ fst first = true
         /\ fst (shouldSendNotification CONFIG (t + 100) [VStr "A"] (snd first))
            = false
         /\ fst (shouldSendNotification CONFIG (t + 6000) [VStr "A"] (snd first))
            = true).
Proof.
  split; [exact shouldSendNotification_refines|].
  split.
  { intros cfg now ids d H. unfold shouldSendNotification.
    apply Z.ltb_ge in H. rewrite H. reflexivity. }
  split.
  { intros cfg now ids d id Hw Hin Hknown. unfold shouldSendNotification.
    apply Z.ltb_lt in Hw. rewrite Hw.
    replace (existsb (set_has (lastNotifiedLeadIds d)) ids) with true;
      [reflexivity|].
    symmetry. apply existsb_exists. exists id. split; assumption. }
  split.
  { intros cfg now ids d. unfold shouldSendNotification.
    destruct (now - lastNotificationTime d <? deduplicationWindow cfg)%Z.
    - destruct (existsb (set_has (lastNotifiedLeadIds d)) ids); simpl;
        [discriminate|].
      intros _. split; [reflexivity|]. intros id Hin.
      apply fold_set_add_has, Hin.
    - simpl. intros _. split; [reflexivity|]. intros id Hin.
      apply fold_set_add_has, Hin. }
  intros t. cbv zeta. split; [reflexivity|].
  unfold shouldSendNotification. simpl.
  destruct (t - 0 <? 5000)%Z; simpl;
    replace (t + 100 - t)%Z with 100%Z by lia;
    replace (t + 6000 - t)%Z with 6000%Z by lia; simpl; auto.
Qed.

Lemma shouldSendNotification_dedup_witness :
  let d := snd (shouldSendNotification CONFIG 1700000000000 [VStr "A"] started) in
  shouldSendNotification CONFIG 1700000000100 [VStr "B"; VStr "A"] d
  = (false, d).
Proof.
  intros d.
  apply (proj1 (proj2 (proj2 shouldSendNotification_dedup))
           CONFIG 1700000000100%Z [VStr "B"; VStr "A"] d (VStr "A"));
    [reflexivity | right; left; reflexivity | reflexivity].
Defined.

(** ** Rounding to a double *)

Section Rounding.
Import Double.
Local Open Scope Z_scope.

Lemma nearest_even_le (N D K : Z) :
  0 < D -> N <= K * D -> nearest_even N D <= K.
Proof.
  intros HD HN. unfold nearest_even.
  pose proof (Z.div_mod N D ltac:(lia)) as Hdiv.
  pose proof (Z.mod_pos_bound N D HD) as Hmod.
  assert (Hf : N / D <= K) by nia.
  destruct (Z.eq_dec (N / D) K) as [Heq|Hne].
  - assert (Hr : N mod D = 0) by nia.
    rewrite Hr.
    replace (2 * 0 ?= D) with Lt by (symmetry; apply Z.compare_lt_iff; lia).
    lia.
  - destruct (2 * (N mod D) ?= D); [destruct (Z.even (N / D))| |]; lia.
Qed.

Lemma nearest_even_ge (N D K : Z) :
  0 < D -> K * D <= N -> K <= nearest_even N D.
Proof.
  intros HD HN. unfold nearest_even.
  pose proof (Z.div_mod N D ltac:(lia)) as Hdiv.
  pose proof (Z.mod_pos_bound N D HD) as Hmod.
  assert (Hf : K <= N / D) by nia.
  destruct (2 * (N mod D) ?= D); [destruct (Z.even (N / D))| |]; lia.
Qed.

Lemma nearest_even_below (N D K : Z) :
  0 < D -> 2 * N < (2 * K - 1) * D -> nearest_even N D <= K - 1.
Proof.
  intros HD HN. unfold nearest_even.
  pose proof (Z.div_mod N D ltac:(lia)) as Hdiv.
  pose proof (Z.mod_pos_bound N D HD) as Hmod.
  assert (Hf : N / D <= K - 1) by nia.
  destruct (Z.eq_dec (N / D) (K - 1)) as [Heq|Hne].
  - assert (Hr : 2 * (N mod D) < D) by nia.
    apply Z.compare_lt_iff in Hr. rewrite Hr. lia.
  - destruct (2 * (N mod D) ?= D); [destruct (Z.even (N / D))| |]; lia.
Qed.

Lemma exponent_lt (q : Q) (k : Z) :
  0 <= k -> 0 < Qnum q -> Qnum q < 2 ^ k * Zpos (Qden q) -> exponent q < k.
Proof.
  intros Hk Hn Hq. unfold exponent.
  set (n := Qnum q) in *. set (d := Zpos (Qden q)) in *.
  assert (Hd : 0 < d) by (unfold d; lia).
  destruct (Z.log2_spec n Hn) as [Hn1 Hn2].
  destruct (Z.log2_spec d Hd) as [Hd1 Hd2].
  pose proof (Z.log2_nonneg n) as Ha. pose proof (Z.log2_nonneg d) as Hb.
  set (a := Z.log2 n) in *. set (b := Z.log2 d) in *.
  assert (He0 : a - b <= k).
  { assert (H : 2 ^ a < 2 ^ (k + Z.succ b)).
    { rewrite Z.pow_add_r by lia. nia. }
    apply Z.pow_lt_mono_r_iff in H; lia. }
  destruct (Z.eq_dec (a - b) k) as [Heq|Hne].
  - rewrite Heq. unfold scale. fold n d.
    replace (0 <=? k) with true by (symmetry; apply Z.leb_le; lia).
    replace (n <? d * 2 ^ k) with true by (symmetry; apply Z.ltb_lt; lia).
    lia.
  - destruct (scale (a - b) q) as [N D]. destruct (N <? D); lia.
Qed.

Lemma round_pos_le (q : Q) (x : Z) :
  0 < Qnum q -> (q <= inject_Z x)%Q -> x < 2 ^ 53 ->
  (round_pos q <= inject_Z x)%Q.
Proof.
  intros Hn Hq Hx. unfold Qle in Hq. simpl in Hq.
  assert (Hex : exponent q < 53).
  { apply exponent_lt; [lia|assumption|]. nia. }
  unfold round_pos. set (e := Z.max (exponent q - 52) (-1074)).
  assert (He : e <= 0) by (unfold e; lia).
  unfold scale, unscale. destruct (0 <=? e) eqn:Hs.
  - apply Z.leb_le in Hs. replace e with 0 by lia.
    rewrite <- Zle_Qle. simpl (2 ^ 0). rewrite !Z.mul_1_r.
    apply nearest_even_le; lia.
  - apply Z.leb_gt in Hs.
    assert (HP : 0 < 2 ^ (- e)) by (apply Z.pow_pos_nonneg; lia).
    unfold Qle. simpl. rewrite Z2Pos.id by assumption.
    rewrite Z.mul_1_r.
    apply nearest_even_le; [lia|nia].
Qed.

Lemma round_pos_ge (q : Q) (x : Z) :
  0 < Qnum q -> (inject_Z x <= q)%Q -> Qnum q < 2 ^ 53 * Zpos (Qden q) ->
  (inject_Z x <= round_pos q)%Q.
Proof.
  intros Hn Hq Hx. unfold Qle in Hq. simpl in Hq.
  assert (Hex : exponent q < 53) by (apply exponent_lt; [lia|assumption|lia]).
  unfold round_pos. set (e := Z.max (exponent q - 52) (-1074)).
  assert (He : e <= 0) by (unfold e; lia).
  unfold scale, unscale. destruct (0 <=? e) eqn:Hs.
  - apply Z.leb_le in Hs. replace e with 0 by lia.
    rewrite <- Zle_Qle. simpl (2 ^ 0). rewrite !Z.mul_1_r.
    apply nearest_even_ge; lia.
  - apply Z.leb_gt in Hs.
    assert (HP : 0 < 2 ^ (- e)) by (apply Z.pow_pos_nonneg; lia).
    unfold Qle. simpl. rewrite Z2Pos.id by assumption.
    rewrite Z.mul_1_r.
    apply nearest_even_ge; [lia|nia].
Qed.

Lemma round_pos_below_1000 (q : Q) :
  0 < Qnum q ->
  Qnum q * 2 ^ 53 <= 1000 * (2 ^ 53 - 1) * Zpos (Qden q) ->
  (round_pos q < 1000)%Q.
Proof.
  intros Hn Hq.
  assert (Hex : exponent q < 10).
  { apply exponent_lt; [lia|assumption|].
    change (2 ^ 10) with 1024.
    change (2 ^ 53) with 9007199254740992 in Hq. lia. }
  unfold round_pos. set (e := Z.max (exponent q - 52) (-1074)).
  assert (He : e <= -43) by (unfold e; lia).
  unfold scale, unscale.
  replace (0 <=? e) with false by (symmetry; apply Z.leb_gt; lia).
  assert (HP : 2 ^ 43 <= 2 ^ (- e)) by (apply Z.pow_le_mono_r; lia).
  set (P := 2 ^ (- e)) in *.
  change (2 ^ 43) with 8796093022208 in HP.
  change (2 ^ 53) with 9007199254740992 in Hq.
  assert (Hm : nearest_even (Qnum q * P) (Z.pos (Qden q)) <= 1000 * P - 1).
  { apply nearest_even_below; [lia|]. nia. }
  unfold Qlt. cbn [Qnum Qden]. rewrite Z2Pos.id by lia. lia.
Qed.

Lemma round_pos_nonneg (q : Q) : 0 < Qnum q -> (0 <= round_pos q)%Q.
Proof.
  intros Hn. unfold round_pos.
  set (e := Z.max (exponent q - 52) (-1074)).
  unfold scale, unscale. destruct (0 <=? e) eqn:Hs.
  - apply Z.leb_le in Hs.
    assert (HP : 0 < 2 ^ e) by (apply Z.pow_pos_nonneg; lia).
    change 0%Q with (inject_Z 0). rewrite <- Zle_Qle.
    apply Z.mul_nonneg_nonneg; [|lia].
    apply (nearest_even_ge _ _ 0); lia.
  - apply Z.leb_gt in Hs.
    assert (HP : 0 < 2 ^ (- e)) by (apply Z.pow_pos_nonneg; lia).
    unfold Qle. simpl. rewrite Z.mul_1_r.
    apply (nearest_even_ge _ _ 0); nia.
Qed.

(** Rounding leaves a whole number below 2^53 as it is. *)
Lemma round_integer (q : Q) (z : Z) :
  (q == inject_Z z)%Q -> Z.abs z < 2 ^ 53 -> (round q == inject_Z z)%Q.
Proof.
  intros Hq Hz. unfold round.
  assert (Hred : (Qred q == inject_Z z)%Q)
    by (rewrite Qred_correct; exact Hq).
  set (q' := Qred q) in *.
  assert (Hnd : Qnum q' * 1 = z * Zpos (Qden q')) by exact Hred.
  destruct (Qnum q') as [|p|p] eqn:Hnum.
  - unfold Qeq. cbn [Qnum Qden inject_Z]. lia.
  - assert (Hpos : 0 < Qnum q') by (rewrite Hnum; lia).
    assert (Hzq : 0 < z) by nia.
    apply Qle_antisym.
    + apply round_pos_le; [assumption|rewrite Hred; apply Qle_refl|lia].
    + apply round_pos_ge; [assumption|rewrite Hred; apply Qle_refl|].
      rewrite Hnum. nia.
  - assert (Hzq : z < 0) by nia.
    assert (Hopp : (- q' == inject_Z (- z))%Q).
    { rewrite Hred. unfold Qeq. cbn [Qnum Qden inject_Z Qopp]. lia. }
    assert (Hpos : 0 < Qnum (- q')%Q).
    { cbn [Qnum Qopp]. rewrite Hnum. lia. }
    assert (H : (round_pos (- q') == inject_Z (- z))%Q).
    { apply Qle_antisym.
      + apply round_pos_le; [assumption|rewrite Hopp; apply Qle_refl|lia].
      + apply round_pos_ge; [assumption|rewrite Hopp; apply Qle_refl|].
        cbn [Qnum Qden Qopp]. rewrite Hnum. nia. }
    rewrite H. unfold Qeq. cbn [Qnum Qden inject_Z Qopp]. lia.
Qed.

(** Rounding does not cross a whole number below 2^53. *)
Lemma round_between (q : Q) (lo hi : Z) :
  0 < lo -> (inject_Z lo <= q)%Q -> (q <= inject_Z hi)%Q -> hi < 2 ^ 53 ->
  (inject_Z lo <= round q)%Q /\ (round q <= inject_Z hi)%Q.
Proof.
  intros Hlo Hge Hle Hhi. unfold round.
  pose proof (Qred_correct q) as Hred.
  rewrite <- Hred in Hge, Hle. set (q' := Qred q) in *.
  assert (Hge' : lo * Zpos (Qden q') <= Qnum q' * 1) by exact Hge.
  assert (Hle' : Qnum q' * Zpos 1 <= hi * Zpos (Qden q')) by exact Hle.
  assert (Hpos : 0 < Qnum q') by nia.
  destruct (Qnum q') as [|p|p] eqn:Hnum; try lia.
  rewrite <- Hnum in *. split.
  - apply round_pos_ge; [assumption|assumption|nia].
  - apply round_pos_le; assumption.
Qed.

(** The jitter: a reading of [Math.random] is a double below 1, so at most
    1 - 2^-53; its product with 1000 rounds to a double below 1000. *)
Lemma round_jitter (random : Q) :
  (0 <= random)%Q -> (random <= 1 - (1 # Z.to_pos (2 ^ 53)))%Q ->
  (0 <= round (random * 1000))%Q /\ (round (random * 1000) < 1000)%Q.
Proof.
  intros H0 H1. unfold round.
  pose proof (Qred_correct (random * 1000)) as Hred.
  set (q' := Qred (random * 1000)) in *.
  assert (Hq0 : (0 <= q')%Q) by (rewrite Hred; lra).
  assert (Hq1 : (q' <= 1000 - (1000 # Z.to_pos (2 ^ 53)))%Q).
  { rewrite Hred.
    assert (E : (1000 - (1000 # Z.to_pos (2 ^ 53))
                 == (1 - (1 # Z.to_pos (2 ^ 53))) * 1000)%Q)
      by (vm_compute; reflexivity).
    rewrite E. apply Qmult_le_compat_r; [assumption|lra]. }
  assert (Hq0' : 0 * Zpos (Qden q') <= Qnum q' * 1) by exact Hq0.
  assert (Hq1' : Qnum q' * 9007199254740992
                 <= 9007199254740991000 * Zpos (Qden q')) by exact Hq1.
  destruct (Qnum q') as [|p|p] eqn:Hnum.
  - split; lra.
  - rewrite <- Hnum in *.
    assert (Hpos : 0 < Qnum q') by (rewrite Hnum; lia).
    split; [apply round_pos_nonneg; assumption|].
    apply round_pos_below_1000; [assumption|].
    change (2 ^ 53) with 9007199254740992. lia.
  - lia.
Qed.

Lemma exponent_integer (z : Z) : 0 < z -> exponent (inject_Z z) = Z.log2 z.
Proof.
  intros Hz. unfold exponent, scale. cbn [Qnum Qden inject_Z].
  change (Z.log2 1) with 0. rewrite Z.sub_0_r.
  pose proof (Z.log2_nonneg z). destruct (Z.log2_spec z Hz) as [H1 H2].
  replace (0 <=? Z.log2 z) with true by (symmetry; apply Z.leb_le; lia).
  replace (z <? 1 * 2 ^ Z.log2 z) with false
    by (symmetry; apply Z.ltb_ge; lia).
  reflexivity.
Qed.

Lemma nearest_even_double (N D : Z) :
  0 < D -> nearest_even (2 * N) (2 * D) = nearest_even N D.
Proof.
  intros HD. unfold nearest_even.
  rewrite Z.div_mul_cancel_l, Z.mul_mod_distr_l by lia.
  replace (2 * (2 * (N mod D)) ?= 2 * D) with (2 * (N mod D) ?= D);
    [reflexivity|].
  destruct (Z.compare_spec (2 * (N mod D)) D); symmetry;
    [apply Z.compare_eq_iff|apply Z.compare_lt_iff|apply Z.compare_gt_iff];
    lia.
Qed.

(** Doubling a whole number doubles the double it rounds to. *)
Lemma round_pos_double (z : Z) :
  0 < z -> 52 <= Z.log2 z ->
  (round_pos (inject_Z (2 * z)) == 2 * round_pos (inject_Z z))%Q.
Proof.
  intros Hz Hlog. unfold round_pos.
  rewrite !exponent_integer, Z.log2_double by lia.
  replace (Z.max (Z.succ (Z.log2 z) - 52) (-1074))
    with (Z.succ (Z.log2 z - 52)) by lia.
  replace (Z.max (Z.log2 z - 52) (-1074)) with (Z.log2 z - 52) by lia.
  set (e := Z.log2 z - 52). assert (He : 0 <= e) by (unfold e; lia).
  unfold scale, unscale. cbn [Qnum Qden inject_Z].
  replace (0 <=? Z.succ e) with true by (symmetry; apply Z.leb_le; lia).
  replace (0 <=? e) with true by (symmetry; apply Z.leb_le; lia).
  rewrite Z.pow_succ_r by exact He.
  assert (HD : 0 < 2 ^ e) by (apply Z.pow_pos_nonneg; lia).
  replace (1 * (2 * 2 ^ e)) with (2 * (1 * 2 ^ e)) by ring.
  rewrite nearest_even_double by lia.
  unfold Qeq. cbn [Qnum Qden inject_Z Qmult].
  change (Z.pos (1 * 1)) with 1. ring.
Qed.

Lemma Qred_integer (z : Z) : Qred (inject_Z z) = inject_Z z.
Proof. apply Qcanon.Qred_identity. cbn [Qnum Qden inject_Z]. apply Z.gcd_1_r. Qed.

(** A whole number that rounds to itself does so doubled. *)
Lemma round_double (z : Z) :
  0 < z -> (round (inject_Z z) == inject_Z z)%Q ->
  (round (inject_Z (2 * z)) == inject_Z (2 * z))%Q.
Proof.
  intros Hz H. destruct (Z_lt_le_dec (Z.log2 z) 52) as [Hlt|Hge].
  - apply round_integer; [reflexivity|].
    apply Z.log2_lt_pow2 in Hlt; [|exact Hz].
    change (2 ^ 52) with 4503599627370496 in Hlt.
    change (2 ^ 53) with 9007199254740992. lia.
  - unfold round in *. rewrite Qred_integer in *.
    destruct z as [|p|p]; try lia.
    change (Qnum (inject_Z (2 * Z.pos p))) with (Z.pos p~0).
    cbn [Qnum inject_Z] in H. cbv iota in *.
    rewrite round_pos_double, H by lia.
    rewrite inject_Z_mult. reflexivity.
Qed.

Lemma round_pow2 (z : Z) (n : nat) :
  0 < z -> (round (inject_Z z) == inject_Z z)%Q ->
  (round (inject_Z (z * 2 ^ Z.of_nat n)) == inject_Z (z * 2 ^ Z.of_nat n))%Q.
Proof.
  intros Hz H. induction n as [|n IH].
  - rewrite Z.mul_1_r. exact H.
  - rewrite Nat2Z.inj_succ, Z.pow_succ_r by lia.
    replace (z * (2 * 2 ^ Z.of_nat n)) with (2 * (z * 2 ^ Z.of_nat n)) by ring.
    apply round_double; [|exact IH].
    assert (0 < 2 ^ Z.of_nat n) by (apply Z.pow_pos_nonneg; lia). nia.
Qed.

(** Equal rationals round to the same double. *)
Lemma round_compat (p q : Q) : (p == q)%Q -> round p = round q.
Proof. intros H. unfold round. rewrite (Qred_complete p q H). reflexivity. Qed.

End Rounding.

(** ** Backoff (C7) *)

Lemma pow2_succ (n : nat) : (2 ^ Z.of_nat (S n) = 2 * 2 ^ Z.of_nat n)%Z.
Proof. rewrite Nat2Z.inj_succ, Z.pow_succ_r by lia. reflexivity. Qed.

Lemma pow2_pos (n : nat) : (0 < 2 ^ Z.of_nat n)%Z.
Proof. apply Z.pow_pos_nonneg; lia. Qed.

Lemma pow2_mono (n m : nat) :
  (n <= m)%nat -> (2 ^ Z.of_nat n <= 2 ^ Z.of_nat m)%Z.
Proof. intros H. apply Z.pow_le_mono_r; lia. Qed.

Lemma jitter_zero : jitter 0 = 0%Q.
Proof. reflexivity. Qed.

Lemma getBackoffDelay_no_jitter (cfg : config) (n : nat) :
  (0 < baseBackoffDelay cfg)%Z ->
  isDouble (baseBackoffDelay cfg) -> isDouble (maxBackoffDelay cfg) ->
  (getBackoffDelay cfg n 0
   == inject_Z (Z.min (baseBackoffDelay cfg * 2 ^ Z.of_nat n)
                      (maxBackoffDelay cfg)))%Q.
Proof.
  intros Hpos [_ Hbase] [_ Hmax]. unfold getBackoffDelay. rewrite jitter_zero.
  set (delay := Z.min (baseBackoffDelay cfg * 2 ^ Z.of_nat n)
                      (maxBackoffDelay cfg)).
  assert (Hdelay : (Double.round (inject_Z delay) == inject_Z delay)%Q).
  { subst delay.
    destruct (Z.min_spec (baseBackoffDelay cfg * 2 ^ Z.of_nat n)
                         (maxBackoffDelay cfg)) as [[_ ->]|[_ ->]];
      [apply round_pow2|]; assumption. }
  rewrite (round_compat (inject_Z delay + 0) (inject_Z delay)) by ring.
  exact Hdelay.
Qed.

(** C7 as it is stated, at an input where it fails: nothing keeps the base
    delay of a configuration positive, and with a negative one the delay
    before the jitter decreases from one retry count to the next. *)
Lemma negative_base_decreases :
  (baseBackoffDelay negative_base < 0)%Z
  /\ (getBackoffDelay negative_base 0 0 == inject_Z (-1000))%Q
  /\ (getBackoffDelay negative_base 1 0 == inject_Z (-2000))%Q
  /\ (getBackoffDelay negative_base 1 0 < getBackoffDelay negative_base 0 0)%Q.
Proof. repeat split. Qed.

(** C7, for a configuration whose base delay is positive (its delays being
    numbers of the program, doubles).  Without the jitter ([Math.random()]
    read as 0) the delay is
    [min (baseBackoffDelay * 2^retryCount) maxBackoffDelay]; it does not
    decrease from one retry count to the next; from the first retry count
    whose doubled base reaches [maxBackoffDelay] on it is the cap exactly.
    The jitter, for a reading of [Math.random()] (a double in [0, 1), so at
    most [belowOne]), lies in [0, 1000); the delay returned is the delay
    without the jitter plus the jitter, rounded to a double. *)
Theorem getBackoffDelay_monotone (cfg : config)
  (Hpos : (0 < baseBackoffDelay cfg)%Z)
  (Hbase : isDouble (baseBackoffDelay cfg))
  (Hmax : isDouble (maxBackoffDelay cfg)) :
  (forall n,
      (getBackoffDelay cfg n 0
       == inject_Z (Z.min (baseBackoffDelay cfg * 2 ^ Z.of_nat n)
                          (maxBackoffDelay cfg)))%Q)
  /\ (forall n, (getBackoffDelay cfg n 0 <= getBackoffDelay cfg (S n) 0)%Q)
  /\ (forall n m,
         (maxBackoffDelay cfg <= baseBackoffDelay cfg * 2 ^ Z.of_nat n)%Z ->
         (n <= m)%nat ->
         (getBackoffDelay cfg m 0 == inject_Z (maxBackoffDelay cfg))%Q)
  /\ (forall random,
         (0 <= random)%Q -> (random <= belowOne)%Q ->
         (0 <= jitter random)%Q /\ (jitter random < 1000)%Q)
  /\ (forall n random,
         getBackoffDelay cfg n random
         = Double.round (getBackoffDelay cfg n 0 + jitter random)).
Proof.
  split; [intros n; apply getBackoffDelay_no_jitter; assumption|].
  split.
  { intros n. rewrite !getBackoffDelay_no_jitter by assumption.
    rewrite <- Zle_Qle.
    rewrite pow2_succ. pose proof (pow2_pos n). nia. }
  split.
  { intros n m Hcap Hnm. rewrite getBackoffDelay_no_jitter by assumption.
    apply inject_Z_injective. apply Z.min_r.
    pose proof (pow2_mono n m Hnm). pose proof (pow2_pos n). nia. }
  split.
  { intros random H0 H1. apply round_jitter; assumption. }
  intros n random.
  unfold getBackoffDelay at 1. apply round_compat.
  rewrite getBackoffDelay_no_jitter by assumption. reflexivity.
Qed.

Lemma getBackoffDelay_monotone_witness :
  (0 < baseBackoffDelay CONFIG)%Z
  /\ isDouble (baseBackoffDelay CONFIG)
  /\ isDouble (maxBackoffDelay CONFIG)
  /\ (getBackoffDelay CONFIG 4 0 <= getBackoffDelay CONFIG 5 0)%Q
  /\ (getBackoffDelay CONFIG 7 0 == inject_Z 30000)%Q
  /\ (jitter (1 # 2) < 1000)%Q.
Proof.
  assert (Hpos : (0 < baseBackoffDelay CONFIG)%Z) by reflexivity.
  assert (Hbase : isDouble (baseBackoffDelay CONFIG))
    by (split; reflexivity).
  assert (Hmax : isDouble (maxBackoffDelay CONFIG))
    by (split; reflexivity).
  split; [exact Hpos|]. split; [exact Hbase|]. split; [exact Hmax|].
  destruct (getBackoffDelay_monotone CONFIG Hpos Hbase Hmax)
    as (_ & Hmono & Hcap & Hjitter & _).
  split; [apply Hmono|].
  split; [apply (Hcap 5%nat 7%nat); [vm_compute; discriminate | lia]|].
  apply (Hjitter (1 # 2)%Q); vm_compute; discriminate.
Defined.

(** ** The poll cycle *)

Ltac run_step :=
  cbv beta iota zeta delta
    [pollLeadsData_try pollLeadsData_catch fetchLeadsData handleRelogin
     sendWebhookNotification bind ret throw try_catch read write emit lift].

Lemma pollLeadsData_running (cfg : config) (w : world) (d : detector) :
  isRunning d = true ->
  pollLeadsData cfg w d
  = try_catch (pollLeadsData_try cfg w) (pollLeadsData_catch cfg w) d.
Proof.
  intros Hrun. unfold pollLeadsData, bind, read. rewrite Hrun. simpl.
  destruct (try_catch _ _ d) as [[r d'] e]. reflexivity.
Qed.

(** A 2xx response that does not point to the login page is a fetch that
    succeeds with the body it carries. *)
Lemma fetchLeadsData_success (w : world) (d : detector)
  (cs : list (string * string)) (statusCode : Z) (location : option string)
  (body : string) :
  cookies d = Some cs ->
  leads_response w = GetResponse statusCode location body ->
  (200 <= statusCode < 300)%Z ->
  needsRelogin statusCode location = false ->
  fetchLeadsData w d = (Ok (Some body), d, [HttpGet (cookieString cs)]).
Proof.
  intros Hcookies Hresp H2xx Hlogin. run_step.
  rewrite Hcookies, Hresp, Hlogin.
  replace (statusCode <? 200)%Z with false by (symmetry; apply Z.ltb_ge; lia).
  replace (300 <=? statusCode)%Z with false by (symmetry; apply Z.leb_gt; lia).
  reflexivity.
Qed.

(** C9.  A response with a 2xx status and an empty body is taken for a failed
    fetch: the cycle counts a retry, sets the timer to the backoff delay and
    leaves the baseline and the notification state as they were. *)
Theorem empty_body_is_failure (cfg : config) (w : world) (d : detector)
  (cs : list (string * string)) (statusCode : Z) (location : option string)
  (Hrun : isRunning d = true)
  (Hcookies : cookies d = Some cs)
  (Hresp : leads_response w = GetResponse statusCode location "")
  (H2xx : (200 <= statusCode < 300)%Z)
  (Hlogin : needsRelogin statusCode location = false) :
  let '(r, d', effects) := pollLeadsData cfg w d in
  r = Ok tt
  /\ retryCount d' = S (retryCount d)
  /\ effects
     = [HttpGet (cookieString cs);
        SetTimeout (getBackoffDelay cfg (S (retryCount d)) (Math_random w))]
  /\ previousLeadsData d' = previousLeadsData d
  /\ previousLeadsArray d' = previousLeadsArray d
  /\ lastNotificationTime d' = lastNotificationTime d
  /\ lastNotifiedLeadIds d' = lastNotifiedLeadIds d.
Proof.
  rewrite (pollLeadsData_running cfg w d Hrun).
  unfold try_catch, pollLeadsData_try, bind at 1.
  rewrite (fetchLeadsData_success w d cs statusCode location "" Hcookies Hresp
             H2xx Hlogin).
  run_step. simpl. repeat split; reflexivity.
Qed.

Section FetchSucceeds.

Variables (cfg : config) (w : world) (d : detector).
Variables (cs : list (string * string)) (statusCode : Z).
Variables (location : option string) (leadsData : string).

Hypothesis Hrun : isRunning d = true.
Hypothesis Hcookies : cookies d = Some cs.
Hypothesis Hresp :
  leads_response w = GetResponse statusCode location leadsData.
Hypothesis H2xx : (200 <= statusCode < 300)%Z.
Hypothesis Hlogin : needsRelogin statusCode location = false.
Hypothesis Hbody : leadsData <> "".

(** [currentLeadsArray] of the cycle. *)
Let currentLeadsArray : value :=
  match JSON_parse w leadsData with
  | Some parsed => parsed
  | None => VNull
  end.

(** C6.  On the first poll, when no baseline is stored yet, the cycle
    compares nothing and notifies nobody: it posts nothing, leaves the
    notification state alone, stores the snapshot it fetched as the baseline
    and sets the timer to the polling interval. *)
Theorem first_poll_stores_snapshot
  (Hfirst : previousLeadsData d = None) :
  let '(r, d', effects) := pollLeadsData cfg w d in
  r = Ok tt
  /\ previousLeadsData d' = Some leadsData
  /\ previousLeadsArray d' = currentLeadsArray
  /\ effects = [HttpGet (cookieString cs);
                SetTimeout (inject_Z (pollingInterval cfg))]
  /\ (forall data, ~ In (HttpPost data) effects)
  /\ lastNotificationTime d' = lastNotificationTime d
  /\ lastNotifiedLeadIds d' = lastNotifiedLeadIds d.
Proof.
  rewrite (pollLeadsData_running cfg w d Hrun).
  unfold try_catch, pollLeadsData_try, bind at 1.
  rewrite (fetchLeadsData_success w d cs statusCode location leadsData
             Hcookies Hresp H2xx Hlogin).
  destruct leadsData as [|c rest] eqn:E; [contradiction|].
  run_step. rewrite Hfirst. simpl.
  repeat split; try reflexivity.
  intros data [H|[H|[]]]; discriminate.
Qed.

Variables (previousData : string) (found : changes).

Hypothesis Hprev : previousLeadsData d = Some previousData.
Hypothesis Hdiff :
  detectLeadChanges (Date_toISOString w) previousData leadsData
    (previousLeadsArray d) currentLeadsArray
  = Ok found.
Hypothesis Hchanges : hasChanges found = true.
Hypothesis Hbatch :
  (minNewLeadsToNotify cfg <= Z.of_nat (List.length (newLeads found)))%Z.

(** The notification the cycle sends for the batch. *)
Let notification : payload :=
  {| event := "new_leads_detected";
     method := "polling";
     leads := newLeads found;
     timestamp := payload_timestamp w |}.

Let leadIds : list value := map leadIdentity (newLeads found).

Ltac enter_batch :=
  rewrite (pollLeadsData_running cfg w d Hrun);
  unfold try_catch, pollLeadsData_try, bind at 1;
  rewrite (fetchLeadsData_success w d cs statusCode location leadsData
             Hcookies Hresp H2xx Hlogin);
  subst currentLeadsArray notification leadIds;
  destruct leadsData as [|c rest] eqn:E; [contradiction|];
  apply Z.leb_le in Hbatch;
  cbv beta iota zeta delta [bind read lift ret write emit];
  rewrite Hprev, Hdiff, Hchanges, Hbatch; cbv beta iota delta [andb].

(** When the deduplicator suppresses the batch, or the webhook answers with
    any status at all, the cycle replaces the baseline with the snapshot it
    fetched and resets the retry count. *)
Lemma batch_advances_baseline :
  (fst (shouldSendNotification cfg (Date_now w) leadIds d) = false
   \/ exists status, webhook_response w = PostResponse status) ->
  let '(r, d', effects) := pollLeadsData cfg w d in
  r = Ok tt
  /\ previousLeadsData d' = Some leadsData
  /\ previousLeadsArray d' = currentLeadsArray
  /\ retryCount d' = 0
  /\ In (SetTimeout (inject_Z (pollingInterval cfg))) effects.
Proof.
  intros Hcase. revert Hcase. enter_batch.
  destruct (shouldSendNotification cfg (Date_now w)
              (map leadIdentity (newLeads found)) d) as [b d1].
  destruct b; simpl.
  - intros [Hno|[status Hpost]]; [discriminate|].
    unfold sendWebhookNotification, bind, emit, ret. rewrite Hpost. simpl.
    repeat split; auto.
  - intros _. repeat split; auto.
Qed.

(** C1 at the input where it fails.  When the deduplicator allows the batch
    and the request to the webhook fails, the rejection of
    [sendWebhookNotification] ends the [try] block before the baseline is
    replaced: the cycle has posted once and has recorded the batch as
    notified, but it keeps the old baseline, counts a retry and sets the
    timer to the backoff delay. *)
Theorem delivery_error_keeps_baseline
  (Hallowed : fst (shouldSendNotification cfg (Date_now w) leadIds d) = true)
  (Hpost : webhook_response w = PostError) :
  let '(r, d', effects) := pollLeadsData cfg w d in
  r = Ok tt
  /\ previousLeadsData d' = Some previousData
  /\ previousLeadsArray d' = previousLeadsArray d
  /\ retryCount d' = S (retryCount d)
  /\ lastNotificationTime d' = Date_now w
  /\ effects
     = [HttpGet (cookieString cs);
        HttpPost notification;
        SetTimeout (getBackoffDelay cfg (S (retryCount d)) (Math_random w))].
Proof.
  revert Hallowed. enter_batch.
  unfold shouldSendNotification.
  destruct (Date_now w - lastNotificationTime d <? deduplicationWindow cfg)%Z;
    [destruct (existsb _ _); simpl; [discriminate|] | simpl];
    intros _; unfold sendWebhookNotification, bind, emit, throw;
    rewrite Hpost; simpl; rewrite Hprev; repeat split; reflexivity.
Qed.

End FetchSucceeds.

Lemma includes_nonempty (l sub : string) :
  includes l sub = true -> sub <> "" -> String.eqb l "" = false.
Proof.
  intros H Hsub. destruct l; [|reflexivity].
  destruct sub; [contradiction|]. simpl in H. discriminate.
Qed.

(** C8.  When the response has status 401 or 403, or a [location] header that
    points to the login page, the cycle invokes [handleRelogin] once, after
    the request and before it sets the timer for the next fetch, and counts
    one retry. *)
Theorem auth_failure_relogin_once (cfg : config) (w : world) (d : detector)
  (cs : list (string * string)) (statusCode : Z) (location : option string)
  (body : string)
  (Hrun : isRunning d = true)
  (Hcookies : cookies d = Some cs)
  (Hresp : leads_response w = GetResponse statusCode location body)
  (Hauth : statusCode = 401%Z \/ statusCode = 403%Z
           \/ exists l, location = Some l /\ includes l "/login" = true) :
  let '(r, d', effects) := pollLeadsData cfg w d in
  r = Ok tt
  /\ effects
     = [HttpGet (cookieString cs);
        Relogin;
        SetTimeout (getBackoffDelay cfg (S (retryCount d)) (Math_random w))]
  /\ retryCount d' = S (retryCount d)
  /\ loginRetryCount d' = S (loginRetryCount d)
  /\ previousLeadsData d' = previousLeadsData d
  /\ previousLeadsArray d' = previousLeadsArray d.
Proof.
  assert (Hneeds : needsRelogin statusCode location = true).
  { unfold needsRelogin. destruct Hauth as [->|[->|(l & -> & Hl)]].
    - reflexivity.
    - reflexivity.
    - rewrite Hl, (includes_nonempty l "/login" Hl) by discriminate.
      apply orb_true_r. }
  rewrite (pollLeadsData_running cfg w d Hrun).
  run_step. rewrite Hcookies, Hresp, Hneeds. simpl.
  repeat split; reflexivity.
Qed.

Lemma auth_failure_relogin_once_witness :
  let '(r, d', effects) :=
    pollLeadsData CONFIG (scenario_world 10 (GetResponse 401 None "") PostError)
      polled_once in
  r = Ok tt
  /\ effects
     = [HttpGet "session=s1"; Relogin;
        SetTimeout (getBackoffDelay CONFIG 1 (1 # 2))]
  /\ retryCount d' = 1
  /\ loginRetryCount d' = 1
  /\ previousLeadsData d' = Some (snapshot_text ["L1"])
  /\ previousLeadsArray d' = snapshot_value 1 ["L1"].
Proof.
  apply (auth_failure_relogin_once CONFIG
           (scenario_world 10 (GetResponse 401 None "") PostError)
           polled_once session_cookies 401 None "");
    [reflexivity | reflexivity | reflexivity | left; reflexivity].
Defined.

Lemma empty_body_is_failure_witness :
  let '(r, d', effects) :=
    pollLeadsData CONFIG (scenario_world 10 (GetResponse 200 None "") PostError)
      polled_once in
  r = Ok tt
  /\ retryCount d' = 1
  /\ effects
     = [HttpGet "session=s1"; SetTimeout (getBackoffDelay CONFIG 1 (1 # 2))]
  /\ previousLeadsData d' = Some (snapshot_text ["L1"])
  /\ previousLeadsArray d' = snapshot_value 1 ["L1"]
  /\ lastNotificationTime d' = 0%Z
  /\ lastNotifiedLeadIds d' = [].
Proof.
  apply (empty_body_is_failure CONFIG
           (scenario_world 10 (GetResponse 200 None "") PostError)
           polled_once session_cookies 200 None);
    [reflexivity | reflexivity | reflexivity | lia | reflexivity].
Defined.

Lemma first_poll_stores_snapshot_witness :
  let '(r, d', effects) :=
    pollLeadsData CONFIG
      (scenario_world 1 (GetResponse 200 None (snapshot_text ["L1"])) PostError)
      started in
  r = Ok tt
  /\ previousLeadsData d' = Some (snapshot_text ["L1"])
  /\ previousLeadsArray d' = snapshot_value 1 ["L1"]
  /\ effects = [HttpGet "session=s1"; SetTimeout (inject_Z 1000)]
  /\ (forall data, ~ In (HttpPost data) effects)
  /\ lastNotificationTime d' = 0%Z
  /\ lastNotifiedLeadIds d' = [].
Proof.
  apply (first_poll_stores_snapshot CONFIG
           (scenario_world 1 (GetResponse 200 None (snapshot_text ["L1"]))
              PostError)
           started session_cookies 200 None (snapshot_text ["L1"]));
    [reflexivity | reflexivity | reflexivity | lia | reflexivity
    | discriminate | reflexivity].
Defined.

Lemma delivery_error_keeps_baseline_witness :
  let w := scenario_world 10
             (GetResponse 200 None (snapshot_text ["L1"; "L2"])) PostError in
  let '(r, d', effects) := pollLeadsData CONFIG w polled_once in
  r = Ok tt
  /\ previousLeadsData d' = Some (snapshot_text ["L1"])
  /\ previousLeadsArray d' = snapshot_value 1 ["L1"]
  /\ retryCount d' = 1
  /\ lastNotificationTime d' = 1700000000000%Z
  /\ effects
     = [HttpGet "session=s1";
        HttpPost {| event := "new_leads_detected";
                    method := "polling";
                    leads := [[("id", VStr "L2")]];
                    timestamp := "2023-11-14T22:13:20.001Z" |};
        SetTimeout (getBackoffDelay CONFIG 1 (1 # 2))].
Proof.
  apply (delivery_error_keeps_baseline CONFIG
           (scenario_world 10
              (GetResponse 200 None (snapshot_text ["L1"; "L2"])) PostError)
           polled_once session_cookies 200 None (snapshot_text ["L1"; "L2"])
           eq_refl eq_refl eq_refl
           ltac:(lia) eq_refl
           ltac:(discriminate)
           (snapshot_text ["L1"]) (mkChanges true [[("id", VStr "L2")]])
           eq_refl eq_refl eq_refl ltac:(simpl; lia) eq_refl eq_refl).
Defined.

(** ** Delivery (C3) *)

(** C3 on the code.  A call posts once.  When the webhook answers, the call
    resolves to whether the status is a 2xx; when the request fails, the
    promise is rejected: the call raises instead of resolving to false. *)
Theorem sendWebhookNotification_outcomes (w : world) (data : payload)
  (d : detector) :
  match webhook_response w with
  | PostResponse statusCode =>
      exists ok : bool,
        sendWebhookNotification w data d = (Ok ok, d, [HttpPost data])
        /\ (ok = true <-> (200 <= statusCode < 300)%Z)
  | PostError =>
      sendWebhookNotification w data d
      = (Throw TransportError, d, [HttpPost data])
  end.
Proof.
  unfold sendWebhookNotification, bind, emit, ret, throw.
  destruct (webhook_response w) as [statusCode|]; [|reflexivity].
  eexists. split; [reflexivity|].
  rewrite andb_true_iff, Z.leb_le, Z.ltb_lt. reflexivity.
Qed.

(** ** Repeating the diff (C4) *)

Lemma mapi_from_ext {A B : Type} (f g : nat -> A -> B) (l : list A) :
  forall i, (forall j x, f j x = g j x) -> mapi_from i f l = mapi_from i g l.
Proof.
  induction l as [|x l IH]; intros i H; simpl; [reflexivity|].
  rewrite H, (IH (S i) H). reflexivity.
Qed.

Lemma mapi_from_length {A B : Type} (f : nat -> A -> B) (l : list A) :
  forall i, List.length (mapi_from i f l) = List.length l.
Proof.
  induction l as [|x l IH]; intros i; simpl; [reflexivity|].
  rewrite IH. reflexivity.
Qed.

Lemma stamped_ids (clock : nat -> string) (ids : list string) :
  forall i,
    map (fun l : lead => get l "id")
        (mapi_from i (fun j id => [("id", VStr id);
                                   ("detectedAt", VStr (clock j))]) ids)
    = map VStr ids.
Proof.
  induction ids as [|x ids IH]; intros i; simpl; [reflexivity|].
  rewrite IH. reflexivity.
Qed.

(** C4 as stated fails for the text fallback: two runs on the same pair of
    texts that read the clock at different times stamp their leads
    differently. *)
Lemma text_diff_depends_on_clock :
  detectLeadChangesFromStrings (fun _ => "2023-11-14T22:13:20.000Z")
    "lead-1" "lead-1 lead-2"
  <> detectLeadChangesFromStrings (fun _ => "2023-11-14T22:13:21.000Z")
       "lead-1" "lead-1 lead-2".
Proof. vm_compute. discriminate. Qed.

(** C4, amended.  On two arrays the diff is the array diff, whatever the
    clock reads and whatever the raw texts are: two runs on the same pair of
    arrays return the same result.  On two texts, two runs return the same
    [hasChanges] and leads with the same identifiers in the same order; the
    leads differ in their [detectedAt] stamps only, and not at all when the
    clock reads the same. *)
Theorem diff_repeatable :
  (forall clock1 clock2 previousData1 previousData2 currentData1 currentData2
          r1 items1 r2 items2,
      detectLeadChanges clock1 previousData1 currentData1
        (VArr r1 items1) (VArr r2 items2)
      = detectLeadChangesFromArrays (VArr r1 items1) (VArr r2 items2)
      /\ detectLeadChanges clock1 previousData1 currentData1
           (VArr r1 items1) (VArr r2 items2)
         = detectLeadChanges clock2 previousData2 currentData2
             (VArr r1 items1) (VArr r2 items2))
  /\ (forall clock1 clock2 previousData currentData,
         let run1 := detectLeadChangesFromStrings clock1 previousData currentData in
         let run2 := detectLeadChangesFromStrings clock2 previousData currentData in
         hasChanges run1 = hasChanges run2
         /\ map (fun l : lead => get l "id") (newLeads run1)
            = map VStr (newLeadIds previousData currentData)
         /\ map (fun l : lead => get l "id") (newLeads run2)
            = map VStr (newLeadIds previousData currentData)
         /\ ((forall i, clock1 i = clock2 i) -> run1 = run2)).
Proof.
  split.
  - intros. split; reflexivity.
  - intros clock1 clock2 previousData currentData. cbv zeta.
    unfold detectLeadChangesFromStrings. simpl.
    rewrite !mapi_from_length, !stamped_ids.
    repeat split; try reflexivity.
    intros Hclock. f_equal. apply mapi_from_ext.
    intros j x. rewrite Hclock. reflexivity.
Qed.

Lemma diff_repeatable_witness :
  detectLeadChangesFromStrings (fun _ => "2023-11-14T22:13:20.000Z")
    "lead-1" "lead-1 lead-2"
  = detectLeadChangesFromStrings (fun i => if (i <? 5)%nat
                                           then "2023-11-14T22:13:20.000Z"
                                           else "2023-11-14T22:13:20.000Z")
      "lead-1" "lead-1 lead-2".
Proof.
  apply (proj2 diff_repeatable).
  intros i. destruct (i <? 5)%nat; reflexivity.
Defined.

(** ** Record equality (C5, C10) *)

Lemma lookup_set_prop_same (k : string) (v : value) (o : object) :
  lookup k (set_prop k v o) = Some v.
Proof.
  induction o as [|[k' v'] o IH]; simpl.
  - rewrite String.eqb_refl. reflexivity.
  - destruct (String.eqb k' k) eqn:E; simpl; rewrite E; [reflexivity|exact IH].
Qed.

Lemma lookup_set_prop_other (k k' : string) (v : value) (o : object) :
  k' <> k -> lookup k' (set_prop k v o) = lookup k' o.
Proof.
  intros Hne. induction o as [|[k0 v0] o IH]; simpl.
  - destruct (String.eqb_spec k k'); [congruence|reflexivity].
  - destruct (String.eqb_spec k0 k) as [->|Hk]; simpl.
    + destruct (String.eqb_spec k k'); [congruence|reflexivity].
    + rewrite IH. reflexivity.
Qed.

Lemma get_set_prop_other (k k' : string) (v : value) (o : object) :
  k' <> k -> get (set_prop k v o) k' = get o k'.
Proof. intros H. unfold get. rewrite lookup_set_prop_other by exact H. reflexivity. Qed.

Lemma hasOwnProperty_set_prop_other (k k' : string) (v : value) (o : object) :
  k' <> k -> hasOwnProperty (set_prop k v o) k' = hasOwnProperty o k'.
Proof.
  intros H. unfold hasOwnProperty.
  rewrite lookup_set_prop_other by exact H. reflexivity.
Qed.

Lemma get_missing (o : object) (k : string) :
  hasOwnProperty o k = false -> get o k = VUndefined.
Proof. unfold hasOwnProperty, get. destruct (lookup k o); [discriminate|reflexivity]. Qed.

Lemma forallb_same {A : Type} (f g : A -> bool) (l : list A) :
  (forall x, In x l -> f x = g x) -> forallb f l = forallb g l.
Proof.
  induction l as [|x l IH]; intros H; simpl; [reflexivity|].
  rewrite (H x (or_introl eq_refl)), IH; [reflexivity|].
  intros y Hy. apply H. right. exact Hy.
Qed.

(** Writing a field that [areLeadsEqual] does not read changes nothing. *)
Lemma areLeadsEqual_other_field (field : string) (v : value)
  (lead1 lead2 : lead) :
  ~ In field comparedFields ->
  areLeadsEqual lead1 (set_prop field v lead2) = areLeadsEqual lead1 lead2.
Proof.
  intros Hout. unfold areLeadsEqual.
  assert (Hkey : forall k, In k comparedFields -> k <> field)
    by (intros k Hk ->; exact (Hout Hk)).
  rewrite !(get_set_prop_other field "id") by (apply Hkey; simpl; auto).
  rewrite !(get_set_prop_other field "uniqueKey") by (apply Hkey; simpl; auto).
  destruct (truthy (get lead1 "id") && truthy (get lead2 "id"));
    [reflexivity|].
  destruct (truthy (get lead1 "uniqueKey") && truthy (get lead2 "uniqueKey"));
    [reflexivity|].
  apply forallb_same. intros k Hk.
  assert (k <> field) by (apply Hkey; simpl; auto).
  rewrite hasOwnProperty_set_prop_other, get_set_prop_other by assumption.
  reflexivity.
Qed.

(** C5 at the input where it fails.  [areLeadsEqual] compares a fixed list of
    fields and never reads [ignoreFields]: under a configuration that lists
    [name], two leads that differ in [name] alone are still different, and
    the diff reports the changed record as new. *)
Theorem ignoreFields_not_consulted :
  In "name" (ignoreFields ignoring_name)
  /\ areLeadsEqual [("name", VStr "Bob"); ("location", VStr "X")]
                   [("name", VStr "Bob"); ("location", VStr "X")] = true
  /\ areLeadsEqual [("name", VStr "Bob"); ("location", VStr "X")]
                   (set_prop "name" (VStr "Rob")
                      [("name", VStr "Bob"); ("location", VStr "X")]) = false
  /\ ~ ignoresConfiguredFields ignoring_name
  /\ detectLeadChangesFromArrays
       (VArr 1 [VObj 2 [("name", VStr "Bob"); ("location", VStr "X")]])
       (VArr 3 [VObj 4 [("name", VStr "Rob"); ("location", VStr "X")]])
     = Ok {| hasChanges := true;
             newLeads := [[("name", VStr "Rob"); ("location", VStr "X");
                           ("uniqueKey", VStr "Rob|X")]] |}.
Proof.
  split; [simpl; auto|].
  split; [reflexivity|].
  split; [reflexivity|].
  split; [|reflexivity].
  intros H.
  specialize (H "name" (VStr "Rob")
                [("name", VStr "Bob"); ("location", VStr "X")]
                [("name", VStr "Bob"); ("location", VStr "X")]
                (or_introl eq_refl) eq_refl).
  discriminate H.
Qed.

(** The part of C5 that holds: a configuration whose [ignoreFields] are none
    of the compared fields, as the one of the source is, has its fields
    ignored; and the record of scenario 2, whose [timestamp] alone has
    changed, is not reported as new. *)
Lemma uncompared_fields_ignored (cfg : config) :
  (forall field, In field (ignoreFields cfg) -> ~ In field comparedFields) ->
  ignoresConfiguredFields cfg.
Proof.
  intros Hcfg field v lead1 lead2 Hin Heq.
  rewrite areLeadsEqual_other_field by (apply Hcfg, Hin). exact Heq.
Qed.

Lemma CONFIG_fields_ignored : ignoresConfiguredFields CONFIG.
Proof.
  apply uncompared_fields_ignored. intros field Hin Hcompared.
  simpl in Hin, Hcompared.
  repeat (destruct Hin as [<-|Hin];
          [repeat (destruct Hcompared as [Hc|Hcompared];
                   [discriminate Hc|]); exact Hcompared|]).
  exact Hin.
Qed.

Lemma scenario2_batch_empty :
  detectLeadChangesFromArrays
    (VArr 1 [VObj 2 [("name", VStr "Bob"); ("location", VStr "X");
                     ("timestamp", VStr "2023-11-14T22:13:20.000Z")]])
    (VArr 3 [VObj 4 [("name", VStr "Bob"); ("location", VStr "X");
                     ("timestamp", VStr "2023-11-14T22:13:21.000Z")]])
  = Ok {| hasChanges := false; newLeads := [] |}
  /\ detectLeadChangesFromArrays
       (VArr 1 [VObj 2 [("name", VStr "Bob"); ("location", VStr "X")]])
       (VArr 3 [VObj 4 [("name", VStr "Bob"); ("location", VStr "X");
                        ("timestamp", VStr "2023-11-14T22:13:21.000Z")]])
     = Ok {| hasChanges := false; newLeads := [] |}.
Proof. split; reflexivity. Qed.

Lemma createUniqueKey_keyless (o : object) :
  (forall field, In field keyFields -> hasOwnProperty o field = false) ->
  createUniqueKey o = "".
Proof.
  intros H. unfold createUniqueKey, keyFields in *. simpl map.
  rewrite !get_missing by (apply H; simpl; auto 10). reflexivity.
Qed.

Lemma withUniqueKey_keyless (o : object) :
  lacksKeys o -> withUniqueKey o = set_prop "uniqueKey" (VStr "") o.
Proof.
  intros [Hid Hfields]. unfold withUniqueKey.
  rewrite Hid, (createUniqueKey_keyless o Hfields). reflexivity.
Qed.

Lemma keyFields_not_uniqueKey (field : string) :
  In field keyFields -> field <> "uniqueKey".
Proof.
  intros Hin ->. simpl in Hin.
  repeat (destruct Hin as [Hin|Hin]; [discriminate Hin|]). exact Hin.
Qed.

(** ** The method calls of the diff *)

Lemma rbind_Ok {A B : Type} (r : result A) (k : A -> result B) (b : B) :
  rbind r k = Ok b -> exists a, r = Ok a /\ k a = Ok b.
Proof. destruct r as [a|e]; simpl; [eauto|discriminate]. Qed.

Lemma hasOwnProperty_call (o : object) (k : string) :
  hasOwnProperty o "hasOwnProperty" = false ->
  Full.hasOwnProperty o k = Ok (hasOwnProperty o k).
Proof. intros H. unfold Full.hasOwnProperty. rewrite H. reflexivity. Qed.

Lemma hasOwnProperty_call_throws (o : object) (k : string) :
  hasOwnProperty o "hasOwnProperty" = true ->
  Full.hasOwnProperty o k = Throw TypeError.
Proof. intros H. unfold Full.hasOwnProperty. rewrite H. reflexivity. Qed.

Lemma hasOwnProperty_call_returns (o : object) (k : string) (b : bool) :
  Full.hasOwnProperty o k = Ok b -> hasOwnProperty o k = b.
Proof.
  unfold Full.hasOwnProperty.
  destruct (hasOwnProperty o "hasOwnProperty"); [discriminate|congruence].
Qed.

Lemma every_throwing_returns {A : Type} (f : A -> result bool)
  (g : A -> bool) (l : list A) (b : bool) :
  (forall x c, f x = Ok c -> g x = c) ->
  every_throwing f l = Ok b -> forallb g l = b.
Proof.
  intros Hfg. induction l as [|x l IH]; simpl; [congruence|].
  intros H. apply rbind_Ok in H. destruct H as (c & Hx & H).
  rewrite (Hfg x c Hx). destruct c; simpl; [exact (IH H)|congruence].
Qed.

Lemma every_throwing_all {A : Type} (f : A -> result bool) (l : list A) :
  (forall x, In x l -> f x = Ok true) -> every_throwing f l = Ok true.
Proof.
  induction l as [|x l IH]; intros H; simpl; [reflexivity|].
  rewrite (H x (or_introl eq_refl)). simpl. apply IH.
  intros y Hy. apply H. right. exact Hy.
Qed.

Lemma every_throwing_same {A : Type} (f g : A -> result bool) (l : list A) :
  (forall x, In x l -> f x = g x) -> every_throwing f l = every_throwing g l.
Proof.
  induction l as [|x l IH]; intros H; simpl; [reflexivity|].
  rewrite (H x (or_introl eq_refl)), IH; [reflexivity|].
  intros y Hy. apply H. right. exact Hy.
Qed.

Lemma some_throwing_returns {A : Type} (f : A -> result bool)
  (g : A -> bool) (l : list A) (b : bool) :
  (forall x c, f x = Ok c -> g x = c) ->
  some_throwing f l = Ok b -> existsb g l = b.
Proof.
  intros Hfg. induction l as [|x l IH]; simpl; [congruence|].
  intros H. apply rbind_Ok in H. destruct H as (c & Hx & H).
  rewrite (Hfg x c Hx). destruct c; simpl; [congruence|exact (IH H)].
Qed.

Lemma some_throwing_none {A : Type} (f : A -> result bool) (l : list A) :
  some_throwing f l = Ok false -> forall x, In x l -> f x = Ok false.
Proof.
  induction l as [|x l IH]; simpl; intros H y Hy; [contradiction|].
  apply rbind_Ok in H. destruct H as (c & Hx & H).
  destruct c; [discriminate|].
  destruct Hy as [<-|Hy]; [exact Hx|exact (IH H y Hy)].
Qed.

Lemma filter_throwing_returns {A : Type} (f : A -> result bool)
  (g : A -> bool) (l kept : list A) :
  (forall x c, f x = Ok c -> g x = c) ->
  filter_throwing f l = Ok kept -> filter g l = kept.
Proof.
  intros Hfg. revert kept. induction l as [|x l IH]; simpl; intros kept H;
    [congruence|].
  apply rbind_Ok in H. destruct H as (c & Hx & H).
  apply rbind_Ok in H. destruct H as (kept' & Hrest & H).
  rewrite (Hfg x c Hx), (IH kept' Hrest). congruence.
Qed.

Lemma filter_throwing_kept {A : Type} (f : A -> result bool)
  (l kept : list A) (x : A) :
  filter_throwing f l = Ok kept -> In x kept -> f x = Ok true.
Proof.
  revert kept. induction l as [|y l IH]; simpl; intros kept H Hin.
  - injection H as <-. contradiction.
  - apply rbind_Ok in H. destruct H as (c & Hy & H).
    apply rbind_Ok in H. destruct H as (kept' & Hrest & H).
    injection H as <-. destruct c.
    + destruct Hin as [<-|Hin]; [exact Hy|exact (IH kept' Hrest Hin)].
    + exact (IH kept' Hrest Hin).
Qed.

Lemma filter_throwing_all {A : Type} (f : A -> result bool) (l : list A) :
  (forall x, In x l -> f x = Ok true) -> filter_throwing f l = Ok l.
Proof.
  induction l as [|x l IH]; intros H; simpl; [reflexivity|].
  rewrite (H x (or_introl eq_refl)). simpl.
  rewrite IH by (intros y Hy; apply H; right; exact Hy). reflexivity.
Qed.

Lemma map_throwing_returns {A B : Type} (f : A -> result B) (g : A -> B)
  (l : list A) (ys : list B) :
  (forall x y, In x l -> f x = Ok y -> g x = y) ->
  map_throwing f l = Ok ys -> map g l = ys.
Proof.
  revert ys. induction l as [|x l IH]; simpl; intros ys Hfg H; [congruence|].
  apply rbind_Ok in H. destruct H as (y & Hx & H).
  apply rbind_Ok in H. destruct H as (ys' & Hrest & H).
  rewrite (Hfg x y (or_introl eq_refl) Hx), (IH ys');
    [congruence| |exact Hrest].
  intros x' y' Hin. apply Hfg. right. exact Hin.
Qed.

Lemma map_throwing_In {A B : Type} (f : A -> result B) (l : list A)
  (ys : list B) (x : A) :
  map_throwing f l = Ok ys -> In x l -> exists y, f x = Ok y /\ In y ys.
Proof.
  revert ys. induction l as [|x' l IH]; simpl; intros ys H Hin;
    [contradiction|].
  apply rbind_Ok in H. destruct H as (y & Hx & H).
  apply rbind_Ok in H. destruct H as (ys' & Hrest & H).
  injection H as <-. destruct Hin as [->|Hin].
  - exists y. split; [exact Hx|left; reflexivity].
  - destruct (IH ys' Hrest Hin) as (y' & Hy' & Hin').
    exists y'. split; [exact Hy'|right; exact Hin'].
Qed.

(** Whenever the calls return, the diff is the one of [Object.prototype]'s
    methods. *)
Lemma to_string_returns :
  forall (v : value) (s : string), Full.to_string v = Ok s -> to_string v = s.
Proof.
  fix IH 1. intros v s. destruct v as [| |b|n|x|r items|r ps]; simpl;
    try congruence.
  - intros H. apply rbind_Ok in H. destruct H as (parts & Hparts & H).
    injection H as <-. f_equal.
    revert parts Hparts. induction items as [|x items IHitems]; simpl;
      intros parts Hparts; [congruence|].
    apply rbind_Ok in Hparts. destruct Hparts as (y & Hx & Hparts).
    apply rbind_Ok in Hparts. destruct Hparts as (ys & Hrest & Hparts).
    injection Hparts as <-. f_equal; [|exact (IHitems ys Hrest)].
    pose proof (IH x y) as IHx.
    destruct x; try congruence; exact (IHx Hx).
  - destruct (hasOwnProperty ps "toString"); congruence.
Qed.

Lemma join_values_returns (sep : string) (l : list value) (s : string) :
  Full.join_values sep l = Ok s -> join_values sep l = s.
Proof.
  unfold Full.join_values, join_values. intros H.
  apply rbind_Ok in H. destruct H as (parts & Hparts & H).
  injection H as <-. f_equal.
  revert Hparts. apply map_throwing_returns. intros x y _ Hx.
  pose proof (to_string_returns x y) as Hs.
  destruct x; try congruence; exact (Hs Hx).
Qed.

Lemma createUniqueKey_returns (l : lead) (k : string) :
  Full.createUniqueKey l = Ok k -> createUniqueKey l = k.
Proof. apply join_values_returns. Qed.

Lemma areLeadsEqual_returns (lead1 lead2 : lead) (b : bool) :
  Full.areLeadsEqual lead1 lead2 = Ok b -> areLeadsEqual lead1 lead2 = b.
Proof.
  unfold Full.areLeadsEqual, areLeadsEqual.
  destruct (truthy (get lead1 "id") && truthy (get lead2 "id"));
    [congruence|].
  destruct (truthy (get lead1 "uniqueKey") && truthy (get lead2 "uniqueKey"));
    [congruence|].
  apply every_throwing_returns. intros field c H.
  apply rbind_Ok in H. destruct H as (has1 & H1 & H).
  rewrite (hasOwnProperty_call_returns _ _ _ H1).
  destruct has1; simpl in *; [|congruence].
  apply rbind_Ok in H. destruct H as (has2 & H2 & H).
  rewrite (hasOwnProperty_call_returns _ _ _ H2).
  destruct has2; simpl in *; congruence.
Qed.

(** Without an own [hasOwnProperty] on either lead the comparison returns. *)
Lemma areLeadsEqual_call (lead1 lead2 : lead) :
  hasOwnProperty lead1 "hasOwnProperty" = false ->
  hasOwnProperty lead2 "hasOwnProperty" = false ->
  Full.areLeadsEqual lead1 lead2 = Ok (areLeadsEqual lead1 lead2).
Proof.
  intros H1 H2. unfold Full.areLeadsEqual, areLeadsEqual.
  destruct (truthy (get lead1 "id") && truthy (get lead2 "id"));
    [reflexivity|].
  destruct (truthy (get lead1 "uniqueKey") && truthy (get lead2 "uniqueKey"));
    [reflexivity|].
  cbv zeta. induction keyFields as [|field fields IH]; simpl; [reflexivity|].
  rewrite (hasOwnProperty_call lead1 field H1). simpl.
  destruct (hasOwnProperty lead1 field); simpl; [|exact IH].
  rewrite (hasOwnProperty_call lead2 field H2). simpl.
  destruct (hasOwnProperty lead2 field); simpl; [|exact IH].
  destruct (strict_eq (get lead1 field) (get lead2 field));
    [exact IH|reflexivity].
Qed.

Lemma isLikelyLeadObject_returns (obj : object) (b : bool) :
  Full.isLikelyLeadObject obj = Ok b -> isLikelyLeadObject obj = b.
Proof.
  unfold Full.isLikelyLeadObject, isLikelyLeadObject. intros H.
  apply rbind_Ok in H. destruct H as (c & Hsome & H).
  rewrite (some_throwing_returns _ (hasOwnProperty obj) _ _
             (hasOwnProperty_call_returns obj) Hsome).
  congruence.
Qed.

Lemma withUniqueKey_returns (item : object) (l : lead) :
  Full.withUniqueKey item = Ok l -> withUniqueKey item = l.
Proof.
  unfold Full.withUniqueKey, withUniqueKey.
  destruct (negb (truthy (get item "id"))); [|congruence].
  intros H. apply rbind_Ok in H. destruct H as (k & Hk & H).
  rewrite (createUniqueKey_returns _ _ Hk). congruence.
Qed.

Lemma processItem_returns :
  forall (item : value) (leads : list lead),
    Full.processItem item = Ok leads -> processItem item = leads.
Proof.
  assert (Hself : forall obj here,
             rbind (Full.isLikelyLeadObject obj) (fun likely =>
               if likely then rbind (Full.withUniqueKey obj) (fun l => Ok [l])
               else Ok []) = Ok here ->
             (if isLikelyLeadObject obj then [withUniqueKey obj] else [])
             = here).
  { intros obj here H. apply rbind_Ok in H. destruct H as (likely & Hl & H).
    rewrite (isLikelyLeadObject_returns _ _ Hl). destruct likely; [|congruence].
    apply rbind_Ok in H. destruct H as (l & Hk & H).
    rewrite (withUniqueKey_returns _ _ Hk). congruence. }
  fix IH 1. intros item leads. destruct item as [| |b|n|x|r items|r ps];
    simpl; try congruence; intros H.
  - apply rbind_Ok in H. destruct H as (here & Hhere & H).
    apply rbind_Ok in H. destruct H as (below & Hbelow & H).
    injection H as <-. rewrite (Hself _ _ Hhere). f_equal.
    clear Hhere. revert below Hbelow.
    induction items as [|x items IHitems]; simpl; intros below Hbelow;
      [injection Hbelow as <-; reflexivity|].
    apply rbind_Ok in Hbelow. destruct Hbelow as (y & Hx & Hbelow).
    apply rbind_Ok in Hbelow. destruct Hbelow as (ys & Hrest & Hbelow).
    injection Hbelow as <-. simpl.
    rewrite (IH x y Hx), (IHitems ys Hrest). reflexivity.
  - apply rbind_Ok in H. destruct H as (here & Hhere & H).
    apply rbind_Ok in H. destruct H as (below & Hbelow & H).
    injection H as <-. rewrite (Hself _ _ Hhere). f_equal.
    clear Hhere. revert below Hbelow.
    induction ps as [|[k x] ps IHps]; simpl; intros below Hbelow;
      [injection Hbelow as <-; reflexivity|].
    apply rbind_Ok in Hbelow. destruct Hbelow as (y & Hx & Hbelow).
    apply rbind_Ok in Hbelow. destruct Hbelow as (ys & Hrest & Hbelow).
    injection Hbelow as <-. simpl.
    rewrite (IH x y Hx), (IHps ys Hrest). reflexivity.
Qed.

Lemma extractLeadObjects_returns (array : value) (leads : list lead) :
  Full.extractLeadObjects array = Ok leads ->
  extractLeadObjects array = Ok leads.
Proof.
  unfold Full.extractLeadObjects, extractLeadObjects.
  match goal with |- context [if ?b then _ else _] => destruct b end.
  - set (items := match array with VArr _ items => items | _ => [] end).
    clearbody items. revert leads.
    induction items as [|x items IH]; simpl; intros leads H; [exact H|].
    apply rbind_Ok in H. destruct H as (y & Hx & H).
    apply rbind_Ok in H. destruct H as (ys & Hrest & H).
    injection H as <-. rewrite (IH ys Hrest).
    destruct (to_object x) as [o|]; [|discriminate].
    rewrite (withUniqueKey_returns _ _ Hx). reflexivity.
  - intros H. rewrite (processItem_returns _ _ H). reflexivity.
Qed.

Lemma detectLeadChangesFromArrays_returns (previousArray currentArray : value)
  (found : changes) :
  Full.detectLeadChangesFromArrays previousArray currentArray = Ok found ->
  detectLeadChangesFromArrays previousArray currentArray = Ok found.
Proof.
  unfold Full.detectLeadChangesFromArrays, detectLeadChangesFromArrays.
  intros H.
  apply rbind_Ok in H. destruct H as (previousLeads & Hprev & H).
  apply rbind_Ok in H. destruct H as (currentLeads & Hcur & H).
  apply rbind_Ok in H. destruct H as (newLeads & Hnew & H).
  rewrite (extractLeadObjects_returns _ _ Hprev). simpl.
  rewrite (extractLeadObjects_returns _ _ Hcur). simpl.
  assert (Hfilter :
            filter (fun currentLead =>
                      negb (existsb (fun prevLead =>
                                       areLeadsEqual prevLead currentLead)
                                    previousLeads))
                   currentLeads = newLeads).
  { apply (filter_throwing_returns
             (fun currentLead =>
                rbind (some_throwing
                         (fun prevLead => Full.areLeadsEqual prevLead currentLead)
                         previousLeads)
                      (fun known => Ok (negb known))));
      [|exact Hnew].
    intros currentLead c Hc.
    apply rbind_Ok in Hc. destruct Hc as (known & Hknown & Hc).
    rewrite (some_throwing_returns _
               (fun prevLead => areLeadsEqual prevLead currentLead) _ _
               (fun prevLead b => areLeadsEqual_returns prevLead currentLead b)
               Hknown).
    congruence. }
  rewrite Hfilter. exact H.
Qed.

(** The derived key of a record without key fields, and the record with it. *)
Lemma createUniqueKey_call_keyless (o : object) :
  (forall field, In field keyFields -> hasOwnProperty o field = false) ->
  Full.createUniqueKey o = Ok "".
Proof.
  intros H. unfold Full.createUniqueKey, keyFields in *. simpl map.
  rewrite !get_missing by (apply H; simpl; auto 10). reflexivity.
Qed.

Lemma withUniqueKey_call_keyless (o : object) :
  lacksKeys o -> Full.withUniqueKey o = Ok (withUniqueKey o).
Proof.
  intros Hlacks. rewrite (withUniqueKey_keyless o Hlacks).
  destruct Hlacks as [Hid Hfields]. unfold Full.withUniqueKey.
  rewrite Hid, (createUniqueKey_call_keyless o Hfields). reflexivity.
Qed.

Lemma lacksKeys_lead (o : object) :
  lacksKeys o ->
  let l := withUniqueKey o in
  truthy (get l "id") = false
  /\ truthy (get l "uniqueKey") = false
  /\ (forall field, In field keyFields -> hasOwnProperty l field = false)
  /\ hasOwnProperty l "hasOwnProperty" = hasOwnProperty o "hasOwnProperty".
Proof.
  intros Hlacks. cbv zeta. rewrite (withUniqueKey_keyless o Hlacks).
  destruct Hlacks as [Hid Hfields]. repeat split.
  - rewrite get_set_prop_other by discriminate. exact Hid.
  - unfold get. rewrite lookup_set_prop_same. reflexivity.
  - intros field Hin.
    rewrite hasOwnProperty_set_prop_other
      by (apply keyFields_not_uniqueKey, Hin).
    apply Hfields, Hin.
  - apply hasOwnProperty_set_prop_other. discriminate.
Qed.

(** The comparison of a lead without keys with any lead that has no truthy
    [uniqueKey]: [true] after the first call of [lead1.hasOwnProperty], or the
    [TypeError] of that call. *)
Lemma areLeadsEqual_call_keyless (lead1 lead2 : lead) :
  truthy (get lead1 "id") = false ->
  truthy (get lead1 "uniqueKey") = false ->
  (forall field, In field keyFields -> hasOwnProperty lead1 field = false) ->
  Full.areLeadsEqual lead1 lead2
  = if hasOwnProperty lead1 "hasOwnProperty" then Throw TypeError else Ok true.
Proof.
  intros Hid Hkey Hfields. unfold Full.areLeadsEqual.
  rewrite Hid, Hkey. cbn [andb]. cbv zeta.
  destruct (hasOwnProperty lead1 "hasOwnProperty") eqn:Hmethod.
  - unfold keyFields. cbn [every_throwing].
    rewrite (hasOwnProperty_call_throws lead1 "name" Hmethod). reflexivity.
  - apply every_throwing_all. intros field Hin.
    rewrite (hasOwnProperty_call lead1 field Hmethod), (Hfields field Hin).
    reflexivity.
Qed.

(** C10 as it is stated, at the inputs where it fails.  The baseline
    [[1, {price: 9}]] contains a record without [id] and without key fields,
    yet the record [{price: 10}] of the current snapshot is reported as new:
    an array that does not start with an object is searched for lead-like
    objects, and [{price: 9}] is none.  And of two such records the first of
    which has an own property [hasOwnProperty], [areLeadsEqual] does not
    return [true]: it throws. *)
Lemma keyless_record_reported_new :
  lacksKeys [("price", VNum "9")]
  /\ lacksKeys [("price", VNum "10")]
  /\ Full.detectLeadChangesFromArrays
       (VArr 1 [VNum "1"; VObj 2 [("price", VNum "9")]])
       (VArr 3 [VObj 4 [("price", VNum "10")]])
     = Ok {| hasChanges := true;
             newLeads := [withUniqueKey [("price", VNum "10")]] |}
  /\ lacksKeys [("hasOwnProperty", VNum "1")]
  /\ Full.areLeadsEqual (withUniqueKey [("hasOwnProperty", VNum "1")])
                        (withUniqueKey [("price", VNum "10")])
     = Throw TypeError.
Proof.
  assert (Hlacks : forall o, truthy (get o "id") = false ->
                             forallb (fun field => negb (hasOwnProperty o field))
                                     keyFields = true ->
                             lacksKeys o).
  { intros o Hid Hall. split; [exact Hid|]. intros field Hin.
    rewrite forallb_forall in Hall. apply negb_true_iff, Hall, Hin. }
  repeat split; try (apply Hlacks; reflexivity).
Qed.

(** C10.  For two records that both lack an [id] and all seven key fields,
    the derived [uniqueKey] is the empty string, and [areLeadsEqual] returns
    [true] of the leads extracted from them unless the first has an own
    property [hasOwnProperty], whose call throws.  So whenever the leads
    extracted from the baseline include one of that shape, the array diff
    does not report a lead of that shape as new; and the leads extracted from
    a baseline that starts with an object include every record it holds. *)
Theorem keyless_leads_are_equal (o1 o2 : object)
  (H1 : lacksKeys o1) (H2 : lacksKeys o2) :
  Full.createUniqueKey o1 = Ok ""
  /\ Full.createUniqueKey o2 = Ok ""
  /\ Full.areLeadsEqual (withUniqueKey o1) (withUniqueKey o2)
     = (if hasOwnProperty o1 "hasOwnProperty" then Throw TypeError
        else Ok true)
  /\ (forall previousArray currentArray previousLeads found,
         Full.extractLeadObjects previousArray = Ok previousLeads ->
         In (withUniqueKey o1) previousLeads ->
         Full.detectLeadChangesFromArrays previousArray currentArray
         = Ok found ->
         ~ In (withUniqueKey o2) (newLeads found))
  /\ (forall r r1 first rest previousLeads,
         typeof_object first = true -> first <> VNull ->
         In (VObj r1 o1) (first :: rest) ->
         Full.extractLeadObjects (VArr r (first :: rest)) = Ok previousLeads ->
         In (withUniqueKey o1) previousLeads).
Proof.
  destruct (lacksKeys_lead o1 H1) as (Hid & Hkey & Hfields & Hmethod).
  assert (Heq : forall l,
             Full.areLeadsEqual (withUniqueKey o1) l
             = if hasOwnProperty o1 "hasOwnProperty" then Throw TypeError
               else Ok true).
  { intros l. rewrite <- Hmethod.
    apply areLeadsEqual_call_keyless; assumption. }
  split; [apply createUniqueKey_call_keyless, H1|].
  split; [apply createUniqueKey_call_keyless, H2|].
  split; [apply Heq|].
  split.
  - intros previousArray currentArray previousLeads found Hprev Hin Hdiff Hnew.
    unfold Full.detectLeadChangesFromArrays in Hdiff. rewrite Hprev in Hdiff.
    simpl in Hdiff.
    apply rbind_Ok in Hdiff. destruct Hdiff as (currentLeads & _ & Hdiff).
    apply rbind_Ok in Hdiff. destruct Hdiff as (kept & Hkept & Hdiff).
    injection Hdiff as <-. simpl in Hnew.
    pose proof (filter_throwing_kept _ _ _ _ Hkept Hnew) as Hc.
    apply rbind_Ok in Hc. destruct Hc as (known & Hknown & Hc).
    destruct known; [discriminate|].
    pose proof (some_throwing_none _ _ Hknown _ Hin) as Hfalse.
    simpl in Hfalse. rewrite Heq in Hfalse.
    destruct (hasOwnProperty o1 "hasOwnProperty"); discriminate.
  - intros r r1 first rest previousLeads Hobject Hnull Hin Hextract.
    unfold Full.extractLeadObjects in Hextract. rewrite Hobject in Hextract.
    replace (negb (strict_eq first VNull)) with true in Hextract
      by (destruct first; try reflexivity; congruence).
    simpl andb in Hextract. cbv iota in Hextract.
    destruct (map_throwing_In _ _ _ _ Hextract Hin) as (l & Hl & Hleads).
    simpl in Hl. rewrite (withUniqueKey_call_keyless o1 H1) in Hl.
    injection Hl as <-. exact Hleads.
Qed.

Lemma keyless_leads_are_equal_witness :
  Full.areLeadsEqual
    (withUniqueKey [("description", VStr "blocked drain")])
    (withUniqueKey [("description", VStr "new tap"); ("price", VNum "120")])
  = Ok true
  /\ Full.detectLeadChangesFromArrays
       (VArr 1 [VObj 2 [("description", VStr "blocked drain")]])
       (VArr 3 [VObj 4 [("description", VStr "new tap");
                        ("price", VNum "120")]])
     = Ok {| hasChanges := false; newLeads := [] |}
  /\ ~ In (withUniqueKey [("description", VStr "new tap");
                          ("price", VNum "120")]) [].
Proof.
  set (o1 := [("description", VStr "blocked drain")]).
  set (o2 := [("description", VStr "new tap"); ("price", VNum "120")]).
  assert (H1 : lacksKeys o1).
  { split; [reflexivity|]. intros field Hin. simpl in Hin.
    repeat (destruct Hin as [<-|Hin]; [reflexivity|]). contradiction. }
  assert (H2 : lacksKeys o2).
  { split; [reflexivity|]. intros field Hin. simpl in Hin.
    repeat (destruct Hin as [<-|Hin]; [reflexivity|]). contradiction. }
  destruct (keyless_leads_are_equal o1 o2 H1 H2) as (_ & _ & Heq & Hdiff & _).
  split; [exact Heq|]. split; [reflexivity|].
  apply (Hdiff (VArr 1 [VObj 2 o1]) (VArr 3 [VObj 4 o2]) [withUniqueKey o1]
           {| hasChanges := false; newLeads := [] |});
    [reflexivity | left; reflexivity | reflexivity].
Defined.

(** * Further properties *)

(** ** Record equality and extraction *)

Lemma strict_eq_sym (a b : value) : strict_eq a b = strict_eq b a.
Proof.
  destruct a as [| |x|x|x|r1 l1|r1 l1], b as [| |y|y|y|r2 l2|r2 l2];
    simpl; try reflexivity.
  - destruct x, y; reflexivity.
  - destruct (String.eqb_spec x y) as [->|Hne].
    + rewrite String.eqb_refl. reflexivity.
    + destruct (String.eqb_spec y x); [congruence|reflexivity].
  - apply String.eqb_sym.
  - apply Nat.eqb_sym.
  - apply Nat.eqb_sym.
Qed.

Lemma strict_eq_refl (v : value) : isNaN v = false -> strict_eq v v = true.
Proof.
  destruct v as [| |x|x|x|r l|r l]; simpl; intros H;
    auto using String.eqb_refl, Nat.eqb_refl.
  - destruct x; reflexivity.
  - rewrite String.eqb_refl, H. reflexivity.
Qed.

Lemma truthy_not_NaN (v : value) : truthy v = true -> isNaN v = false.
Proof.
  destruct v; simpl; try reflexivity.
  intros H. apply negb_true_iff, orb_false_iff in H. apply H.
Qed.

Lemma areLeadsEqual_comm (lead1 lead2 : lead) :
  areLeadsEqual lead1 lead2 = areLeadsEqual lead2 lead1.
Proof.
  unfold areLeadsEqual.
  rewrite (andb_comm (truthy (get lead1 "id"))).
  rewrite (andb_comm (truthy (get lead1 "uniqueKey"))).
  rewrite (strict_eq_sym (get lead1 "id")).
  rewrite (strict_eq_sym (get lead1 "uniqueKey")).
  destruct (truthy (get lead2 "id") && truthy (get lead1 "id")); [reflexivity|].
  destruct (truthy (get lead2 "uniqueKey") && truthy (get lead1 "uniqueKey"));
    [reflexivity|].
  apply forallb_same. intros field _.
  rewrite (orb_comm (negb (hasOwnProperty lead1 field))).
  rewrite (strict_eq_sym (get lead1 field)). reflexivity.
Qed.

(** With an own property [hasOwnProperty] on one of the leads the order of
    the arguments shows: the call on the first lead comes first, and the
    second lead is not asked once the first lacks the field. *)
Example areLeadsEqual_call_order :
  Full.areLeadsEqual [("price", VNum "9")] [("hasOwnProperty", VNum "1")]
  = Ok true
  /\ Full.areLeadsEqual [("hasOwnProperty", VNum "1")] [("price", VNum "9")]
     = Throw TypeError.
Proof. split; reflexivity. Qed.

(** For leads neither of which has an own property [hasOwnProperty],
    [areLeadsEqual] returns, and returns the same in either order of its
    arguments. *)
Theorem areLeadsEqual_sym (lead1 lead2 : lead)
  (H1 : hasOwnProperty lead1 "hasOwnProperty" = false)
  (H2 : hasOwnProperty lead2 "hasOwnProperty" = false) :
  exists b,
    Full.areLeadsEqual lead1 lead2 = Ok b
    /\ Full.areLeadsEqual lead2 lead1 = Ok b.
Proof.
  exists (areLeadsEqual lead1 lead2). split.
  - apply areLeadsEqual_call; assumption.
  - rewrite areLeadsEqual_comm. apply areLeadsEqual_call; assumption.
Qed.

Lemma areLeadsEqual_sym_witness :
  exists b,
    Full.areLeadsEqual [("name", VStr "Bob"); ("job", VStr "tap")]
                       [("name", VStr "Bob"); ("title", VStr "Mr")] = Ok b
    /\ Full.areLeadsEqual [("name", VStr "Bob"); ("title", VStr "Mr")]
                          [("name", VStr "Bob"); ("job", VStr "tap")] = Ok b.
Proof.
  apply (areLeadsEqual_sym [("name", VStr "Bob"); ("job", VStr "tap")]
                           [("name", VStr "Bob"); ("title", VStr "Mr")]);
    reflexivity.
Defined.

(** [areLeadsEqual] reads [id], [uniqueKey], the seven key fields and
    [hasOwnProperty] of each lead and nothing else: leads that agree on these
    ten keys are interchangeable on either side of the comparison, in what it
    returns and in whether it throws. *)
Theorem areLeadsEqual_reads_compared_fields (a a' b b' : lead)
  (Ha : forall k, In k ("hasOwnProperty" :: comparedFields) ->
                  lookup k a = lookup k a')
  (Hb : forall k, In k ("hasOwnProperty" :: comparedFields) ->
                  lookup k b = lookup k b') :
  Full.areLeadsEqual a b = Full.areLeadsEqual a' b'.
Proof.
  assert (Hget : forall k, In k ("hasOwnProperty" :: comparedFields) ->
                           get a k = get a' k /\ get b k = get b' k
                           /\ hasOwnProperty a k = hasOwnProperty a' k
                           /\ hasOwnProperty b k = hasOwnProperty b' k).
  { intros k Hk. unfold get, hasOwnProperty.
    rewrite (Ha k Hk), (Hb k Hk). repeat split. }
  unfold Full.areLeadsEqual.
  destruct (Hget "id") as (-> & -> & _); [simpl; auto|].
  destruct (Hget "uniqueKey") as (-> & -> & _); [simpl; auto|].
  destruct (truthy (get a' "id") && truthy (get b' "id")); [reflexivity|].
  destruct (truthy (get a' "uniqueKey") && truthy (get b' "uniqueKey"));
    [reflexivity|].
  apply every_throwing_same. intros field Hin.
  unfold Full.hasOwnProperty.
  destruct (Hget "hasOwnProperty") as (_ & _ & -> & ->); [simpl; auto|].
  destruct (Hget field) as (-> & -> & -> & ->); [simpl; auto 10|reflexivity].
Qed.

Lemma areLeadsEqual_reads_compared_fields_witness :
  Full.areLeadsEqual
    [("name", VStr "Bob"); ("price", VNum "10")]
    [("description", VStr "old"); ("name", VStr "Bob")]
  = Full.areLeadsEqual
      [("price", VNum "99"); ("name", VStr "Bob"); ("html", VStr "<li>")]
      [("name", VStr "Bob")].
Proof.
  apply areLeadsEqual_reads_compared_fields;
    intros k Hk; simpl in Hk;
    repeat (destruct Hk as [<-|Hk]; [reflexivity|]); contradiction.
Defined.

Lemma map_throwing_objects (items : list value) :
  map_throwing (fun item =>
                  match to_object item with
                  | None => Throw TypeError
                  | Some o => Ok (withUniqueKey o)
                  end) items
  = if existsb nullish items then Throw TypeError
    else Ok (map (fun item => withUniqueKey (own_props item)) items).
Proof.
  induction items as [|x items IH]; simpl; [reflexivity|].
  rewrite IH.
  destruct x; simpl; try reflexivity;
    destruct (existsb nullish items); reflexivity.
Qed.

Lemma extractLeadObjects_elements (r : nat) (first : value)
  (rest : list value) :
  typeof_object first = true -> first <> VNull ->
  extractLeadObjects (VArr r (first :: rest))
  = if existsb nullish rest then Throw TypeError
    else Ok (map (fun item => withUniqueKey (own_props item)) (first :: rest)).
Proof.
  intros Hobject Hnull. unfold extractLeadObjects. rewrite Hobject.
  destruct first; try discriminate; try congruence; simpl andb; cbv iota;
    rewrite map_throwing_objects; reflexivity.
Qed.

Lemma map_throwing_all {A B : Type} (f : A -> result B) (g : A -> B)
  (p : A -> bool) (l : list A) :
  (forall x, f x = if p x then Ok (g x) else Throw TypeError) ->
  map_throwing f l = if forallb p l then Ok (map g l) else Throw TypeError.
Proof.
  intros Hf. induction l as [|x l IH]; simpl; [reflexivity|].
  rewrite Hf, IH. destruct (p x); simpl; [|reflexivity].
  destruct (forallb p l); reflexivity.
Qed.

Lemma to_string_call :
  forall v : value,
    Full.to_string v = if prints v then Ok (to_string v) else Throw TypeError.
Proof.
  fix IH 1. intros v. destruct v as [| |b|n|x|r items|r ps]; simpl;
    try reflexivity.
  - assert (Hitems :
              map_throwing (fun x => match x with
                                     | VUndefined | VNull => Ok ""
                                     | _ => Full.to_string x
                                     end) items
              = if forallb prints items
                then Ok (map (fun x => match x with
                                       | VUndefined | VNull => ""
                                       | _ => to_string x
                                       end) items)
                else Throw TypeError).
    { induction items as [|x items IHitems]; simpl; [reflexivity|].
      rewrite IHitems. pose proof (IH x) as IHx.
      destruct x; simpl in *; try rewrite IHx;
        repeat match goal with
               | |- context [if ?c then _ else _] => destruct c; simpl
               end; reflexivity. }
    rewrite Hitems. destruct (forallb prints items); reflexivity.
  - destruct (hasOwnProperty ps "toString"); reflexivity.
Qed.

Lemma join_values_call (sep : string) (l : list value) :
  Full.join_values sep l
  = if forallb prints l then Ok (join_values sep l) else Throw TypeError.
Proof.
  unfold Full.join_values, join_values.
  rewrite (map_throwing_all _
             (fun x => match x with
                       | VUndefined | VNull => ""
                       | _ => to_string x
                       end) prints).
  - destruct (forallb prints l); reflexivity.
  - intros x. pose proof (to_string_call x) as Hx.
    destruct x; simpl in *; try reflexivity; exact Hx.
Qed.

Lemma withUniqueKey_call (o : object) :
  Full.withUniqueKey o
  = if keyPrints o then Ok (withUniqueKey o) else Throw TypeError.
Proof.
  unfold Full.withUniqueKey, withUniqueKey, keyPrints.
  destruct (truthy (get o "id")); cbn [negb orb]; [reflexivity|].
  unfold Full.createUniqueKey, createUniqueKey. cbv zeta.
  rewrite join_values_call.
  destruct (forallb prints (filter truthy (map (get o) keyFields)));
    reflexivity.
Qed.

(** On an array that starts with an object and holds no string,
    [extractLeadObjects] throws, and throws a [TypeError], exactly when some
    element is [null] (or [undefined]) or is a record without a truthy [id]
    one of whose key fields [join] cannot print; otherwise it returns one
    lead for every element, in order. *)
Theorem extractLeadObjects_of_objects (r : nat) (first : value)
  (rest : list value)
  (Hobject : typeof_object first = true) (Hnull : first <> VNull)
  (Hstrings : forall s, ~ In (VStr s) (first :: rest)) :
  Full.extractLeadObjects (VArr r (first :: rest))
  = if forallb (fun item => negb (nullish item) && keyPrints (own_props item))
               (first :: rest)
    then Ok (map (fun item => withUniqueKey (own_props item)) (first :: rest))
    else Throw TypeError.
Proof.
  unfold Full.extractLeadObjects. rewrite Hobject.
  replace (negb (strict_eq first VNull)) with true
    by (destruct first; try reflexivity; congruence).
  simpl andb. cbv iota.
  apply map_throwing_all. intros item.
  destruct item; simpl; try reflexivity; apply withUniqueKey_call.
Qed.

Lemma extractLeadObjects_of_objects_witness :
  Full.extractLeadObjects
    (VArr 1 [VObj 2 [("id", VStr "a")]; VNum "7"; VNull])
  = Throw TypeError
  /\ Full.extractLeadObjects
       (VArr 1 [VObj 2 [("name", VObj 3 [("toString", VNull)])]])
     = Throw TypeError
  /\ Full.extractLeadObjects
       (VArr 1 [VObj 2 [("id", VNum "4");
                        ("name", VObj 3 [("toString", VNull)])];
                VArr 4 []; VNum "7"])
     = Ok [[("id", VNum "4"); ("name", VObj 3 [("toString", VNull)])];
           [("uniqueKey", VStr "")]; [("uniqueKey", VStr "")]].
Proof.
  assert (Hin : forall items,
             forallb (fun item => match item with VStr _ => false | _ => true end)
                     items = true ->
             forall s, ~ In (VStr s) items).
  { intros items Hall s Hs. rewrite forallb_forall in Hall.
    specialize (Hall _ Hs). discriminate Hall. }
  split; [|split].
  - apply (extractLeadObjects_of_objects 1 (VObj 2 [("id", VStr "a")])
             [VNum "7"; VNull]);
      [reflexivity | discriminate | apply Hin; reflexivity].
  - apply (extractLeadObjects_of_objects 1
             (VObj 2 [("name", VObj 3 [("toString", VNull)])]) []);
      [reflexivity | discriminate | apply Hin; reflexivity].
  - apply (extractLeadObjects_of_objects 1
             (VObj 2 [("id", VNum "4");
                      ("name", VObj 3 [("toString", VNull)])])
             [VArr 4 []; VNum "7"]);
      [reflexivity | discriminate | apply Hin; reflexivity].
Defined.

Lemma createUniqueKey_set_uniqueKey (v : value) (o : object) :
  createUniqueKey (set_prop "uniqueKey" v o) = createUniqueKey o.
Proof.
  unfold createUniqueKey. f_equal. f_equal.
  apply map_ext_in. intros field Hin.
  apply get_set_prop_other, keyFields_not_uniqueKey, Hin.
Qed.

Lemma withUniqueKey_identity (o : object) :
  let l := withUniqueKey o in
  (truthy (get l "id") = true /\ l = o /\ leadIdentity l = get l "id")
  \/ (truthy (get l "id") = false
      /\ get l "uniqueKey" = VStr (createUniqueKey l)
      /\ leadIdentity l = VStr (createUniqueKey l)
      /\ forall k, k <> "uniqueKey" -> lookup k l = lookup k o).
Proof.
  cbv zeta. unfold withUniqueKey, leadIdentity.
  destruct (truthy (get o "id")) eqn:Hid; simpl.
  - left. rewrite Hid. auto.
  - right.
    assert (Hkey : forall v, get (set_prop "uniqueKey" v o) "uniqueKey" = v)
      by (intros v; unfold get; rewrite lookup_set_prop_same; reflexivity).
    rewrite get_set_prop_other by discriminate. rewrite Hid.
    rewrite createUniqueKey_set_uniqueKey, Hkey.
    repeat split. intros k Hk. apply lookup_set_prop_other, Hk.
Qed.

Lemma processItem_from_objects :
  forall (item : value) (l : lead),
    In l (processItem item) -> exists o, l = withUniqueKey o.
Proof.
  fix IH 1. intros item l. destruct item as [| |b|n|s|r items|r ps]; simpl;
    try contradiction; intros H; apply in_app_or in H; destruct H as [H|H].
  - destruct (isLikelyLeadObject (indexed items)); [|contradiction].
    destruct H as [<-|[]]. eexists. reflexivity.
  - induction items as [|x items IHitems]; simpl in H; [contradiction|].
    apply in_app_or in H. destruct H as [H|H].
    + exact (IH x l H).
    + exact (IHitems H).
  - destruct (isLikelyLeadObject ps); [|contradiction].
    destruct H as [<-|[]]. eexists. reflexivity.
  - induction ps as [|[k x] ps IHps]; simpl in H; [contradiction|].
    apply in_app_or in H. destruct H as [H|H].
    + exact (IH x l H).
    + exact (IHps H).
Qed.

Lemma map_throwing_from_objects (items : list value) (leads : list lead)
  (l : lead) :
  map_throwing (fun item =>
                  match to_object item with
                  | None => Throw TypeError
                  | Some o => Ok (withUniqueKey o)
                  end) items = Ok leads ->
  In l leads -> exists o, l = withUniqueKey o.
Proof.
  rewrite map_throwing_objects.
  destruct (existsb nullish items); [discriminate|].
  intros [= <-] Hin. apply in_map_iff in Hin.
  destruct Hin as (x & <- & _). eexists. reflexivity.
Qed.

Lemma extractLeadObjects_from_objects (array : value) (leads : list lead)
  (l : lead) :
  extractLeadObjects array = Ok leads -> In l leads ->
  exists o, l = withUniqueKey o.
Proof.
  unfold extractLeadObjects.
  match goal with |- context [if ?b then _ else _] => destruct b end.
  - apply map_throwing_from_objects.
  - intros [= <-]. apply processItem_from_objects.
Qed.

(** Every lead [extractLeadObjects] returns carries what the deduplicator
    identifies it by: a truthy [id], or else a [uniqueKey] that is the key
    derived from the lead's own fields, whatever [uniqueKey] the record had
    in the snapshot. *)
Theorem extracted_leads_carry_identity (array : value) (leads : list lead)
  (l : lead)
  (Hextract : extractLeadObjects array = Ok leads) (Hin : In l leads) :
  (truthy (get l "id") = true /\ leadIdentity l = get l "id")
  \/ (truthy (get l "id") = false
      /\ get l "uniqueKey" = VStr (createUniqueKey l)
      /\ leadIdentity l = VStr (createUniqueKey l)).
Proof.
  destruct (extractLeadObjects_from_objects array leads l Hextract Hin)
    as [o ->].
  destruct (withUniqueKey_identity o) as [(H1 & _ & H2)|(H1 & H2 & H3 & _)];
    [left|right]; auto.
Qed.

Lemma extracted_leads_carry_identity_witness :
  let l := [("name", VStr "Bob"); ("uniqueKey", VStr "Bob")] in
  (truthy (get l "id") = true /\ leadIdentity l = get l "id")
  \/ (truthy (get l "id") = false
      /\ get l "uniqueKey" = VStr (createUniqueKey l)
      /\ leadIdentity l = VStr (createUniqueKey l)).
Proof.
  apply (extracted_leads_carry_identity
           (VArr 1 [VNull;
                    VObj 2 [("name", VStr "Bob"); ("uniqueKey", VNum "5")]])
           [[("name", VStr "Bob"); ("uniqueKey", VStr "Bob")]]);
    [reflexivity | left; reflexivity].
Defined.

(** ** The array diff *)

Lemma existsb_same {A : Type} (f g : A -> bool) (l : list A) :
  (forall x, In x l -> f x = g x) -> existsb f l = existsb g l.
Proof.
  induction l as [|x l IH]; intros H; simpl; [reflexivity|].
  rewrite (H x (or_introl eq_refl)), IH; [reflexivity|].
  intros y Hy. apply H. right. exact Hy.
Qed.

Lemma filter_same {A : Type} (f g : A -> bool) (l : list A) :
  (forall x, In x l -> f x = g x) -> filter f l = filter g l.
Proof.
  induction l as [|x l IH]; intros H; simpl; [reflexivity|].
  rewrite (H x (or_introl eq_refl)), IH; [reflexivity|].
  intros y Hy. apply H. right. exact Hy.
Qed.

Lemma extractLeadObjects_identified (r : nat) (items : list value) :
  forallb identified items = true ->
  extractLeadObjects (VArr r items) = Ok (map own_props items).
Proof.
  intros Hall. destruct items as [|first rest]; [reflexivity|].
  assert (Hfirst : identified first = true)
    by (simpl in Hall; apply andb_true_iff in Hall; apply Hall).
  rewrite extractLeadObjects_elements;
    [|destruct first; try discriminate; reflexivity
     |destruct first; discriminate].
  assert (Hnone : forall l, forallb identified l = true ->
                            existsb nullish l = false).
  { induction l as [|x l IH]; simpl; [reflexivity|].
    intros H. apply andb_true_iff in H. destruct H as [Hx Hl].
    rewrite (IH Hl). destruct x; try discriminate; reflexivity. }
  simpl in Hall. apply andb_true_iff in Hall.
  rewrite (Hnone rest) by apply Hall. f_equal.
  apply map_ext_in. intros x Hx.
  assert (Hid : identified x = true).
  { destruct Hx as [<-|Hx]; [exact Hfirst|].
    destruct Hall as [_ Hrest].
    rewrite forallb_forall in Hrest. apply Hrest, Hx. }
  destruct x; try discriminate. simpl in *.
  unfold withUniqueKey. rewrite Hid. reflexivity.
Qed.

Lemma identified_truthy_id (items : list value) (l : lead) :
  forallb identified items = true -> In l (map own_props items) ->
  truthy (get l "id") = true.
Proof.
  intros Hall Hin. apply in_map_iff in Hin. destruct Hin as (x & <- & Hx).
  rewrite forallb_forall in Hall. specialize (Hall x Hx).
  destruct x; try discriminate. exact Hall.
Qed.

(** When every element of both snapshots is an object with a truthy [id],
    the array diff is the difference by [id]: the new leads are the current
    records, in their order, whose [id] is [===] to the [id] of no baseline
    record; no other field is looked at. *)
Theorem diff_by_id (r1 r2 : nat) (previous current : list value)
  (Hprevious : forallb identified previous = true)
  (Hcurrent : forallb identified current = true) :
  detectLeadChangesFromArrays (VArr r1 previous) (VArr r2 current)
  = Ok (let newLeads :=
          filter (fun c =>
                    negb (existsb (fun p => strict_eq (get p "id") (get c "id"))
                                  (map own_props previous)))
                 (map own_props current) in
        mkChanges (0 <? List.length newLeads)%nat newLeads).
Proof.
  unfold detectLeadChangesFromArrays.
  rewrite !extractLeadObjects_identified by assumption. simpl rbind.
  cbv zeta.
  rewrite (filter_same
             (fun c => negb (existsb (fun p => areLeadsEqual p c)
                                     (map own_props previous)))
             (fun c => negb (existsb (fun p => strict_eq (get p "id")
                                                         (get c "id"))
                                     (map own_props previous))));
    [reflexivity|].
  intros c Hc. f_equal. apply existsb_same. intros p Hp.
  unfold areLeadsEqual.
  rewrite (identified_truthy_id previous p Hprevious Hp).
  rewrite (identified_truthy_id current c Hcurrent Hc). reflexivity.
Qed.

Lemma diff_by_id_witness :
  detectLeadChangesFromArrays
    (VArr 1 [VObj 2 [("id", VNum "7"); ("name", VStr "Bob")]])
    (VArr 3 [VObj 4 [("id", VStr "7"); ("name", VStr "Bob")];
             VObj 5 [("id", VNum "7"); ("name", VStr "Rob")]])
  = Ok {| hasChanges := true;
          newLeads := [[("id", VStr "7"); ("name", VStr "Bob")]] |}.
Proof.
  apply (diff_by_id 1 3
           [VObj 2 [("id", VNum "7"); ("name", VStr "Bob")]]
           [VObj 4 [("id", VStr "7"); ("name", VStr "Bob")];
            VObj 5 [("id", VNum "7"); ("name", VStr "Rob")]]);
    reflexivity.
Defined.

(** Against an empty baseline array every lead extracted from the current
    snapshot is new, and against any baseline an empty current array has no
    new lead and reports no change, provided the leads of the other array can
    be extracted; an exception of that extraction is the exception of the
    diff. *)
Theorem diff_with_empty_array (r : nat) (other : value) :
  match Full.extractLeadObjects other with
  | Ok leads =>
      Full.detectLeadChangesFromArrays (VArr r []) other
      = Ok (mkChanges (0 <? List.length leads)%nat leads)
      /\ Full.detectLeadChangesFromArrays other (VArr r [])
         = Ok (mkChanges false [])
  | Throw e =>
      Full.detectLeadChangesFromArrays (VArr r []) other = Throw e
      /\ Full.detectLeadChangesFromArrays other (VArr r []) = Throw e
  end.
Proof.
  unfold Full.detectLeadChangesFromArrays.
  replace (Full.extractLeadObjects (VArr r [])) with (@Ok (list lead) [])
    by reflexivity.
  destruct (Full.extractLeadObjects other) as [leads|e]; simpl;
    [|split; reflexivity].
  split; [|reflexivity].
  rewrite filter_throwing_all by reflexivity. reflexivity.
Qed.

Example diff_with_empty_array_example :
  Full.detectLeadChangesFromArrays (VArr 1 [])
    (VArr 2 [VObj 3 [("id", VStr "L1")]; VObj 4 [("name", VStr "Bob")]])
  = Ok {| hasChanges := true;
          newLeads := [[("id", VStr "L1")];
                       [("name", VStr "Bob"); ("uniqueKey", VStr "Bob")]] |}
  /\ Full.detectLeadChangesFromArrays
       (VArr 2 [VObj 3 [("id", VStr "L1")]; VObj 4 [("name", VStr "Bob")]])
       (VArr 1 [])
     = Ok {| hasChanges := false; newLeads := [] |}.
Proof. split; reflexivity. Qed.

(** For two records without a truthy [id] whose derived keys are not empty,
    [areLeadsEqual] on the extracted leads is equality of the key strings:
    the fields themselves are never compared, so records whose fields differ
    but join to the same string are the same lead. *)
Theorem uniqueKey_decides (o1 o2 : object)
  (Hid1 : truthy (get o1 "id") = false) (Hid2 : truthy (get o2 "id") = false)
  (Hkey1 : createUniqueKey o1 <> "") (Hkey2 : createUniqueKey o2 <> "") :
  areLeadsEqual (withUniqueKey o1) (withUniqueKey o2)
  = String.eqb (createUniqueKey o1) (createUniqueKey o2).
Proof.
  assert (Hkey : forall v o, get (set_prop "uniqueKey" v o) "uniqueKey" = v)
    by (intros v o; unfold get; rewrite lookup_set_prop_same; reflexivity).
  unfold withUniqueKey, areLeadsEqual. rewrite Hid1, Hid2. simpl negb. cbv iota.
  rewrite !get_set_prop_other by discriminate. rewrite Hid1, !Hkey. simpl.
  apply String.eqb_neq in Hkey1, Hkey2. rewrite Hkey1, Hkey2. reflexivity.
Qed.

Lemma uniqueKey_decides_witness :
  areLeadsEqual
    (withUniqueKey [("name", VStr "Ann|Lee")])
    (withUniqueKey [("name", VStr "Ann"); ("title", VStr "Lee")])
  = true
  /\ areLeadsEqual
       (withUniqueKey [("name", VNum "5"); ("location", VStr "X")])
       (withUniqueKey [("title", VStr "5"); ("job", VStr "X");
                       ("location", VStr "")])
     = true.
Proof.
  split.
  - apply (uniqueKey_decides [("name", VStr "Ann|Lee")]
             [("name", VStr "Ann"); ("title", VStr "Lee")]);
      [reflexivity | reflexivity | discriminate | discriminate].
  - apply (uniqueKey_decides [("name", VNum "5"); ("location", VStr "X")]
             [("title", VStr "5"); ("job", VStr "X"); ("location", VStr "")]);
      [reflexivity | reflexivity | discriminate | discriminate].
Defined.

(** ** The text diff *)

(** A text diff whose current text holds no identifier that the baseline
    text lacks reports no change and no lead, whatever else has changed; in
    particular a text compared with itself. *)
Theorem text_diff_without_new_identifier (clock : nat -> string)
  (previousData currentData : string)
  (Hknown : forall id, In id (extractLeadIdentifiers currentData) ->
                       In id (extractLeadIdentifiers previousData)) :
  detectLeadChangesFromStrings clock previousData currentData
  = mkChanges false [].
Proof.
  unfold detectLeadChangesFromStrings.
  replace (filter _ (extractLeadIdentifiers currentData)) with (@nil string).
  - simpl. rewrite andb_false_r. reflexivity.
  - symmetry.
    induction (extractLeadIdentifiers currentData) as [|id ids IH];
      simpl; [reflexivity|].
    replace (existsb (String.eqb id) (extractLeadIdentifiers previousData))
      with true.
    + simpl. apply IH. intros x Hx. apply Hknown. right. exact Hx.
    + symmetry. apply existsb_exists. exists id.
      split; [apply Hknown; left; reflexivity|apply String.eqb_refl].
Qed.

Lemma text_diff_without_new_identifier_witness :
  detectLeadChangesFromStrings (fun _ => "t")
    "lead-1 and lead-2 at 10:00:00" "lead-2 moved, lead-1 gone? no: lead-2"
  = mkChanges false [].
Proof.
  apply text_diff_without_new_identifier.
  intros id Hid. vm_compute in Hid. vm_compute.
  destruct Hid as [<-|[<-|[<-|[]]]]; auto.
Defined.

(** ** The patterns *)

Lemma span_zero (c : ascii -> bool) (s : string) :
  Regex.span c (Some 0) s = 0.
Proof. destruct s as [|x s]; simpl; [|destruct (c x)]; reflexivity. Qed.

(** One literal character at the head of a pattern. *)
Lemma match_here_lit (x : ascii) (r : Regex.regex) (s : string) :
  Regex.match_here (Regex.lit x :: r) s
  = match s with
    | String c s' =>
        if Ascii.eqb x c then option_map S (Regex.match_here r s') else None
    | EmptyString => None
    end.
Proof.
  destruct s as [|c s']; simpl; [reflexivity|].
  destruct (Ascii.eqb x c); simpl; [|reflexivity].
  rewrite span_zero. simpl.
  destruct (Regex.match_here r s'); reflexivity.
Qed.

(** A class under [+] at the end of a pattern takes every character it
    can. *)
Lemma match_here_plus (c : ascii -> bool) (s : string) :
  Regex.match_here [Regex.plus c] s
  = match Regex.span c None s with
    | 0 => None
    | S k => Some (S k + 0)
    end.
Proof.
  simpl. destruct (Regex.span c None s) as [|k]; reflexivity.
Qed.

Lemma span_take_all (c : ascii -> bool) (s : string) :
  forallb c (list_ascii_of_string (Regex.take (Regex.span c None s) s)) = true.
Proof.
  induction s as [|x s IH]; simpl; [reflexivity|].
  destruct (c x) eqn:E; simpl; [rewrite E, IH|]; reflexivity.
Qed.

Lemma take_nonempty (c : ascii -> bool) (s : string) (k : nat) :
  Regex.span c None s = S k -> Regex.take (S k) s <> "".
Proof. destruct s; simpl; [discriminate|]. intros _. discriminate. Qed.

Lemma match_here_lit_inv (x : ascii) (r : Regex.regex) (s : string)
  (n : nat) :
  Regex.match_here (Regex.lit x :: r) s = Some n ->
  exists s' m, s = String x s' /\ n = S m /\ Regex.match_here r s' = Some m.
Proof.
  rewrite match_here_lit. destruct s as [|c s']; [discriminate|].
  destruct (Ascii.eqb_spec x c) as [<-|]; [|discriminate].
  destruct (Regex.match_here r s') as [m|] eqn:E; [|discriminate].
  simpl. intros [= <-]. exists s', m. repeat split. exact E.
Qed.

(** What the identifier pattern matches at the start of a text. *)
Lemma match_here_leadId (s : string) (n : nat) :
  Regex.match_here leadIdRegex s = Some n ->
  exists token,
    Regex.take n s = String.append "lead-" token
    /\ token <> ""
    /\ forallb Regex.word (list_ascii_of_string token) = true.
Proof.
  unfold leadIdRegex, Regex.text. simpl app. intros H.
  apply match_here_lit_inv in H. destruct H as (s1 & n1 & -> & -> & H).
  apply match_here_lit_inv in H. destruct H as (s2 & n2 & -> & -> & H).
  apply match_here_lit_inv in H. destruct H as (s3 & n3 & -> & -> & H).
  apply match_here_lit_inv in H. destruct H as (s4 & n4 & -> & -> & H).
  apply match_here_lit_inv in H. destruct H as (s5 & n5 & -> & -> & H).
  rewrite match_here_plus in H.
  destruct (Regex.span Regex.word None s5) as [|k] eqn:Hspan; [discriminate|].
  injection H as <-. rewrite Nat.add_0_r.
  exists (Regex.take (S k) s5).
  split; [reflexivity|]. split; [apply (take_nonempty _ _ _ Hspan)|].
  rewrite <- Hspan. apply span_take_all.
Qed.

Lemma match_from_sound (r : Regex.regex) (s : string) :
  forall (skip : nat) (x : string),
    In x (Regex.match_from r skip s) ->
    exists j n,
      Regex.match_here r (Regex.drop j s) = Some n
      /\ x = Regex.take n (Regex.drop j s).
Proof.
  induction s as [|c s IH]; intros skip x Hin.
  - destruct skip as [|k]; simpl in Hin; [|contradiction].
    destruct (Regex.match_here r "") as [n|] eqn:E; [|contradiction].
    assert (Hx : x = "") by (destruct n; destruct Hin as [<-|[]]; reflexivity).
    exists 0, n. simpl. rewrite E.
    split; [reflexivity|]. rewrite Hx. destruct n; reflexivity.
  - assert (Hrest : forall k, In x (Regex.match_from r k s) ->
                              exists j n,
                                Regex.match_here r (Regex.drop j (String c s))
                                = Some n
                                /\ x = Regex.take n (Regex.drop j (String c s))).
    { intros k Hk. destruct (IH k x Hk) as (j & n & H1 & H2).
      exists (S j), n. simpl. auto. }
    destruct skip as [|k]; simpl in Hin; [|apply (Hrest k Hin)].
    destruct (Regex.match_here r (String c s)) as [[|n]|] eqn:E.
    + destruct Hin as [<-|Hin]; [|apply (Hrest 0 Hin)].
      exists 0, 0. simpl Regex.drop. rewrite E. auto.
    + destruct Hin as [<-|Hin]; [|apply (Hrest n Hin)].
      exists 0, (S n). simpl Regex.drop. rewrite E. auto.
    + apply (Hrest 0 Hin).
Qed.

Lemma prefix_take (n : nat) (s : string) :
  String.prefix (Regex.take n s) s = true.
Proof.
  revert n. induction s as [|c s IH]; intros [|n]; simpl; try reflexivity.
  rewrite IH. destruct (ascii_dec c c); [reflexivity|congruence].
Qed.

Lemma includes_unfold (s sub : string) :
  includes s sub
  = if String.prefix sub s then true
    else match s with
         | EmptyString => false
         | String _ s' => includes s' sub
         end.
Proof. destruct s; reflexivity. Qed.

Lemma includes_take_drop (s : string) :
  forall j n, includes s (Regex.take n (Regex.drop j s)) = true.
Proof.
  induction s as [|c s IH]; intros j n.
  - destruct j, n; reflexivity.
  - rewrite includes_unfold. destruct j as [|j].
    + simpl Regex.drop. rewrite prefix_take. reflexivity.
    + simpl Regex.drop. rewrite IH.
      destruct (String.prefix _ _); reflexivity.
Qed.

(** Every identifier [extractLeadIdentifiers] returns is ["lead-"] followed
    by a non-empty run of word characters, and occurs in the text it was
    extracted from. *)
Theorem extracted_identifiers_wellformed (data id : string)
  (Hin : In id (extractLeadIdentifiers data)) :
  exists token,
    id = String.append "lead-" token
    /\ token <> ""
    /\ forallb Regex.word (list_ascii_of_string token) = true
    /\ includes data id = true.
Proof.
  unfold extractLeadIdentifiers, Regex.match_all in Hin.
  apply match_from_sound in Hin. destruct Hin as (j & n & Hmatch & ->).
  destruct (match_here_leadId _ _ Hmatch) as (token & Htake & Hne & Hword).
  exists token. rewrite Htake. repeat split; try assumption.
  rewrite <- Htake. apply includes_take_drop.
Qed.

Lemma extracted_identifiers_wellformed_witness :
  exists token,
    "lead-ab_9" = String.append "lead-" token
    /\ token <> ""
    /\ forallb Regex.word (list_ascii_of_string token) = true
    /\ includes "x lead-7, lead-ab_9-z" "lead-ab_9" = true.
Proof.
  apply (extracted_identifiers_wellformed "x lead-7, lead-ab_9-z" "lead-ab_9").
  right. left. reflexivity.
Defined.

(** ** The deduplicator over several calls *)

Lemma allowed_call_records (cfg : config) (now : Z) (ids : list value)
  (d : detector) :
  fst (shouldSendNotification cfg now ids d) = true ->
  let d' := snd (shouldSendNotification cfg now ids d) in
  lastNotificationTime d' = now
  /\ (forall id, In id ids -> set_has (lastNotifiedLeadIds d') id = true)
  /\ ((now - lastNotificationTime d < deduplicationWindow cfg)%Z ->
      forall id, set_has (lastNotifiedLeadIds d) id = true ->
                 set_has (lastNotifiedLeadIds d') id = true).
Proof.
  unfold shouldSendNotification.
  destruct (now - lastNotificationTime d <? deduplicationWindow cfg)%Z eqn:W.
  - destruct (existsb _ ids); simpl; [discriminate|]. intros _.
    repeat split.
    + intros id Hin. apply fold_set_add_has, Hin.
    + intros _ id Hid. apply fold_set_add_keeps, Hid.
  - simpl. intros _. repeat split.
    + intros id Hin. apply fold_set_add_has, Hin.
    + intros Hw. apply Z.ltb_ge in W. lia.
Qed.

(** After a call that was allowed at time [t], a call for the same
    identities at time [t'] is allowed exactly when a full window has passed
    since [t]. *)
Theorem renotification_after_window (cfg : config) (t t' : Z)
  (ids : list value) (d : detector)
  (Hids : ids <> [])
  (Hfirst : fst (shouldSendNotification cfg t ids d) = true) :
  fst (shouldSendNotification cfg t' ids
         (snd (shouldSendNotification cfg t ids d)))
  = (deduplicationWindow cfg <=? t' - t)%Z.
Proof.
  destruct (allowed_call_records cfg t ids d Hfirst) as (Htime & Hset & _).
  unfold shouldSendNotification at 1. rewrite Htime, Z.leb_antisym.
  destruct (t' - t <? deduplicationWindow cfg)%Z; [|reflexivity].
  replace (existsb _ ids) with true; [reflexivity|].
  symmetry. destruct ids as [|id ids]; [contradiction|].
  apply existsb_exists. exists id.
  split; [left; reflexivity|apply Hset; left; reflexivity].
Qed.

Lemma renotification_after_window_witness :
  fst (shouldSendNotification CONFIG 1700000004999 [VStr "L1"; VNum "7"]
         (snd (shouldSendNotification CONFIG 1700000000000
                 [VStr "L1"; VNum "7"] started)))
  = false
  /\ fst (shouldSendNotification CONFIG 1700000005000 [VStr "L1"; VNum "7"]
            (snd (shouldSendNotification CONFIG 1700000000000
                    [VStr "L1"; VNum "7"] started)))
     = true.
Proof.
  split.
  - apply (renotification_after_window CONFIG 1700000000000 1700000004999
             [VStr "L1"; VNum "7"] started); [discriminate|reflexivity].
  - apply (renotification_after_window CONFIG 1700000000000 1700000005000
             [VStr "L1"; VNum "7"] started); [discriminate|reflexivity].
Defined.

(** The window slides: an allowed call inside the window keeps the
    identities notified before it and restarts the window, so an identity
    stays suppressed for as long as allowed notifications follow one another
    at less than a window's distance, however long ago it was notified. *)
Theorem window_slides (cfg : config) (t1 t2 t3 : Z)
  (ids1 ids2 ids3 : list value) (id : value) (d : detector)
  (Hfirst : fst (shouldSendNotification cfg t1 ids1 d) = true)
  (Hid1 : In id ids1)
  (Hnear : (t2 - t1 < deduplicationWindow cfg)%Z)
  (Hsecond :
     fst (shouldSendNotification cfg t2 ids2
            (snd (shouldSendNotification cfg t1 ids1 d))) = true)
  (Hnear' : (t3 - t2 < deduplicationWindow cfg)%Z)
  (Hid3 : In id ids3) :
  fst (shouldSendNotification cfg t3 ids3
         (snd (shouldSendNotification cfg t2 ids2
                 (snd (shouldSendNotification cfg t1 ids1 d)))))
  = false.
Proof.
  destruct (allowed_call_records cfg t1 ids1 d Hfirst) as (Htime1 & Hset1 & _).
  set (d1 := snd (shouldSendNotification cfg t1 ids1 d)) in *.
  destruct (allowed_call_records cfg t2 ids2 d1 Hsecond)
    as (Htime2 & _ & Hkeep).
  set (d2 := snd (shouldSendNotification cfg t2 ids2 d1)) in *.
  cbv zeta in *.
  assert (Hknown : set_has (lastNotifiedLeadIds d2) id = true).
  { apply Hkeep; [rewrite Htime1; exact Hnear|apply Hset1, Hid1]. }
  unfold shouldSendNotification. rewrite Htime2.
  apply Z.ltb_lt in Hnear'. rewrite Hnear'.
  replace (existsb _ ids3) with true; [reflexivity|].
  symmetry. apply existsb_exists. exists id. auto.
Qed.

Lemma window_slides_witness :
  fst (shouldSendNotification CONFIG 8000 [VStr "C"; VStr "A"]
         (snd (shouldSendNotification CONFIG 4000 [VStr "B"]
                 (snd (shouldSendNotification CONFIG 0 [VStr "A"] started)))))
  = false.
Proof.
  apply (window_slides CONFIG 0 4000 8000 [VStr "A"] [VStr "B"]
           [VStr "C"; VStr "A"] (VStr "A") started);
    [reflexivity | left; reflexivity | reflexivity | reflexivity
    | reflexivity | right; left; reflexivity].
Defined.

(** ** Bounds on the backoff *)

(** The sum of the delay and the jitter is rounded to a double, and the
    rounding can reach the next whole millisecond: at the cap of [CONFIG],
    with [Math.random()] read as 1 - 2^-52, the delay returned is the cap
    plus 1000 exactly. *)
Example getBackoffDelay_reaches_bound :
  (getBackoffDelay CONFIG 5 (1 - (1 # Z.to_pos (2 ^ 52)))
   == inject_Z (maxBackoffDelay CONFIG) + 1000)%Q.
Proof. reflexivity. Qed.

(** With a positive base delay and a positive cap in whole milliseconds
    (and below 2^53 - 1000, so that a double holds the sums exactly),
    whatever the retry count, the backoff delay is at least the smaller of
    [baseBackoffDelay] and [maxBackoffDelay] and at most
    [maxBackoffDelay + 1000]. *)
Theorem getBackoffDelay_bounds (cfg : config) (n : nat) (random : Q)
  (Hbase : (0 < baseBackoffDelay cfg)%Z)
  (Hcap : (0 < maxBackoffDelay cfg)%Z)
  (Hmax : (maxBackoffDelay cfg + 1000 < 2 ^ 53)%Z)
  (Hlow : (0 <= random)%Q) (Hhigh : (random <= belowOne)%Q) :
  (inject_Z (Z.min (baseBackoffDelay cfg) (maxBackoffDelay cfg))
   <= getBackoffDelay cfg n random)%Q
  /\ (getBackoffDelay cfg n random
      <= inject_Z (maxBackoffDelay cfg + 1000))%Q.
Proof.
  unfold getBackoffDelay.
  set (delay := Z.min (baseBackoffDelay cfg * 2 ^ Z.of_nat n)
                      (maxBackoffDelay cfg)).
  destruct (round_jitter random Hlow Hhigh) as [Hj0 Hj1].
  fold (jitter random) in Hj0, Hj1.
  assert (Hfloor : (Z.min (baseBackoffDelay cfg) (maxBackoffDelay cfg)
                    <= delay)%Z).
  { subst delay. pose proof (pow2_pos n). apply Z.min_le_compat_r. nia. }
  assert (Hceil : (delay <= maxBackoffDelay cfg)%Z) by apply Z.le_min_r.
  apply round_between.
  - lia.
  - rewrite Zle_Qle in Hfloor. lra.
  - rewrite inject_Z_plus. rewrite Zle_Qle in Hceil.
    change (inject_Z 1000) with 1000%Q. lra.
  - exact Hmax.
Qed.

Lemma getBackoffDelay_bounds_witness :
  (inject_Z 1000
   <= getBackoffDelay CONFIG 40 (1 - (1 # Z.to_pos (2 ^ 52))))%Q
  /\ (getBackoffDelay CONFIG 40 (1 - (1 # Z.to_pos (2 ^ 52)))
      <= inject_Z (30000 + 1000))%Q.
Proof.
  apply (getBackoffDelay_bounds CONFIG 40 (1 - (1 # Z.to_pos (2 ^ 52)))%Q);
    [reflexivity | reflexivity | reflexivity
     | vm_compute; discriminate | vm_compute; discriminate].
Defined.

(** ** The outcomes of a cycle *)

Lemma shouldSendNotification_suppressed (cfg : config) (now : Z)
  (ids : list value) (d : detector) :
  fst (shouldSendNotification cfg now ids d) = false ->
  shouldSendNotification cfg now ids d = (false, d).
Proof.
  unfold shouldSendNotification.
  destruct (now - lastNotificationTime d <? deduplicationWindow cfg)%Z;
    [destruct (existsb _ ids)|]; simpl; intros H;
    [reflexivity|discriminate|discriminate].
Qed.

(** When the fetch fails and the session has not expired, the cycle counts a
    retry and sets the timer to the backoff delay of the new count; it
    touches nothing else, starts no login and posts nothing. *)
Lemma pollLeadsData_fetchFails (cfg : config) (w : world) (d : detector)
  (Hrun : isRunning d = true) (Hfails : fetchFails w d) :
  pollLeadsData cfg w d
  = (Ok tt,
     set_retryCount (S (retryCount d)) d,
     request_of d
     ++ [SetTimeout (getBackoffDelay cfg (S (retryCount d)) (Math_random w))]).
Proof.
  rewrite (pollLeadsData_running cfg w d Hrun). unfold request_of.
  destruct Hfails as [Hnone|Hfails].
  { run_step. rewrite Hnone. reflexivity. }
  destruct (cookies d) as [cs|] eqn:Hcookies;
    [|run_step; rewrite Hcookies; reflexivity].
  destruct Hfails as [Herr|(statusCode & location & body & Hresp & Hlogin & Hst)].
  { run_step. rewrite Hcookies, Herr. reflexivity. }
  run_step. rewrite Hcookies, Hresp, Hlogin.
  replace ((statusCode <? 200)%Z || (300 <=? statusCode)%Z) with true.
  - reflexivity.
  - symmetry. apply orb_true_iff.
    destruct (Z.ltb_spec statusCode 200); [left; reflexivity|].
    right. apply Z.leb_le. lia.
Qed.

Section AfterFetch.

Variables (cfg : config) (w : world) (d : detector).
Variables (cs : list (string * string)) (statusCode : Z).
Variables (location : option string) (leadsData previousData : string).

Hypothesis Hrun : isRunning d = true.
Hypothesis Hcookies : cookies d = Some cs.
Hypothesis Hresp :
  leads_response w = GetResponse statusCode location leadsData.
Hypothesis H2xx : (200 <= statusCode < 300)%Z.
Hypothesis Hlogin : needsRelogin statusCode location = false.
Hypothesis Hbody : leadsData <> "".
Hypothesis Hprev : previousLeadsData d = Some previousData.

Let currentLeadsArray : value :=
  match JSON_parse w leadsData with
  | Some parsed => parsed
  | None => VNull
  end.

Let diff : result changes :=
  detectLeadChanges (Date_toISOString w) previousData leadsData
    (previousLeadsArray d) currentLeadsArray.

Ltac enter_diff :=
  rewrite (pollLeadsData_running cfg w d Hrun);
  unfold try_catch, pollLeadsData_try, bind at 1;
  rewrite (fetchLeadsData_success w d cs statusCode location leadsData
             Hcookies Hresp H2xx Hlogin);
  subst diff currentLeadsArray;
  destruct leadsData as [|c rest] eqn:E; [contradiction|];
  cbv beta iota zeta delta [bind read lift ret write emit];
  rewrite Hprev.

(** When the diff throws, as it does on an array of objects that holds a
    [null], the cycle ends like a failed fetch: a retry is counted, the timer
    is set to the backoff delay, and the baseline stays, so the same snapshot
    fails again on every later cycle. *)
Theorem diff_exception_backs_off (e : exn) (Hdiff : diff = Throw e) :
  pollLeadsData cfg w d
  = (Ok tt,
     set_retryCount (S (retryCount d)) d,
     [HttpGet (cookieString cs);
      SetTimeout (getBackoffDelay cfg (S (retryCount d)) (Math_random w))]).
Proof.
  revert Hdiff. enter_diff. intros ->. reflexivity.
Qed.

(** When the diff reports no change, the cycle keeps the baseline it has,
    also when the snapshot differs from it: it posts nothing, leaves the
    notification state alone, resets the retry count and sets the timer to
    the polling interval. *)
Theorem no_change_keeps_baseline (found : changes)
  (Hdiff : diff = Ok found) (Hnone : hasChanges found = false) :
  pollLeadsData cfg w d
  = (Ok tt,
     set_retryCount 0 d,
     [HttpGet (cookieString cs); SetTimeout (inject_Z (pollingInterval cfg))]).
Proof.
  revert Hdiff. enter_diff. intros ->. rewrite Hnone. reflexivity.
Qed.

(** A batch smaller than [minNewLeadsToNotify] is dropped silently: the
    cycle posts nothing and does not consult the deduplicator, and it advances
    the baseline, so these leads are never notified. *)
Theorem small_batch_advances_silently (found : changes)
  (Hdiff : diff = Ok found) (Hchanges : hasChanges found = true)
  (Hsmall :
     (Z.of_nat (List.length (newLeads found)) < minNewLeadsToNotify cfg)%Z) :
  pollLeadsData cfg w d
  = (Ok tt,
     set_retryCount 0 (set_baseline leadsData currentLeadsArray d),
     [HttpGet (cookieString cs); SetTimeout (inject_Z (pollingInterval cfg))]).
Proof.
  revert Hdiff. enter_diff. intros ->. rewrite Hchanges.
  apply Z.leb_gt in Hsmall. rewrite Hsmall. reflexivity.
Qed.

(** A batch the deduplicator suppresses is dropped as well: nothing is
    posted, the notification state is as before, and the baseline advances,
    so the next cycle no longer sees these leads as new. *)
Theorem suppressed_batch_advances (found : changes)
  (Hdiff : diff = Ok found) (Hchanges : hasChanges found = true)
  (Hbatch :
     (minNewLeadsToNotify cfg <= Z.of_nat (List.length (newLeads found)))%Z)
  (Hsuppressed :
     fst (shouldSendNotification cfg (Date_now w)
            (map leadIdentity (newLeads found)) d) = false) :
  pollLeadsData cfg w d
  = (Ok tt,
     set_retryCount 0 (set_baseline leadsData currentLeadsArray d),
     [HttpGet (cookieString cs); SetTimeout (inject_Z (pollingInterval cfg))]).
Proof.
  revert Hdiff. enter_diff. intros ->. rewrite Hchanges.
  apply Z.leb_le in Hbatch. rewrite Hbatch. cbv beta iota delta [andb].
  rewrite (shouldSendNotification_suppressed _ _ _ _ Hsuppressed).
  reflexivity.
Qed.

(** A batch the deduplicator allows is posted once, and whatever status the
    webhook answers with, a 2xx or not, the cycle goes on in the same way:
    the batch is recorded as notified, the baseline advances and the retry
    count is reset.  A notification the webhook refuses is not sent again. *)
Theorem answered_batch_advances (found : changes) (status : Z)
  (Hdiff : diff = Ok found) (Hchanges : hasChanges found = true)
  (Hbatch :
     (minNewLeadsToNotify cfg <= Z.of_nat (List.length (newLeads found)))%Z)
  (Hallowed :
     fst (shouldSendNotification cfg (Date_now w)
            (map leadIdentity (newLeads found)) d) = true)
  (Hpost : webhook_response w = PostResponse status) :
  pollLeadsData cfg w d
  = (Ok tt,
     set_retryCount 0
       (set_baseline leadsData currentLeadsArray
          (snd (shouldSendNotification cfg (Date_now w)
                  (map leadIdentity (newLeads found)) d))),
     [HttpGet (cookieString cs);
      HttpPost {| event := "new_leads_detected";
                  method := "polling";
                  leads := newLeads found;
                  timestamp := payload_timestamp w |};
      SetTimeout (inject_Z (pollingInterval cfg))]).
Proof.
  revert Hdiff Hallowed. enter_diff. intros -> Hallowed. rewrite Hchanges.
  apply Z.leb_le in Hbatch. rewrite Hbatch. cbv beta iota delta [andb].
  destruct (shouldSendNotification cfg (Date_now w)
              (map leadIdentity (newLeads found)) d) as [b d1].
  simpl in Hallowed. subst b.
  unfold sendWebhookNotification, bind, emit, ret. rewrite Hpost.
  reflexivity.
Qed.

End AfterFetch.

Lemma diff_exception_backs_off_witness :
  pollLeadsData CONFIG world_with_null polled_once
  = (Ok tt, set_retryCount 1 polled_once,
     [HttpGet "session=s1"; SetTimeout (getBackoffDelay CONFIG 1 (1 # 2))]).
Proof.
  apply (diff_exception_backs_off CONFIG world_with_null polled_once
           session_cookies 200 None "[{},null]" (snapshot_text ["L1"])
           eq_refl eq_refl eq_refl ltac:(lia) eq_refl ltac:(discriminate)
           eq_refl TypeError eq_refl).
Defined.

Lemma no_change_keeps_baseline_witness :
  pollLeadsData CONFIG world_with_nothing polled_once
  = (Ok tt, set_retryCount 0 polled_once,
     [HttpGet "session=s1"; SetTimeout (inject_Z 1000)]).
Proof.
  apply (no_change_keeps_baseline CONFIG world_with_nothing polled_once
           session_cookies 200 None "[]" (snapshot_text ["L1"])
           eq_refl eq_refl eq_refl ltac:(lia) eq_refl ltac:(discriminate)
           eq_refl (mkChanges false []) eq_refl eq_refl).
Defined.

Lemma small_batch_advances_silently_witness :
  pollLeadsData from_two_leads
    (scenario_world 10 (GetResponse 200 None (snapshot_text ["L1"; "L2"]))
       (PostResponse 200))
    polled_once
  = (Ok tt,
     set_retryCount 0
       (set_baseline (snapshot_text ["L1"; "L2"])
          (snapshot_value 10 ["L1"; "L2"]) polled_once),
     [HttpGet "session=s1"; SetTimeout (inject_Z 1000)]).
Proof.
  apply (small_batch_advances_silently from_two_leads
           (scenario_world 10
              (GetResponse 200 None (snapshot_text ["L1"; "L2"]))
              (PostResponse 200))
           polled_once session_cookies 200 None (snapshot_text ["L1"; "L2"])
           (snapshot_text ["L1"])
           eq_refl eq_refl eq_refl ltac:(lia) eq_refl ltac:(discriminate)
           eq_refl (mkChanges true [[("id", VStr "L2")]]) eq_refl eq_refl
           eq_refl).
Defined.

Lemma suppressed_batch_advances_witness :
  let d := set_notified 1699999999000 [VStr "L2"] polled_once in
  pollLeadsData CONFIG
    (scenario_world 10 (GetResponse 200 None (snapshot_text ["L1"; "L2"]))
       (PostResponse 200))
    d
  = (Ok tt,
     set_retryCount 0
       (set_baseline (snapshot_text ["L1"; "L2"])
          (snapshot_value 10 ["L1"; "L2"]) d),
     [HttpGet "session=s1"; SetTimeout (inject_Z 1000)]).
Proof.
  apply (suppressed_batch_advances CONFIG
           (scenario_world 10
              (GetResponse 200 None (snapshot_text ["L1"; "L2"]))
              (PostResponse 200))
           (set_notified 1699999999000 [VStr "L2"] polled_once)
           session_cookies 200 None (snapshot_text ["L1"; "L2"])
           (snapshot_text ["L1"])
           eq_refl eq_refl eq_refl ltac:(lia) eq_refl ltac:(discriminate)
           eq_refl (mkChanges true [[("id", VStr "L2")]]) eq_refl eq_refl
           ltac:(simpl; lia) eq_refl).
Defined.

Lemma answered_batch_advances_witness :
  pollLeadsData CONFIG
    (scenario_world 10 (GetResponse 200 None (snapshot_text ["L1"; "L2"]))
       (PostResponse 500))
    polled_once
  = (Ok tt,
     set_retryCount 0
       (set_baseline (snapshot_text ["L1"; "L2"])
          (snapshot_value 10 ["L1"; "L2"])
          (set_notified 1700000000000 [VStr "L2"] polled_once)),
     [HttpGet "session=s1";
      HttpPost {| event := "new_leads_detected";
                  method := "polling";
                  leads := [[("id", VStr "L2")]];
                  timestamp := "2023-11-14T22:13:20.001Z" |};
      SetTimeout (inject_Z 1000)]).
Proof.
  apply (answered_batch_advances CONFIG
           (scenario_world 10
              (GetResponse 200 None (snapshot_text ["L1"; "L2"]))
              (PostResponse 500))
           polled_once session_cookies 200 None (snapshot_text ["L1"; "L2"])
           (snapshot_text ["L1"])
           eq_refl eq_refl eq_refl ltac:(lia) eq_refl ltac:(discriminate)
           eq_refl (mkChanges true [[("id", VStr "L2")]]) 500%Z eq_refl eq_refl
           ltac:(simpl; lia) eq_refl eq_refl).
Defined.

Lemma shouldSendNotification_frame (cfg : config) (now : Z)
  (ids : list value) (d : detector) :
  let d' := snd (shouldSendNotification cfg now ids d) in
  isRunning d' = isRunning d
  /\ cookies d' = cookies d
  /\ previousLeadsData d' = previousLeadsData d
  /\ previousLeadsArray d' = previousLeadsArray d
  /\ retryCount d' = retryCount d
  /\ loginRetryCount d' = loginRetryCount d.
Proof.
  unfold shouldSendNotification.
  destruct (now - lastNotificationTime d <? deduplicationWindow cfg)%Z;
    [destruct (existsb _ ids)|]; simpl; repeat split.
Qed.

(** A running cycle whose requests settle never throws and never ends
    without setting the timer for the next one: however the world answers or
    fails the request for the leads and the notification, the cycle returns
    normally, leaves the detector running with the cookies it had, and its
    last effect, and no other, is a timer for [pollLeadsData].  It sends at
    most one request for the leads, starts at most one login and posts at
    most one notification.  Before the fourth login the login it starts sets
    no timer of its own either. *)
Theorem cycle_always_reschedules (cfg : config) (w : world) (d : detector)
  (Hrun : isRunning d = true) (Hlogin : (loginRetryCount d < 3)%nat) :
  let '(r, d', effects) := pollLeadsData cfg w d in
  r = Ok tt
  /\ isRunning d' = true
  /\ cookies d' = cookies d
  /\ (exists before delay,
        effects = before ++ [SetTimeout delay]
        /\ filter isTimer before = [])
  /\ (List.length (filter isGet effects) <= 1)%nat
  /\ (List.length (filter isRelogin effects) <= 1)%nat
  /\ (List.length (filter isPost effects) <= 1)%nat.
Proof.
  rewrite (pollLeadsData_running cfg w d Hrun).
  run_step.
  destruct (cookies d) as [cs|] eqn:Hcookies.
  2:{ simpl. rewrite Hrun, Hcookies. repeat split; auto.
      exists [], (getBackoffDelay cfg (S (retryCount d)) (Math_random w)).
      auto. }
  destruct (leads_response w) as [statusCode location body|].
  2:{ simpl. rewrite Hrun, Hcookies. repeat split; auto.
      eexists [_], _. split; reflexivity. }
  destruct (needsRelogin statusCode location).
  { simpl. rewrite Hrun, Hcookies. repeat split; auto.
    eexists [_; _], _. split; reflexivity. }
  destruct ((statusCode <? 200)%Z || (300 <=? statusCode)%Z).
  { simpl. rewrite Hrun, Hcookies. repeat split; auto.
    eexists [_], _. split; reflexivity. }
  destruct body as [|c body].
  { simpl. rewrite Hrun, Hcookies. repeat split; auto.
    eexists [_], _. split; reflexivity. }
  destruct (previousLeadsData d) as [previousData|].
  2:{ simpl. rewrite Hrun, Hcookies. repeat split; auto.
      eexists [_], _. split; reflexivity. }
  destruct (detectLeadChanges _ _ _ _ _) as [found|e].
  2:{ simpl. rewrite Hrun, Hcookies. repeat split; auto.
      eexists [_], _. split; reflexivity. }
  destruct (hasChanges found).
  2:{ simpl. rewrite Hrun, Hcookies. repeat split; auto.
      eexists [_], _. split; reflexivity. }
  destruct (minNewLeadsToNotify cfg <=? _)%Z.
  2:{ simpl. rewrite Hrun, Hcookies. repeat split; auto.
      eexists [_], _. split; reflexivity. }
  cbv beta iota delta [andb].
  destruct (shouldSendNotification_frame cfg (Date_now w)
              (map leadIdentity (newLeads found)) d)
    as (Hrun1 & Hcookies1 & _).
  destruct (shouldSendNotification cfg (Date_now w)
              (map leadIdentity (newLeads found)) d) as [[|] d1];
    simpl in Hrun1, Hcookies1.
  2:{ simpl. rewrite Hrun1, Hrun, Hcookies1, Hcookies. repeat split; auto.
      eexists [_], _. split; reflexivity. }
  destruct (webhook_response w) as [status|];
    simpl; rewrite Hrun1, Hrun, Hcookies1, Hcookies; repeat split; auto;
    eexists [_; _], _; split; reflexivity.
Qed.

Lemma cycle_always_reschedules_witness :
  let '(r, d', effects) := pollLeadsData CONFIG world_with_null polled_once in
  r = Ok tt
  /\ isRunning d' = true
  /\ cookies d' = cookies polled_once
  /\ (exists before delay,
        effects = before ++ [SetTimeout delay]
        /\ filter isTimer before = [])
  /\ (List.length (filter isGet effects) <= 1)%nat
  /\ (List.length (filter isRelogin effects) <= 1)%nat
  /\ (List.length (filter isPost effects) <= 1)%nat.
Proof.
  apply (cycle_always_reschedules CONFIG world_with_null polled_once);
    [reflexivity | repeat constructor].
Defined.

(** ** The loop *)

Lemma pollLoop_fetchFails (cfg : config) (ws : list world) (d : detector) :
  isRunning d = true ->
  (forall w, In w ws -> fetchFails w d) ->
  pollLoop cfg ws d
  = (set_retryCount (retryCount d + List.length ws) d,
     backoffSchedule cfg d ws).
Proof.
  unfold backoffSchedule. revert d.
  induction ws as [|w ws IH]; intros d Hrun Hfail.
  - simpl. rewrite Nat.add_0_r. destruct d; reflexivity.
  - simpl pollLoop.
    rewrite (pollLeadsData_fetchFails cfg w d Hrun (Hfail w (or_introl eq_refl))).
    rewrite (IH (set_retryCount (S (retryCount d)) d)).
    + unfold request_of, set_retryCount. simpl.
      rewrite <- app_assoc, Nat.add_succ_r. reflexivity.
    + exact Hrun.
    + intros w' Hw'. specialize (Hfail w' (or_intror Hw')).
      exact Hfail.
Qed.

Lemma pollLoop_app (cfg : config) (ws1 ws2 : list world) (d : detector) :
  pollLoop cfg (ws1 ++ ws2) d
  = match pollLoop cfg ws1 d with
    | (d1, e1) =>
        match pollLoop cfg ws2 d1 with
        | (d2, e2) => (d2, e1 ++ e2)
        end
    end.
Proof.
  revert d. induction ws1 as [|w ws1 IH]; intros d; simpl.
  - destruct (pollLoop cfg ws2 d). reflexivity.
  - destruct (pollLeadsData cfg w d) as [[r d1] e1]. rewrite IH.
    destruct (pollLoop cfg ws1 d1) as [d2 e2].
    destruct (pollLoop cfg ws2 d2) as [d3 e3].
    rewrite app_assoc. reflexivity.
Qed.

(** Over any number of consecutive cycles whose fetch fails (without an
    expired session), the retry count goes up by one a cycle and nothing else
    in the detector changes; the cycle at count [n] waits the backoff delay
    of [n]. *)
Theorem consecutive_failures_count (cfg : config) (ws : list world)
  (d : detector)
  (Hrun : isRunning d = true)
  (Hfail : forall w, In w ws -> fetchFails w d) :
  pollLoop cfg ws d
  = (set_retryCount (retryCount d + List.length ws) d,
     backoffSchedule cfg d ws).
Proof.
  unfold backoffSchedule. revert d Hrun Hfail.
  induction ws as [|w ws IH]; intros d Hrun Hfail.
  - simpl. rewrite Nat.add_0_r. destruct d; reflexivity.
  - simpl pollLoop.
    rewrite (pollLeadsData_fetchFails cfg w d Hrun (Hfail w (or_introl eq_refl))).
    rewrite (IH (set_retryCount (S (retryCount d)) d) Hrun).
    + unfold request_of, set_retryCount. simpl.
      rewrite <- app_assoc, Nat.add_succ_r. reflexivity.
    + intros w' Hw'. exact (Hfail w' (or_intror Hw')).
Qed.

Lemma consecutive_failures_count_witness :
  pollLoop CONFIG
    [scenario_world 10 GetError PostError;
     scenario_world 10 (GetResponse 503 None "busy") PostError;
     scenario_world 10 (GetResponse 302 (Some "/maintenance") "") PostError]
    polled_once
  = (set_retryCount 3 polled_once,
     [HttpGet "session=s1"; SetTimeout (getBackoffDelay CONFIG 1 (1 # 2));
      HttpGet "session=s1"; SetTimeout (getBackoffDelay CONFIG 2 (1 # 2));
      HttpGet "session=s1"; SetTimeout (getBackoffDelay CONFIG 3 (1 # 2))]).
Proof.
  apply (consecutive_failures_count CONFIG
           [scenario_world 10 GetError PostError;
            scenario_world 10 (GetResponse 503 None "busy") PostError;
            scenario_world 10 (GetResponse 302 (Some "/maintenance") "")
              PostError]
           polled_once eq_refl).
  intros w [<-|[<-|[<-|[]]]].
  - right. left. reflexivity.
  - right. right. exists 503%Z, None, "busy". repeat split. lia.
  - right. right. exists 302%Z, (Some "/maintenance"), "". repeat split. lia.
Defined.

(** Once stopped, the detector is inert: however many timers still fire, no
    cycle sends a request, sets a timer or changes the detector, so the loop
    ends with the timers that were pending. *)
Theorem stopped_loop_is_inert (cfg : config) (ws : list world) (d : detector) :
  pollLoop cfg ws (stop d) = (stop d, []).
Proof.
  induction ws as [|w ws IH]; [reflexivity|].
  change (pollLoop cfg (w :: ws) (stop d))
    with (match pollLoop cfg ws (stop d) with
          | (d2, e2) => (d2, [] ++ e2)
          end).
  rewrite IH. reflexivity.
Qed.

Lemma pollLeadsData_counts_login (cfg : config) (w : world) (d : detector) :
  let '(r, d', effects) := pollLeadsData cfg w d in
  loginRetryCount d'
  = loginRetryCount d + List.length (filter isRelogin effects)
  /\ isRunning d' = isRunning d.
Proof.
  destruct (isRunning d) eqn:Hrun.
  2:{ unfold pollLeadsData, bind, read, ret. rewrite Hrun. simpl. auto. }
  rewrite (pollLeadsData_running cfg w d Hrun).
  run_step.
  destruct (cookies d) as [cs|]; [|simpl; auto].
  destruct (leads_response w) as [statusCode location body|]; [|simpl; auto].
  destruct (needsRelogin statusCode location);
    [simpl; split; [rewrite Nat.add_1_r; reflexivity|exact Hrun]|].
  destruct ((statusCode <? 200)%Z || (300 <=? statusCode)%Z); [simpl; auto|].
  destruct body as [|c body]; [simpl; auto|].
  destruct (previousLeadsData d) as [previousData|]; [|simpl; auto].
  destruct (detectLeadChanges _ _ _ _ _) as [found|e]; [|simpl; auto].
  destruct (hasChanges found); [|simpl; auto].
  destruct (minNewLeadsToNotify cfg <=? _)%Z; [|simpl; auto].
  cbv beta iota delta [andb].
  destruct (shouldSendNotification_frame cfg (Date_now w)
              (map leadIdentity (newLeads found)) d)
    as (Hrun1 & _ & _ & _ & _ & Hlogin1).
  destruct (shouldSendNotification cfg (Date_now w)
              (map leadIdentity (newLeads found)) d) as [[|] d1];
    simpl in Hrun1, Hlogin1.
  - destruct (webhook_response w); simpl; rewrite Hlogin1, Hrun1; auto.
  - simpl. rewrite Hlogin1, Hrun1. auto.
Qed.

(** [loginRetryCount] counts every login the poll loop has ever started and
    is never reset: after any number of cycles it has grown by the number of
    calls of [handleRelogin], whatever happened in between. *)
Theorem logins_are_counted (cfg : config) (ws : list world) (d : detector) :
  let '(d', effects) := pollLoop cfg ws d in
  loginRetryCount d'
  = loginRetryCount d + List.length (filter isRelogin effects).
Proof.
  revert d. induction ws as [|w ws IH]; intros d; simpl; [lia|].
  pose proof (pollLeadsData_counts_login cfg w d) as Hstep.
  destruct (pollLeadsData cfg w d) as [[r d1] e1].
  destruct Hstep as [Hstep _].
  specialize (IH d1). destruct (pollLoop cfg ws d1) as [d2 e2].
  rewrite filter_app, length_app. lia.
Qed.

Example logins_are_counted_example :
  loginRetryCount
    (fst (pollLoop CONFIG
            [world_unauthorized; world_with_nothing; world_unauthorized;
             world_unauthorized; world_with_nothing]
            polled_once))
  = 3.
Proof. reflexivity. Qed.

(** ** Cycles that reach the diff, in full *)

Section CycleInFull.

Variables (cfg : config) (w : world) (d : detector).
Variables (cs : list (string * string)) (statusCode : Z).
Variables (location : option string) (leadsData : string).

Hypothesis Hrun : isRunning d = true.
Hypothesis Hcookies : cookies d = Some cs.
Hypothesis Hresp :
  leads_response w = GetResponse statusCode location leadsData.
Hypothesis H2xx : (200 <= statusCode < 300)%Z.
Hypothesis Hlogin : needsRelogin statusCode location = false.
Hypothesis Hbody : leadsData <> "".

Let currentLeadsArray : value :=
  match JSON_parse w leadsData with
  | Some parsed => parsed
  | None => VNull
  end.

Lemma pollLeadsData_first :
  previousLeadsData d = None ->
  pollLeadsData cfg w d
  = (Ok tt,
     set_baseline leadsData currentLeadsArray d,
     [HttpGet (cookieString cs); SetTimeout (inject_Z (pollingInterval cfg))]).
Proof.
  intros Hfirst.
  rewrite (pollLeadsData_running cfg w d Hrun).
  unfold try_catch, pollLeadsData_try, bind at 1.
  rewrite (fetchLeadsData_success w d cs statusCode location leadsData
             Hcookies Hresp H2xx Hlogin).
  subst currentLeadsArray.
  destruct leadsData as [|c rest] eqn:E; [contradiction|].
  run_step. rewrite Hfirst. reflexivity.
Qed.

Variables (previousData : string) (found : changes).

Hypothesis Hprev : previousLeadsData d = Some previousData.
Hypothesis Hdiff :
  detectLeadChanges (Date_toISOString w) previousData leadsData
    (previousLeadsArray d) currentLeadsArray
  = Ok found.
Hypothesis Hchanges : hasChanges found = true.
Hypothesis Hbatch :
  (minNewLeadsToNotify cfg <= Z.of_nat (List.length (newLeads found)))%Z.

Lemma pollLeadsData_batch :
  pollLeadsData cfg w d
  = let notification :=
      {| event := "new_leads_detected";
         method := "polling";
         leads := newLeads found;
         timestamp := payload_timestamp w |} in
    match shouldSendNotification cfg (Date_now w)
            (map leadIdentity (newLeads found)) d with
    | (true, d1) =>
        match webhook_response w with
        | PostResponse _ =>
            (Ok tt,
             set_retryCount 0 (set_baseline leadsData currentLeadsArray d1),
             [HttpGet (cookieString cs); HttpPost notification;
              SetTimeout (inject_Z (pollingInterval cfg))])
        | PostError =>
            (Ok tt,
             set_retryCount (S (retryCount d1)) d1,
             [HttpGet (cookieString cs); HttpPost notification;
              SetTimeout
                (getBackoffDelay cfg (S (retryCount d1)) (Math_random w))])
        end
    | (false, d1) =>
        (Ok tt,
         set_retryCount 0 (set_baseline leadsData currentLeadsArray d1),
         [HttpGet (cookieString cs);
          SetTimeout (inject_Z (pollingInterval cfg))])
    end.
Proof.
  rewrite (pollLeadsData_running cfg w d Hrun).
  unfold try_catch, pollLeadsData_try, bind at 1.
  rewrite (fetchLeadsData_success w d cs statusCode location leadsData
             Hcookies Hresp H2xx Hlogin).
  subst currentLeadsArray.
  destruct leadsData as [|c rest] eqn:E; [contradiction|].
  apply Z.leb_le in Hbatch.
  cbv beta iota zeta delta [bind read lift ret write emit].
  rewrite Hprev, Hdiff, Hchanges, Hbatch. cbv beta iota delta [andb].
  destruct (shouldSendNotification cfg (Date_now w)
              (map leadIdentity (newLeads found)) d) as [[|] d1];
    [|reflexivity].
  unfold sendWebhookNotification, bind, emit, ret, throw.
  destruct (webhook_response w); reflexivity.
Qed.

End CycleInFull.

(** The first snapshot a detector stores does not reset the retry count:
    when the fetches before it failed, the count stays at the number of these
    failures, and the next failure backs off from there. *)
Theorem first_snapshot_keeps_retryCount (cfg : config) (ws : list world)
  (w : world) (d : detector) (cs : list (string * string)) (statusCode : Z)
  (location : option string) (leadsData : string)
  (Hrun : isRunning d = true)
  (Hcookies : cookies d = Some cs)
  (Hfirst : previousLeadsData d = None)
  (Hfail : forall w', In w' ws -> fetchFails w' d)
  (Hresp : leads_response w = GetResponse statusCode location leadsData)
  (H2xx : (200 <= statusCode < 300)%Z)
  (Hlogin : needsRelogin statusCode location = false)
  (Hbody : leadsData <> "") :
  let '(d', effects) := pollLoop cfg (ws ++ [w]) d in
  retryCount d' = retryCount d + List.length ws
  /\ previousLeadsData d' = Some leadsData
  /\ effects
     = backoffSchedule cfg d ws
       ++ [HttpGet (cookieString cs);
           SetTimeout (inject_Z (pollingInterval cfg))].
Proof.
  rewrite pollLoop_app, (pollLoop_fetchFails cfg ws d Hrun Hfail).
  simpl pollLoop.
  rewrite (pollLeadsData_first cfg w
             (set_retryCount (retryCount d + List.length ws) d)
             cs statusCode location leadsData Hrun Hcookies Hresp H2xx Hlogin
             Hbody Hfirst).
  rewrite app_nil_r. repeat split.
Qed.

Lemma first_snapshot_keeps_retryCount_witness :
  let '(d', effects) :=
    pollLoop CONFIG
      [scenario_world 1 GetError PostError;
       scenario_world 1 GetError PostError;
       scenario_world 1 (GetResponse 200 None (snapshot_text ["L1"])) PostError]
      started in
  retryCount d' = 2
  /\ previousLeadsData d' = Some (snapshot_text ["L1"])
  /\ effects
     = [HttpGet "session=s1"; SetTimeout (getBackoffDelay CONFIG 1 (1 # 2));
        HttpGet "session=s1"; SetTimeout (getBackoffDelay CONFIG 2 (1 # 2));
        HttpGet "session=s1"; SetTimeout (inject_Z 1000)].
Proof.
  apply (first_snapshot_keeps_retryCount CONFIG
           [scenario_world 1 GetError PostError;
            scenario_world 1 GetError PostError]
           (scenario_world 1 (GetResponse 200 None (snapshot_text ["L1"]))
              PostError)
           started session_cookies 200 None (snapshot_text ["L1"])
           eq_refl eq_refl eq_refl);
    [|reflexivity | lia | reflexivity | discriminate].
  intros w' [<-|[<-|[]]]; right; left; reflexivity.
Defined.

(** ** A failed delivery, one cycle later *)

(** A notification whose request failed is lost when the next cycle comes
    inside the deduplication window.  The failed cycle kept the baseline but
    had already recorded the batch as notified; the next cycle finds the same
    lead new again, the deduplicator suppresses it, and the baseline advances
    past it.  Over the two cycles the only request to the webhook is the one
    that failed. *)
Theorem failed_delivery_is_lost (cfg : config) (w1 w2 : world) (d : detector)
  (cs : list (string * string)) (status1 status2 : Z)
  (location1 location2 : option string) (data1 data2 previousData : string)
  (found1 found2 : changes) (id : value)
  (Hrun : isRunning d = true)
  (Hcookies : cookies d = Some cs)
  (Hprev : previousLeadsData d = Some previousData)
  (Hresp1 : leads_response w1 = GetResponse status1 location1 data1)
  (H2xx1 : (200 <= status1 < 300)%Z)
  (Hlogin1 : needsRelogin status1 location1 = false)
  (Hbody1 : data1 <> "")
  (Hdiff1 :
     detectLeadChanges (Date_toISOString w1) previousData data1
       (previousLeadsArray d)
       match JSON_parse w1 data1 with Some parsed => parsed | None => VNull end
     = Ok found1)
  (Hchanges1 : hasChanges found1 = true)
  (Hbatch1 :
     (minNewLeadsToNotify cfg <= Z.of_nat (List.length (newLeads found1)))%Z)
  (Hallowed1 :
     fst (shouldSendNotification cfg (Date_now w1)
            (map leadIdentity (newLeads found1)) d) = true)
  (Hpost1 : webhook_response w1 = PostError)
  (Hresp2 : leads_response w2 = GetResponse status2 location2 data2)
  (H2xx2 : (200 <= status2 < 300)%Z)
  (Hlogin2 : needsRelogin status2 location2 = false)
  (Hbody2 : data2 <> "")
  (Hdiff2 :
     detectLeadChanges (Date_toISOString w2) previousData data2
       (previousLeadsArray d)
       match JSON_parse w2 data2 with Some parsed => parsed | None => VNull end
     = Ok found2)
  (Hchanges2 : hasChanges found2 = true)
  (Hbatch2 :
     (minNewLeadsToNotify cfg <= Z.of_nat (List.length (newLeads found2)))%Z)
  (Hnear : (Date_now w2 - Date_now w1 < deduplicationWindow cfg)%Z)
  (Hid1 : In id (map leadIdentity (newLeads found1)))
  (Hid2 : In id (map leadIdentity (newLeads found2))) :
  let '(d', effects) := pollLoop cfg [w1; w2] d in
  filter isPost effects
  = [HttpPost {| event := "new_leads_detected";
                 method := "polling";
                 leads := newLeads found1;
                 timestamp := payload_timestamp w1 |}]
  /\ previousLeadsData d' = Some data2
  /\ retryCount d' = 0
  /\ lastNotificationTime d' = Date_now w1.
Proof.
  destruct (allowed_call_records cfg (Date_now w1)
              (map leadIdentity (newLeads found1)) d Hallowed1)
    as (Htime & Hset & _).
  destruct (shouldSendNotification_frame cfg (Date_now w1)
              (map leadIdentity (newLeads found1)) d)
    as (Hrun' & Hcookies' & Hprev' & Harray' & _).
  cbv zeta in *. simpl pollLoop.
  rewrite (pollLeadsData_batch cfg w1 d cs status1 location1 data1 Hrun Hcookies
             Hresp1 H2xx1 Hlogin1 Hbody1 previousData found1 Hprev Hdiff1
             Hchanges1 Hbatch1).
  cbv zeta.
  destruct (shouldSendNotification cfg (Date_now w1)
              (map leadIdentity (newLeads found1)) d) as [b d1].
  simpl in Hallowed1, Htime, Hset, Hrun', Hcookies', Hprev', Harray'.
  subst b. rewrite Hpost1.
  assert (Hsuppressed :
            shouldSendNotification cfg (Date_now w2)
              (map leadIdentity (newLeads found2))
              (set_retryCount (S (retryCount d1)) d1)
            = (false, set_retryCount (S (retryCount d1)) d1)).
  { unfold shouldSendNotification. simpl lastNotificationTime.
    rewrite Htime. apply Z.ltb_lt in Hnear. rewrite Hnear.
    simpl lastNotifiedLeadIds.
    replace (existsb _ (map leadIdentity (newLeads found2))) with true;
      [reflexivity|].
    symmetry. apply existsb_exists. exists id. split; [exact Hid2|].
    apply Hset, Hid1. }
  rewrite (pollLeadsData_batch cfg w2 (set_retryCount (S (retryCount d1)) d1)
             cs status2 location2 data2
             (eq_trans Hrun' Hrun) (eq_trans Hcookies' Hcookies)
             Hresp2 H2xx2 Hlogin2 Hbody2 previousData found2);
    [| simpl; rewrite Hprev'; exact Hprev
     | simpl previousLeadsArray; rewrite Harray'; exact Hdiff2
     | exact Hchanges2 | exact Hbatch2].
  cbv zeta. rewrite Hsuppressed. simpl. auto.
Qed.

Lemma failed_delivery_is_lost_witness :
  let '(d', effects) :=
    pollLoop CONFIG
      [scenario_world_at 1700000000000 10
         (GetResponse 200 None (snapshot_text ["L1"; "L2"])) PostError;
       scenario_world_at 1700000002500 20
         (GetResponse 200 None (snapshot_text ["L1"; "L2"])) (PostResponse 200)]
      polled_once in
  filter isPost effects
  = [HttpPost {| event := "new_leads_detected";
                 method := "polling";
                 leads := [[("id", VStr "L2")]];
                 timestamp := "2023-11-14T22:13:20.001Z" |}]
  /\ previousLeadsData d' = Some (snapshot_text ["L1"; "L2"])
  /\ retryCount d' = 0
  /\ lastNotificationTime d' = 1700000000000%Z.
Proof.
  apply (failed_delivery_is_lost CONFIG
           (scenario_world_at 1700000000000 10
              (GetResponse 200 None (snapshot_text ["L1"; "L2"])) PostError)
           (scenario_world_at 1700000002500 20
              (GetResponse 200 None (snapshot_text ["L1"; "L2"]))
              (PostResponse 200))
           polled_once session_cookies 200 200 None None
           (snapshot_text ["L1"; "L2"]) (snapshot_text ["L1"; "L2"])
           (snapshot_text ["L1"])
           (mkChanges true [[("id", VStr "L2")]])
           (mkChanges true [[("id", VStr "L2")]]) (VStr "L2")
           eq_refl eq_refl eq_refl eq_refl ltac:(lia) eq_refl
           ltac:(discriminate) eq_refl eq_refl ltac:(simpl; lia) eq_refl
           eq_refl eq_refl ltac:(lia) eq_refl ltac:(discriminate) eq_refl
           eq_refl ltac:(simpl; lia) eq_refl
           (or_introl eq_refl) (or_introl eq_refl)).
Defined.

(** ** The DOM-mutation path *)

(** The two detection paths share one deduplicator and nothing else.  A
    notification from the page is posted with the method [dom_mutation] and
    leaves the baseline of the poll loop where it was; so the next cycle still
    finds the lead new, and when it comes inside the window and identifies
    the lead by the same value, it is suppressed, posts nothing and advances
    the baseline. *)
Theorem dom_notification_suppresses_poll (cfg : config) (w0 w : world)
  (d : detector) (domLeads : list lead) (cs : list (string * string))
  (statusCode : Z) (location : option string)
  (leadsData previousData : string) (found : changes) (id : value)
  (Hrun : isRunning d = true)
  (Hcookies : cookies d = Some cs)
  (Hprev : previousLeadsData d = Some previousData)
  (Hallowed :
     fst (shouldSendNotification cfg (Date_now w0)
            (map domIdentity domLeads) d) = true)
  (Hresp : leads_response w = GetResponse statusCode location leadsData)
  (H2xx : (200 <= statusCode < 300)%Z)
  (Hlogin : needsRelogin statusCode location = false)
  (Hbody : leadsData <> "")
  (Hdiff :
     detectLeadChanges (Date_toISOString w) previousData leadsData
       (previousLeadsArray d)
       match JSON_parse w leadsData with Some parsed => parsed | None => VNull end
     = Ok found)
  (Hchanges : hasChanges found = true)
  (Hbatch :
     (minNewLeadsToNotify cfg <= Z.of_nat (List.length (newLeads found)))%Z)
  (Hnear : (Date_now w - Date_now w0 < deduplicationWindow cfg)%Z)
  (Hdom : In id (map domIdentity domLeads))
  (Hpoll : In id (map leadIdentity (newLeads found))) :
  let '(_, d0, e0) := onNewLeadsDetected cfg w0 domLeads d in
  let '(r, d', e) := pollLeadsData cfg w d0 in
  e0 = [HttpPost {| event := "new_leads_detected";
                    method := "dom_mutation";
                    leads := domLeads;
                    timestamp := payload_timestamp w0 |}]
  /\ previousLeadsData d0 = previousLeadsData d
  /\ previousLeadsArray d0 = previousLeadsArray d
  /\ retryCount d0 = retryCount d
  /\ r = Ok tt
  /\ e = [HttpGet (cookieString cs);
          SetTimeout (inject_Z (pollingInterval cfg))]
  /\ previousLeadsData d' = Some leadsData.
Proof.
  destruct (allowed_call_records cfg (Date_now w0)
              (map domIdentity domLeads) d Hallowed)
    as (Htime & Hset & _).
  destruct (shouldSendNotification_frame cfg (Date_now w0)
              (map domIdentity domLeads) d)
    as (Hrun' & Hcookies' & Hprev' & Harray' & Hretry' & _).
  cbv zeta in *.
  assert (Hsuppressed :
            shouldSendNotification cfg (Date_now w)
              (map leadIdentity (newLeads found))
              (snd (shouldSendNotification cfg (Date_now w0)
                      (map domIdentity domLeads) d))
            = (false, snd (shouldSendNotification cfg (Date_now w0)
                             (map domIdentity domLeads) d))).
  { unfold shouldSendNotification at 1. rewrite Htime.
    apply Z.ltb_lt in Hnear. rewrite Hnear.
    replace (existsb _ (map leadIdentity (newLeads found))) with true;
      [reflexivity|].
    symmetry. apply existsb_exists. exists id. split; [exact Hpoll|].
    apply Hset, Hdom. }
  assert (Hcycle :
            pollLeadsData cfg w
              (snd (shouldSendNotification cfg (Date_now w0)
                      (map domIdentity domLeads) d))
            = (Ok tt,
               set_retryCount 0
                 (set_baseline leadsData
                    match JSON_parse w leadsData with
                    | Some parsed => parsed
                    | None => VNull
                    end
                    (snd (shouldSendNotification cfg (Date_now w0)
                            (map domIdentity domLeads) d))),
               [HttpGet (cookieString cs);
                SetTimeout (inject_Z (pollingInterval cfg))])).
  { rewrite (pollLeadsData_batch cfg w _ cs statusCode location leadsData
               (eq_trans Hrun' Hrun) (eq_trans Hcookies' Hcookies)
               Hresp H2xx Hlogin Hbody previousData found);
      [| rewrite Hprev'; exact Hprev
       | rewrite Harray'; exact Hdiff
       | exact Hchanges | exact Hbatch].
    cbv zeta. rewrite Hsuppressed. reflexivity. }
  unfold onNewLeadsDetected, bind.
  destruct (shouldSendNotification cfg (Date_now w0)
              (map domIdentity domLeads) d) as [b d1].
  simpl in *. subst b.
  unfold sendWebhookNotification, bind, emit, ret, throw.
  destruct (webhook_response w0); simpl; rewrite Hcycle; simpl; auto 10.
Qed.

Lemma dom_notification_suppresses_poll_witness :
  let '(_, d0, e0) :=
    onNewLeadsDetected CONFIG
      (scenario_world_at 1700000000000 10 GetError (PostResponse 200))
      [[("id", VStr "L2"); ("name", VStr "Bob"); ("jobType", VStr "Taps")]]
      polled_once in
  let '(r, d', e) :=
    pollLeadsData CONFIG
      (scenario_world_at 1700000000900 20
         (GetResponse 200 None (snapshot_text ["L1"; "L2"])) (PostResponse 200))
      d0 in
  e0 = [HttpPost {| event := "new_leads_detected";
                    method := "dom_mutation";
                    leads := [[("id", VStr "L2"); ("name", VStr "Bob");
                               ("jobType", VStr "Taps")]];
                    timestamp := "2023-11-14T22:13:20.001Z" |}]
  /\ previousLeadsData d0 = previousLeadsData polled_once
  /\ previousLeadsArray d0 = previousLeadsArray polled_once
  /\ retryCount d0 = retryCount polled_once
  /\ r = Ok tt
  /\ e = [HttpGet "session=s1"; SetTimeout (inject_Z 1000)]
  /\ previousLeadsData d' = Some (snapshot_text ["L1"; "L2"]).
Proof.
  apply (dom_notification_suppresses_poll CONFIG
           (scenario_world_at 1700000000000 10 GetError (PostResponse 200))
           (scenario_world_at 1700000000900 20
              (GetResponse 200 None (snapshot_text ["L1"; "L2"]))
              (PostResponse 200))
           polled_once
           [[("id", VStr "L2"); ("name", VStr "Bob"); ("jobType", VStr "Taps")]]
           session_cookies 200 None (snapshot_text ["L1"; "L2"])
           (snapshot_text ["L1"]) (mkChanges true [[("id", VStr "L2")]])
           (VStr "L2")
           eq_refl eq_refl eq_refl eq_refl eq_refl ltac:(lia) eq_refl
           ltac:(discriminate) eq_refl eq_refl ltac:(simpl; lia) eq_refl
           (or_introl eq_refl) (or_introl eq_refl)).
Defined.

Lemma filter_none {A : Type} (f : A -> bool) (l : list A) :
  (forall x, In x l -> f x = false) -> filter f l = [].
Proof.
  induction l as [|x l IH]; intros H; simpl; [reflexivity|].
  rewrite (H x (or_introl eq_refl)). apply IH.
  intros y Hy. apply H. right. exact Hy.
Qed.

(** The observer reports a lead only if it was not on the page at the last
    report: as long as every lead on the page was there then, whether leads
    have gone, moved or come back, it dispatches no event and keeps the list
    it has. *)
Theorem observer_ignores_known_leads (hasAddedNodes : bool)
  (currentLeads previousLeads : list lead)
  (Hknown : forall l, In l currentLeads -> In l previousLeads)
  (Hplain : forall l, In l currentLeads -> plainFields l) :
  onMutations hasAddedNodes currentLeads (Some previousLeads)
  = (Some previousLeads, None).
Proof.
  unfold onMutations. destruct hasAddedNodes; [|reflexivity].
  replace (detectNewLeads (Some previousLeads) currentLeads) with (@nil lead);
    [reflexivity|].
  symmetry. unfold detectNewLeads. apply filter_none. intros l Hl.
  destruct (Hplain l Hl) as (Hname & Hlocation & HjobType).
  destruct (truthy (get l "id")) eqn:Hid; apply negb_false_iff, existsb_exists;
    exists l; (split; [apply Hknown, Hl|]).
  - apply strict_eq_refl, truthy_not_NaN, Hid.
  - rewrite !strict_eq_refl by assumption. reflexivity.
Qed.

Lemma observer_ignores_known_leads_witness :
  let bob := [("id", VNull); ("name", VStr "Bob"); ("location", VStr "X");
              ("jobType", VStr "")] in
  let ann := [("id", VStr "lead-7"); ("name", VStr "Ann")] in
  onMutations true [ann; bob; ann] (Some [bob; [("id", VStr "lead-9")]; ann])
  = (Some [bob; [("id", VStr "lead-9")]; ann], None).
Proof.
  intros bob ann.
  apply (observer_ignores_known_leads true [ann; bob; ann]
           [bob; [("id", VStr "lead-9")]; ann]).
  - intros l [<-|[<-|[<-|[]]]]; simpl; auto.
  - intros l [<-|[<-|[<-|[]]]]; repeat split.
Defined.

(** ** More on the array diff *)

(** A baseline lead that has an [id] but none of the key fields, such as
    [{id: "L1"}], equals every lead without a truthy [id]: once the baseline
    holds one, the diff reports no record that lacks an [id], whatever its
    fields. *)
Theorem id_only_lead_masks_leads_without_id (previousArray currentArray : value)
  (previousLeads : list lead) (found : changes) (p : lead)
  (Hextract : extractLeadObjects previousArray = Ok previousLeads)
  (Hin : In p previousLeads)
  (Hkey : truthy (get p "uniqueKey") = false)
  (Hfields : forall field, In field keyFields -> hasOwnProperty p field = false)
  (Hdiff : detectLeadChangesFromArrays previousArray currentArray = Ok found) :
  forall c, In c (newLeads found) -> truthy (get c "id") = true.
Proof.
  intros c Hc. unfold detectLeadChangesFromArrays in Hdiff.
  rewrite Hextract in Hdiff. simpl in Hdiff.
  destruct (extractLeadObjects currentArray) as [currentLeads|e];
    [|discriminate].
  simpl in Hdiff. injection Hdiff as <-. simpl in Hc.
  apply filter_In in Hc. destruct Hc as [_ Hnone].
  apply negb_true_iff in Hnone.
  destruct (truthy (get c "id")) eqn:Hid; [reflexivity|].
  assert (Hsome : existsb (fun prevLead => areLeadsEqual prevLead c)
                          previousLeads = true).
  { apply existsb_exists. exists p. split; [exact Hin|].
    unfold areLeadsEqual. rewrite Hid, Hkey, andb_false_r.
    cbv beta iota delta [andb].
    apply forallb_forall. intros field Hfield.
    rewrite (Hfields field Hfield). reflexivity. }
  congruence.
Qed.

Lemma id_only_lead_masks_leads_without_id_witness :
  detectLeadChangesFromArrays
    (VArr 1 [VObj 2 [("id", VStr "L1")]])
    (VArr 3 [VObj 4 [("id", VStr "L1")];
             VObj 5 [("name", VStr "Bob"); ("location", VStr "X")];
             VObj 6 [("id", VStr "L2")]])
  = Ok {| hasChanges := true; newLeads := [[("id", VStr "L2")]] |}
  /\ truthy (get [("id", VStr "L2")] "id") = true.
Proof.
  split; [reflexivity|].
  apply (id_only_lead_masks_leads_without_id
           (VArr 1 [VObj 2 [("id", VStr "L1")]])
           (VArr 3 [VObj 4 [("id", VStr "L1")];
                    VObj 5 [("name", VStr "Bob"); ("location", VStr "X")];
                    VObj 6 [("id", VStr "L2")]])
           [[("id", VStr "L1")]]
           {| hasChanges := true; newLeads := [[("id", VStr "L2")]] |}
           [("id", VStr "L1")]);
    [reflexivity | left; reflexivity | reflexivity | | reflexivity
    | left; reflexivity].
  intros field Hfield. simpl in Hfield.
  repeat (destruct Hfield as [<-|Hfield]; [reflexivity|]). contradiction.
Defined.

Lemma processItem_complete (item : value) (r : nat) (ps : object) :
  inside (VObj r ps) item -> isLikelyLeadObject ps = true ->
  In (withUniqueKey ps) (processItem item).
Proof.
  intros Hinside Hlikely.
  induction Hinside as [|r' items x Hx Hinside IH|r' props k x Hx Hinside IH].
  - simpl. rewrite Hlikely. left. reflexivity.
  - simpl. apply in_or_app. right. apply in_flat_map. exists x. auto.
  - simpl. apply in_or_app. right. apply in_flat_map. exists (k, x). auto.
Qed.

(** On an array that does not start with an object, the search is complete
    whenever it returns: every object in the array, at whatever depth, that
    looks like a lead is among the leads [extractLeadObjects] returns, an
    object inside a lead as well as the lead around it.  (The search throws
    when it meets an object with an own property [hasOwnProperty], or a
    lead-like one whose key [join] cannot print.) *)
Theorem nested_leads_are_found (r0 : nat) (first : value) (rest : list value)
  (r : nat) (ps : object) (leads : list lead)
  (Hfirst : typeof_object first && negb (strict_eq first VNull) = false)
  (Hextract : Full.extractLeadObjects (VArr r0 (first :: rest)) = Ok leads)
  (Hinside : inside (VObj r ps) (VArr r0 (first :: rest)))
  (Hlikely : isLikelyLeadObject ps = true) :
  In (withUniqueKey ps) leads.
Proof.
  apply extractLeadObjects_returns in Hextract.
  unfold extractLeadObjects in Hextract. rewrite Hfirst in Hextract.
  injection Hextract as <-.
  apply (processItem_complete _ r ps Hinside Hlikely).
Qed.

Lemma nested_leads_are_found_witness :
  In [("name", VStr "n"); ("uniqueKey", VStr "n")]
     [[("customer", VObj 5 [("name", VStr "n")]); ("uniqueKey", VStr "")];
      [("name", VStr "n"); ("uniqueKey", VStr "n")]].
Proof.
  apply (nested_leads_are_found 1 (VNum "1")
           [VObj 2 [("data",
                     VArr 3 [VObj 4 [("customer",
                                      VObj 5 [("name", VStr "n")])]])]]
           5 [("name", VStr "n")]);
    [reflexivity | reflexivity | | reflexivity].
  eapply inside_item; [right; left; reflexivity|].
  eapply inside_prop; [left; reflexivity|].
  eapply inside_item; [left; reflexivity|].
  eapply inside_prop; [left; reflexivity|].
  apply inside_here.
Defined.
